(** * Stock screener: the three pattern detectors and the resonance table

    A shallow embedding of [github-actions/combined_screener_cloud.py]
    (class [CombinedScreenerCloud]) and of the hit-map part of
    [combined_screener.py] ([CombinedScreener._print_report]).

    Numbers.  The source computes on IEEE doubles held in a pandas frame.
    Here prices, volumes and percentages are exact rationals ([Q]); every
    comparison, [min]/[max], [abs] and rounding step is the one of the source,
    evaluated without rounding error.  An operation that has no rational
    value yields [Fault]: a zero divisor (ZeroDivisionError on Python
    numbers, inf or nan on NumPy scalars), the mean or extremum of an empty
    window (nan), an index out of range (IndexError).  [Ok None] is the
    [(False, None)] a detector returns for not-matched, [Ok (Some d)] is
    [(True, d)], so a result [Ok _] also says that nothing was raised.

    Divisions.  In the straight-line code of the detectors every [/] is
    [fdiv].  Where the source divides directly under its own test of the
    divisor ([a / b if b > 0 else c], or a helper that returns first when
    the divisor is 0), or by a non-zero literal, the quotient is written
    with [Q]'s [/].  Three quotients have a divisor the source does not
    test; NumPy gives inf or nan for them and raises nothing, so each is
    kept as the [outcome] it is computed as and is bound only where the
    source reads its value: [day2_gap_down] of the Reversal detector in
    the score of a matched pattern, [break_change] of the Volume-Breakout
    detector and [signal_change] of the Shrink-Breakout detector in the
    figures of the detail, which are [number]s.

    Binary64.  The match decision of the Reversal detector is given a
    second time on binary64 numbers ([ReversalBinary64]), for the
    threshold tests, where the rounding of the computed change decides on
    which side of a bound a series falls.

    Frames.  A frame is the list of its rows in date order; [iloc] and
    [islice] follow Python's indexing (negative positions count from the
    end, slices are clipped to the frame). *)

From Stdlib Require Import ZArith QArith Qround Qabs Qminmax.
From Stdlib Require Import List String Ascii Bool Lia Lqa Sorted Permutation.
From Stdlib Require Import Floats.
Import ListNotations.

Local Open Scope Z_scope.
Local Open Scope Q_scope.

(** ** Outcomes of partial operations *)

Inductive outcome (A : Type) : Type :=
| Ok (a : A)
| Fault.

Arguments Ok {A} a.
Arguments Fault {A}.

Definition bind {A B : Type} (m : outcome A) (k : A -> outcome B) : outcome B :=
  match m with
  | Ok a => k a
  | Fault => Fault
  end.

Notation "x <- m ;; k" := (bind m (fun x => k))
  (at level 61, m at next level, right associativity).

(** ** Comparisons and scalar helpers *)

Definition Qleb (x y : Q) : bool := Qle_bool x y.
Definition Qltb (x y : Q) : bool := negb (Qle_bool y x).
Definition Qeqb (x y : Q) : bool := Qeq_bool x y.

(** Python's two-argument [min(a, b)] and [max(a, b)]: the first argument
    is kept unless the second is strictly better. *)
Definition pmin (a b : Q) : Q := if Qltb b a then b else a.
Definition pmax (a b : Q) : Q := if Qltb a b then b else a.

Definition zmin (a b : Z) : Z := if (b <? a)%Z then b else a.
Definition zmax (a b : Z) : Z := if (a <? b)%Z then b else a.

(** [x / y] of the source. *)
Definition fdiv (x y : Q) : outcome Q :=
  if Qeqb y 0 then Fault else Ok (x / y).

(** A figure that the source only reports: the rational it computes, or
    [NonFinite] where the double is inf or nan because a divisor is zero.
    Nothing is raised for it: NumPy divides by zero with a warning, and
    [round(x, k)] leaves inf and nan as they are. *)
Inductive number : Type :=
| Finite (q : Q)
| NonFinite.

Definition reported (o : outcome Q) : number :=
  match o with
  | Ok q => Finite q
  | Fault => NonFinite
  end.

(** [round(x)]: nearest integer, halves to the even neighbour. *)
Definition py_round (x : Q) : Z :=
  let f := Qfloor x in
  match Qcompare (x - inject_Z f) (1 # 2) with
  | Lt => f
  | Gt => (f + 1)%Z
  | Eq => if Z.even f then f else (f + 1)%Z
  end.

(** [round(x, k)] for [k] decimal places. *)
Definition py_round_n (x : Q) (k : nat) : Q :=
  let p := (10 ^ Z.of_nat k)%Z in
  inject_Z (py_round (x * inject_Z p)) / inject_Z p.

(** [int(x)]: truncation towards zero. *)
Definition py_int (x : Q) : Z :=
  if Qltb x 0 then Qceiling x else Qfloor x.

(** ** Bars and frames *)

Record bar : Type := mkBar {
  date : string;
  open : Q;
  high : Q;
  low : Q;
  close : Q;
  volume : Q
}.

Definition DataFrame : Type := list bar.

Definition len {A : Type} (l : list A) : Z := Z.of_nat (List.length l).

(** [df.iloc[i]] *)
Definition iloc (df : DataFrame) (i : Z) : outcome bar :=
  let n := len df in
  let j := if (i <? 0)%Z then (i + n)%Z else i in
  if (j <? 0)%Z then Fault
  else match nth_error df (Z.to_nat j) with
       | Some b => Ok b
       | None => Fault
       end.

Definition norm_idx (n i : Z) : Z :=
  if (i <? 0)%Z then Z.max 0 (i + n) else Z.min i n.

(** [seq[a:b]] *)
Definition islice {A : Type} (l : list A) (a b : Z) : list A :=
  let n := len l in
  let a' := norm_idx n a in
  let b' := norm_idx n b in
  firstn (Z.to_nat (b' - a')) (skipn (Z.to_nat a') l).

Definition closes (w : list bar) : list Q := map close w.
Definition volumes (w : list bar) : list Q := map volume w.

Definition qsum (l : list Q) : Q := fold_right Qplus 0 l.

(** [Series.max()], [Series.min()], [Series.mean()] *)
Definition smax (l : list Q) : outcome Q :=
  match l with
  | [] => Fault
  | x :: t => Ok (fold_left pmax t x)
  end.

Definition smin (l : list Q) : outcome Q :=
  match l with
  | [] => Fault
  | x :: t => Ok (fold_left pmin t x)
  end.

Definition mean (l : list Q) : outcome Q :=
  match l with
  | [] => Fault
  | _ => Ok (qsum l / inject_Z (len l))
  end.

(** [range(a, b)] as a list of integers *)
Definition zrange (a b : Z) : list Z :=
  map (fun k => (a + Z.of_nat k)%Z) (seq 0 (Z.to_nat (b - a))).

(** [range(a, b, -1)] *)
Definition zrange_down (a b : Z) : list Z :=
  map (fun k => (a - Z.of_nat k)%Z) (seq 0 (Z.to_nat (a - b))).

(** A flat frame of [k] identical bars, used as the quiet history in front
    of hand-built patterns. *)
Definition flat (k : nat) (px vol : Q) : DataFrame :=
  repeat (mkBar "d" px px px px vol) k.

(** ** Strategy 1: three-day reversal ([check_reversal_pattern]) *)

Module Reversal.

Record config : Type := mkConfig {
  small_bear_min : Q;
  small_bear_max : Q;
  big_bear_min : Q;
  gap_down_min : Q;
  bull_close_min : Q;
  prior_decline_days : Z;
  prior_decline_min : Q;
  max_upper_shadow_cfg : Q
}.

(** [self.reversal_config] *)
Definition reversal_config : config := {|
  small_bear_min := 3 # 10;
  small_bear_max := 2;
  big_bear_min := 3;
  gap_down_min := 0;
  bull_close_min := 1;
  prior_decline_days := 22;
  prior_decline_min := 3;
  max_upper_shadow_cfg := 30
|}.

Record detail : Type := mkDetail {
  day1_change : Q;
  day2_change : Q;
  day3_change : Q;
  gap_down : Q;
  day2_gap : Q;
  contrast : Q;
  shadow : Q;
  engulfed : bool;
  prior_decline : Q;
  day1_date : string;
  day2_date : string;
  day3_date : string;
  score : Z
}.

(** The per-day tests of lines 226, 231, 236 and 238. *)
Definition is_day1_small (cfg : config) (day1_change : Q) : bool :=
  Qleb (small_bear_min cfg) (Qabs day1_change)
  && Qleb (Qabs day1_change) (small_bear_max cfg).

Definition is_day2_big (cfg : config) (day2_change : Q) : bool :=
  Qleb (big_bear_min cfg) (Qabs day2_change).

Definition is_day3_gap_down (cfg : config) (gap_down : Q) : bool :=
  Qleb gap_down (- gap_down_min cfg).

Definition is_day3_strong (cfg : config) (day3_change : Q) : bool :=
  Qleb (bull_close_min cfg) day3_change.

(** The nested [upper_shadow_ratio(row)]. *)
Definition upper_shadow_ratio (row : bar) : Q :=
  let body_top := pmax (open row) (close row) in
  let total_range := high row - low row in
  if Qeqb total_range 0 then 0
  else
    let upper_shadow := high row - body_top in
    upper_shadow / total_range * 100.

(** Lines 257-260. *)
Definition bear_contrast (day1_change day2_change : Q) : Q :=
  if Qltb 0 (Qabs day1_change) then Qabs day2_change / Qabs day1_change
  else 0.

(** Lines 270-288: the score before the final [round]. *)
Definition reversal_score
    (day2_change gap_down : Q) (day1_not_engulfed : bool)
    (day2_gap_down day3_change bear_contrast max_upper_shadow : Q) : Q :=
  let score := 40 in
  let score := score + pmin (Qabs day2_change - 3) 5 * 2 in
  let score := score + pmin (Qabs gap_down) 3 * 2 in
  let score := if day1_not_engulfed then score + 8 else score in
  let score :=
    if Qltb day2_gap_down 0 then score + pmin (Qabs day2_gap_down) 2 * 5
    else score in
  let score :=
    if Qleb day3_change 3 then score + 8
    else if Qleb day3_change 5 then score + 4
    else score in
  let score := score + pmin (bear_contrast - (3 # 2)) 3 * (333 # 100) in
  let score :=
    if Qleb max_upper_shadow 10 then score + 8
    else if Qleb max_upper_shadow 20 then score + 5
    else if Qleb max_upper_shadow 30 then score + 2
    else score in
  pmin 100 (pmax 0 score).

Definition check_reversal_pattern_cfg (cfg : config) (df : option DataFrame)
  : outcome (option detail) :=
  match df with
  | None => Ok None
  | Some df =>
    let min_required := (3 + prior_decline_days cfg)%Z in
    if (len df <? min_required)%Z then Ok None else
    day1 <- iloc df (-3) ;;
    day2 <- iloc df (-2) ;;
    day3 <- iloc df (-1) ;;
    let prior_days := prior_decline_days cfg in
    let prior_start_idx := (-3 - prior_days)%Z in
    if (Z.abs prior_start_idx >? len df)%Z then Ok None else
    prior_start <- iloc df prior_start_idx ;;
    prior_end <- iloc df (-4) ;;
    let prior_start_close := close prior_start in
    let prior_end_close := close prior_end in
    if Qeqb prior_start_close 0 then Ok None else
    q <- fdiv (prior_end_close - prior_start_close) prior_start_close ;;
    let prior_decline := q * 100 in
    if Qltb 0 (prior_decline_min cfg)
       && (Qleb 0 prior_decline
           || Qltb (Qabs prior_decline) (prior_decline_min cfg))
    then Ok None else
    if Qeqb (open day1) 0 || Qeqb (open day2) 0 || Qeqb (open day3) 0
    then Ok None else
    if Qeqb (close day2) 0 then Ok None else
    q1 <- fdiv (close day1 - open day1) (open day1) ;;
    let day1_change := q1 * 100 in
    let is_day1_bear := Qltb (close day1) (open day1) in
    let is_day1_small := is_day1_small cfg day1_change in
    q2 <- fdiv (close day2 - open day2) (open day2) ;;
    let day2_change := q2 * 100 in
    let is_day2_bear := Qltb (close day2) (open day2) in
    let is_day2_big := is_day2_big cfg day2_change in
    qg <- fdiv (open day3 - close day2) (close day2) ;;
    let gap_down := qg * 100 in
    q3 <- fdiv (close day3 - open day3) (open day3) ;;
    let day3_change := q3 * 100 in
    let is_day3_gap_down := is_day3_gap_down cfg gap_down in
    let is_day3_bull := Qltb (open day3) (close day3) in
    let is_day3_strong := is_day3_strong cfg day3_change in
    let day1_not_engulfed :=
      negb (Qleb (high day1) (high day2) && Qleb (low day2) (low day1)) in
    let day2_gap_down :=
      q <- fdiv (open day2 - close day1) (close day1) ;; Ok (q * 100) in
    let day1_upper_shadow := upper_shadow_ratio day1 in
    let day2_upper_shadow := upper_shadow_ratio day2 in
    let day3_upper_shadow := upper_shadow_ratio day3 in
    let max_upper_shadow :=
      pmax (pmax day1_upper_shadow day2_upper_shadow) day3_upper_shadow in
    let upper_shadow_ok := Qleb max_upper_shadow (max_upper_shadow_cfg cfg) in
    let bear_contrast := bear_contrast day1_change day2_change in
    let pattern_match :=
      is_day1_bear && is_day1_small && is_day2_bear && is_day2_big
      && is_day3_gap_down && is_day3_bull && is_day3_strong
      && upper_shadow_ok in
    if pattern_match then
      day2_gap_down <- day2_gap_down ;;
      let score :=
        reversal_score day2_change gap_down day1_not_engulfed day2_gap_down
                       day3_change bear_contrast max_upper_shadow in
      Ok (Some {|
        day1_change := py_round_n day1_change 2;
        day2_change := py_round_n day2_change 2;
        day3_change := py_round_n day3_change 2;
        gap_down := py_round_n gap_down 2;
        day2_gap := py_round_n day2_gap_down 2;
        contrast := py_round_n bear_contrast 1;
        shadow := py_round_n max_upper_shadow 1;
        engulfed := negb day1_not_engulfed;
        prior_decline := py_round_n prior_decline 2;
        day1_date := date day1;
        day2_date := date day2;
        day3_date := date day3;
        score := py_round score
      |})
    else Ok None
  end.

Definition check_reversal_pattern (df : option DataFrame)
  : outcome (option detail) :=
  check_reversal_pattern_cfg reversal_config df.

(** Scenario A: a 5% decline over 22 bars, then -1%, -4%, +2%. *)
Definition scenario_a : DataFrame :=
  mkBar "p0" 100 100 100 100 1
  :: flat 20 100 1
  ++ [ mkBar "p21" 95 95 95 95 1
     ; mkBar "d1" 100 100 99 99 1
     ; mkBar "d2" 100 100 96 96 1
     ; mkBar "d3" 95 (969 # 10) 95 (969 # 10) 1 ].

(** A frame that ends in the three-bar pattern with the body changes
    [c1], [c2], [c3] (in percent) after a 10% decline over 22 bars. *)
Definition pattern_frame (c1 c2 c3 : Q) : DataFrame :=
  mkBar "p0" 1100 1100 1100 1100 1
  :: flat 21 990 1
  ++ [ mkBar "d1" 1000 1000 (1000 + 10 * c1) (1000 + 10 * c1) 1
     ; mkBar "d2" 1000 1000 (1000 + 10 * c2) (1000 + 10 * c2) 1
     ; mkBar "d3" 900 (900 + 9 * c3) 900 (900 + 9 * c3) 1 ].

(** A 10% decline over 22 bars, then a first pattern day that closes at
    zero: the divisor of [day2_gap_down] is zero. *)
Definition zero_close_frame : DataFrame :=
  mkBar "p0" 100 100 100 100 1
  :: flat 20 100 1
  ++ [ mkBar "p21" 90 90 90 90 1
     ; mkBar "d1" 100 100 0 0 1
     ; mkBar "d2" 100 100 96 96 1
     ; mkBar "d3" 95 97 95 97 1 ].

End Reversal.

(** ** Strategy 2: volume breakout ([check_volume_breakout_pattern]) *)

Module VolumeBreakout.

Record config : Type := mkConfig {
  prior_lookback_days : Z;
  prior_decline_min_pct : Q;
  consol_min_days : Z;
  consol_max_range_pct : Q;
  limit_up_main_board : Q;
  limit_up_chinext : Q;
  limit_up_body_ratio_min : Q;
  post_consol_min_days : Z;
  post_consol_max_lookback : Z
}.

(** [self.volume_breakout_config] *)
Definition volume_breakout_config : config := {|
  prior_lookback_days := 60;
  prior_decline_min_pct := 15;
  consol_min_days := 22;
  consol_max_range_pct := 15;
  limit_up_main_board := 95 # 10;
  limit_up_chinext := 195 # 10;
  limit_up_body_ratio_min := 6 # 10;
  post_consol_min_days := 5;
  post_consol_max_lookback := 20
|}.

(** The [detail] dictionary.  [score] is the key added last, by
    [detail['score'] = self._vb_calculate_score(detail)]; it is [0] in the
    record handed to [_vb_calculate_score], which does not read it. *)
Record detail : Type := mkDetail {
  prior_decline_pct : Q;
  consol_days : Z;
  consol_range_pct : Q;
  consol_mean_price : Q;
  limit_up_date : string;
  limit_up_change : Q;
  limit_up_body_ratio : Q;
  limit_up_vol_ratio : Q;
  post_consol_days : Z;
  post_range_pct : Q;
  break_date : string;
  break_change : number;
  break_vol_ratio : Q;
  break_body_ratio : Q;
  break_close : Q;
  score : Z
}.

Definition set_score (d : detail) (s : Z) : detail :=
  {| prior_decline_pct := prior_decline_pct d;
     consol_days := consol_days d;
     consol_range_pct := consol_range_pct d;
     consol_mean_price := consol_mean_price d;
     limit_up_date := limit_up_date d;
     limit_up_change := limit_up_change d;
     limit_up_body_ratio := limit_up_body_ratio d;
     limit_up_vol_ratio := limit_up_vol_ratio d;
     post_consol_days := post_consol_days d;
     post_range_pct := post_range_pct d;
     break_date := break_date d;
     break_change := break_change d;
     break_vol_ratio := break_vol_ratio d;
     break_body_ratio := break_body_ratio d;
     break_close := break_close d;
     score := s |}.

Definition _vb_is_limit_up (cfg : config) (row : bar) (prev_close : Q)
    (code : string) : bool :=
  if Qeqb prev_close 0 then false else
  let change_pct := (close row - prev_close) / prev_close * 100 in
  let threshold :=
    if prefix "3" code then limit_up_chinext cfg
    else limit_up_main_board cfg in
  if Qltb change_pct threshold then false else
  let total_range := high row - low row in
  if Qeqb total_range 0 then false else
  let body := Qabs (close row - open row) in
  let body_ratio := body / total_range in
  if Qltb body_ratio (limit_up_body_ratio_min cfg) then false else
  if Qleb (close row) (open row) then false else
  true.

(** The tuple [(consol_start, consol_end, mean_price, range_pct, length)]. *)
Record consol : Type := mkConsol {
  c_start : Z;
  c_end : Z;
  c_mean : Q;
  c_range : Q;
  c_length : Z
}.

(** The body of the [for length in range(...)] loop of
    [_vb_find_consolidation], over the lengths still to visit; [best] is the
    loop variable of that name. *)
Fixpoint consol_loop (cfg : config) (df : DataFrame) (consol_end : Z)
    (lengths : list Z) (best : option consol) : outcome (option consol) :=
  match lengths with
  | [] => Ok best
  | length :: rest =>
    let consol_start := (consol_end - length + 1)%Z in
    if (consol_start <? 0)%Z then Ok best else
    let window := islice df consol_start (consol_end + 1) in
    let closes := closes window in
    mean_price <- mean closes ;;
    if Qeqb mean_price 0 then consol_loop cfg df consol_end rest best else
    hi <- smax closes ;;
    lo <- smin closes ;;
    q <- fdiv (hi - lo) mean_price ;;
    let range_pct := q * 100 in
    if Qleb range_pct (consol_max_range_pct cfg) then
      consol_loop cfg df consol_end rest
        (Some (mkConsol consol_start consol_end mean_price range_pct length))
    else
      match best with
      | Some _ => Ok best
      | None => consol_loop cfg df consol_end rest best
      end
  end.

Definition _vb_find_consolidation (cfg : config) (df : DataFrame)
    (limit_up_idx : Z) : outcome (option consol) :=
  let consol_min_days := consol_min_days cfg in
  let consol_end := (limit_up_idx - 1)%Z in
  if (consol_end <? consol_min_days)%Z then Ok None else
  consol_loop cfg df consol_end
    (zrange consol_min_days (zmin (consol_end + 1) 80)) None.

(** What one pass of the loop body of [_vb_find_consolidation] decides for
    the window of [length] bars that ends at [consol_end]: the window is
    passed over ([mean_price == 0]), it is within the amplitude bound (with
    the tuple assigned to [best]), or it exceeds the bound. *)
Inductive verdict : Type :=
| Skipped
| Within (c : consol)
| Exceeds.

Definition judge (cfg : config) (df : DataFrame) (consol_end length : Z)
  : outcome verdict :=
  let consol_start := (consol_end - length + 1)%Z in
  let window := islice df consol_start (consol_end + 1) in
  let closes := closes window in
  mean_price <- mean closes ;;
  if Qeqb mean_price 0 then Ok Skipped else
  hi <- smax closes ;;
  lo <- smin closes ;;
  q <- fdiv (hi - lo) mean_price ;;
  let range_pct := q * 100 in
  if Qleb range_pct (consol_max_range_pct cfg) then
    Ok (Within (mkConsol consol_start consol_end mean_price range_pct length))
  else Ok Exceeds.

(** The two ways the loop of [_vb_find_consolidation] can end, for the
    lengths [a .. upper - 1] and the initial value [best]: with [best]
    itself, or with the tuple of a length [l] found within the bound. *)
Definition kept_initial (cfg : config) (df : DataFrame) (e upper a : Z)
    (best : option consol) : Prop :=
  exists stop,
    (a <= stop <= upper)%Z
    /\ (forall x, (a <= x < stop)%Z ->
          judge cfg df e x = Ok Skipped
          \/ (best = None /\ judge cfg df e x = Ok Exceeds))
    /\ (stop = upper \/ (best <> None /\ judge cfg df e stop = Ok Exceeds)).

Definition kept_length (cfg : config) (df : DataFrame) (e upper a : Z)
    (best : option consol) (l : Z) (c : consol) : Prop :=
  (a <= l < upper)%Z
  /\ judge cfg df e l = Ok (Within c)
  /\ (forall x, (a <= x < l)%Z -> judge cfg df e x = Ok Exceeds ->
        best = None
        /\ forall y c', (a <= y < x)%Z -> judge cfg df e y <> Ok (Within c'))
  /\ exists stop,
       (l < stop <= upper)%Z
       /\ (forall x, (l < x < stop)%Z -> judge cfg df e x = Ok Skipped)
       /\ (stop = upper \/ judge cfg df e stop = Ok Exceeds).

(** The window search as the specification words it: growth stops at the
    first length whose amplitude exceeds the bound, whether or not a
    length has been kept before. *)
Fixpoint spec_consol_loop (cfg : config) (df : DataFrame) (consol_end : Z)
    (lengths : list Z) (best : option consol) : outcome (option consol) :=
  match lengths with
  | [] => Ok best
  | length :: rest =>
    let consol_start := (consol_end - length + 1)%Z in
    if (consol_start <? 0)%Z then Ok best else
    v <- judge cfg df consol_end length ;;
    match v with
    | Skipped => spec_consol_loop cfg df consol_end rest best
    | Within c => spec_consol_loop cfg df consol_end rest (Some c)
    | Exceeds => Ok best
    end
  end.

Definition spec_find_consolidation (cfg : config) (df : DataFrame)
    (limit_up_idx : Z) : outcome (option consol) :=
  let consol_min_days := consol_min_days cfg in
  let consol_end := (limit_up_idx - 1)%Z in
  if (consol_end <? consol_min_days)%Z then Ok None else
  spec_consol_loop cfg df consol_end
    (zrange consol_min_days (zmin (consol_end + 1) 80)) None.

Definition _vb_check_prior_decline (cfg : config) (df : DataFrame)
    (consol_start : Z) (consol_mean : Q) : outcome (option (Q * Q)) :=
  let lookback := prior_lookback_days cfg in
  let min_decline := prior_decline_min_pct cfg in
  let search_start := zmax 0 (consol_start - lookback) in
  if (consol_start <=? search_start)%Z then Ok None else
  let prior_slice := islice df search_start consol_start in
  if (len prior_slice =? 0)%Z then Ok None else
  prior_high <- smax (closes prior_slice) ;;
  if Qeqb consol_mean 0 then Ok None else
  q <- fdiv (prior_high - consol_mean) consol_mean ;;
  let decline_pct := q * 100 in
  if Qltb decline_pct min_decline then Ok None else
  Ok (Some (decline_pct, prior_high)).

Definition _linear_map (value low high score_low score_high : Q) : Q :=
  if Qeqb high low then
    (if Qleb high value then score_high else score_low)
  else
    let ratio := (value - low) / (high - low) in
    let ratio := pmax 0 (pmin 1 ratio) in
    score_low + ratio * (score_high - score_low).

Definition _vb_calculate_score (detail : detail) : Z :=
  let score := 0 in
  let score := score + _linear_map (prior_decline_pct detail) 15 40 0 15 in
  let score :=
    score + _linear_map (inject_Z (consol_days detail)) 22 60 0 10 in
  let score :=
    score + _linear_map (limit_up_body_ratio detail) (6 # 10) 1 0 10 in
  let score := score + _linear_map (limit_up_vol_ratio detail) 1 4 0 10 in
  let score :=
    if Qleb (post_range_pct detail) 5 then score + 15
    else if Qleb (post_range_pct detail) 10
         then score + _linear_map (post_range_pct detail) 10 5 0 15
         else score in
  let score :=
    score + _linear_map (inject_Z (post_consol_days detail)) 5 15 0 10 in
  let score := score + _linear_map (break_vol_ratio detail) 1 3 0 15 in
  let score :=
    score + _linear_map (break_body_ratio detail) (3 # 10) (9 # 10) 0 15 in
  py_round (pmin 100 (pmax 0 score)).

(** One pass through the body of the [for scan_idx] loop for the bar at
    [candidate_idx]: [Ok None] is a [continue], [Ok (Some d)] reaches
    [found_pattern = True] with the scored [detail]. *)
Definition vb_candidate (cfg : config) (df : DataFrame) (code : string)
    (last prev : bar) (candidate_idx : Z) : outcome (option detail) :=
  let n := len df in
  candidate <- iloc df candidate_idx ;;
  prev_of_candidate <- iloc df (candidate_idx - 1) ;;
  if negb (_vb_is_limit_up cfg candidate (close prev_of_candidate) code)
  then Ok None else
  let post_start := (candidate_idx + 1)%Z in
  let post_end := (n - 2)%Z in
  let post_days := (post_end - post_start + 1)%Z in
  if (post_days <? post_consol_min_days cfg)%Z then Ok None else
  let post_slice := islice df post_start (post_end + 1) in
  let limit_up_open := open candidate in
  let limit_up_close := close candidate in
  if existsb (fun c => Qltb c limit_up_open) (closes post_slice)
  then Ok None else
  if Qleb (close last) limit_up_close then Ok None else
  consol_result <- _vb_find_consolidation cfg df candidate_idx ;;
  match consol_result with
  | None => Ok None
  | Some (mkConsol consol_start consol_end consol_mean
                   consol_range_pct consol_days) =>
    decline_result <- _vb_check_prior_decline cfg df consol_start consol_mean ;;
    match decline_result with
    | None => Ok None
    | Some (prior_decline_pct, prior_high) =>
      q <- fdiv (close candidate - close prev_of_candidate)
                (close prev_of_candidate) ;;
      let limit_up_change := q * 100 in
      let body := Qabs (close candidate - open candidate) in
      let total_range := high candidate - low candidate in
      let limit_up_body_ratio :=
        if Qltb 0 total_range then body / total_range else 0 in
      let post_closes := closes post_slice in
      post_mean <- mean post_closes ;;
      post_hi <- smax post_closes ;;
      post_lo <- smin post_closes ;;
      let post_range_pct :=
        if Qltb 0 post_mean then (post_hi - post_lo) / post_mean * 100
        else 999 in
      let vol_start := zmax 0 (candidate_idx - 5) in
      prior_avg_vol <- mean (volumes (islice df vol_start candidate_idx)) ;;
      let limit_up_vol_ratio :=
        if Qltb 0 prior_avg_vol then volume candidate / prior_avg_vol
        else 1 in
      let break_vol_ratio :=
        if Qltb 0 (volume prev) then volume last / volume prev else 1 in
      let break_total_range := high last - low last in
      let break_body := close last - open last in
      let break_body_ratio :=
        if Qltb 0 break_total_range then break_body / break_total_range
        else 0 in
      let break_change :=
        reported (q <- fdiv (close last - close prev) (close prev) ;;
                  Ok (py_round_n (q * 100) 2)) in
      let detail := {|
        prior_decline_pct := py_round_n prior_decline_pct 2;
        consol_days := consol_days;
        consol_range_pct := py_round_n consol_range_pct 2;
        consol_mean_price := py_round_n consol_mean 2;
        limit_up_date := date candidate;
        limit_up_change := py_round_n limit_up_change 2;
        limit_up_body_ratio := py_round_n limit_up_body_ratio 2;
        limit_up_vol_ratio := py_round_n limit_up_vol_ratio 2;
        post_consol_days := post_days;
        post_range_pct := py_round_n post_range_pct 2;
        break_date := date last;
        break_change := break_change;
        break_vol_ratio := py_round_n break_vol_ratio 2;
        break_body_ratio := py_round_n break_body_ratio 2;
        break_close := py_round_n (close last) 2;
        score := 0
      |} in
      Ok (Some (set_score detail (_vb_calculate_score detail)))
    end
  end.

(** [if best_detail is None or detail['score'] > best_detail['score']] *)
Definition keep_best (best_detail : option detail) (d : detail)
  : option detail :=
  match best_detail with
  | None => Some d
  | Some b => if (score b <? score d)%Z then Some d else Some b
  end.

(** The [for scan_idx in range(2, max_lookback + 1)] loop over the scan
    indices still to visit, with its two loop variables. *)
Fixpoint vb_scan (cfg : config) (df : DataFrame) (code : string)
    (last prev : bar) (scan : list Z)
    (found_pattern : bool) (best_detail : option detail)
  : outcome (bool * option detail) :=
  match scan with
  | [] => Ok (found_pattern, best_detail)
  | scan_idx :: rest =>
    let candidate_idx := (len df - 1 - scan_idx)%Z in
    if (candidate_idx <? 1)%Z then Ok (found_pattern, best_detail) else
    r <- vb_candidate cfg df code last prev candidate_idx ;;
    match r with
    | None => vb_scan cfg df code last prev rest found_pattern best_detail
    | Some d =>
      vb_scan cfg df code last prev rest true (keep_best best_detail d)
    end
  end.

(** One step of the loop on the outcome of a candidate: a [continue]
    leaves [best_detail] as it is. *)
Definition step_best (b : option detail) (od : option detail)
  : option detail :=
  match od with
  | Some d => keep_best b d
  | None => b
  end.

Definition check_volume_breakout_pattern_cfg (cfg : config)
    (df : option DataFrame) (code : string) : outcome (option detail) :=
  match df with
  | None => Ok None
  | Some df =>
    if (len df <? 50)%Z then Ok None else
    let n := len df in
    last <- iloc df (-1) ;;
    prev <- iloc df (-2) ;;
    if Qleb (close last) (open last) then Ok None else
    if Qeqb (volume prev) 0 || Qleb (volume last) (volume prev)
    then Ok None else
    let max_lookback := zmin (post_consol_max_lookback cfg) (n - 30) in
    r <- vb_scan cfg df code last prev (zrange 2 (max_lookback + 1))
                 false None ;;
    match r with
    | (true, Some best_detail) => Ok (Some best_detail)
    | _ => Ok None
    end
  end.

Definition check_volume_breakout_pattern (df : option DataFrame)
    (code : string) : outcome (option detail) :=
  check_volume_breakout_pattern_cfg volume_breakout_config df code.

(** Scenario B: ten bars at 125, forty-two at 100, a limit-up bar to 110,
    six pull-back bars at 108 and a break-out bar to 112 on doubled
    volume. *)
Definition scenario_b : DataFrame :=
  flat 10 125 1 ++ flat 42 100 1
  ++ [mkBar "lu" 101 110 100 110 3]
  ++ flat 6 108 1
  ++ [mkBar "bo" 108 112 108 112 2].

(** The zero-volume guard at work: scenario B with a silent bar before the
    break-out bar. *)
Definition scenario_b_silent : DataFrame :=
  flat 10 125 1 ++ flat 42 100 1
  ++ [mkBar "lu" 101 110 100 110 3]
  ++ flat 5 108 1
  ++ [mkBar "q" 108 108 108 108 0; mkBar "bo" 108 112 108 112 2].

(** A frame whose 22-bar window in front of the limit-up bar (index 52) is
    too wide, 15.0007%, while every longer window is within the bound. *)
Definition late_fit : DataFrame :=
  flat 51 (11751 # 100) 1
  ++ [mkBar "dip" 100 100 100 100 1; mkBar "lu" 101 110 100 110 3]
  ++ flat 6 118 1
  ++ [mkBar "bo" 118 120 118 120 2].

(** Two valid candidates: a limit-up bar to 110 at scan position 13 and a
    second one to 119, with long shadows and a volume of [v], at scan
    position 6. *)
Definition two_candidates_with (v : Q) : DataFrame :=
  flat 10 125 1 ++ flat 42 100 1
  ++ [mkBar "lu1" 101 110 100 110 3]
  ++ flat 6 108 1
  ++ [mkBar "lu2" 109 122 (213 # 2) 119 v]
  ++ flat 5 118 1
  ++ [mkBar "bo" 118 121 118 121 2].

(** On thin volume the nearer candidate scores 51, the farther one 56. *)
Definition two_candidates : DataFrame := two_candidates_with 1.

(** On a volume of 2.5 both candidates score 56. *)
Definition tied_candidates : DataFrame := two_candidates_with (25 # 10).

(** Scenario B with a limit-up bar that opens at zero and a bar before the
    break-out that closes at zero: the divisor of [break_change] is
    zero. *)
Definition zero_close_frame : DataFrame :=
  flat 10 125 1 ++ flat 42 100 1
  ++ [mkBar "lu" 0 110 0 110 3]
  ++ flat 5 108 1
  ++ [mkBar "q" 108 108 0 0 1; mkBar "bo" 108 112 108 112 2].

End VolumeBreakout.

(** ** Strategy 3: shrink breakout ([check_shrink_breakout_pattern]) *)

Module ShrinkBreakout.

Record config : Type := mkConfig {
  min_decline_pct : Q;
  consolidation1_min_days : Z;
  consolidation1_max_amplitude : Q;
  limit_up_main_pct : Q;
  limit_up_chinext_pct : Q;
  consolidation2_min_days : Z;
  consolidation2_max_amplitude : Q;
  consolidation2_support_tolerance : Q;
  vol_ma_short_cfg : Z;
  vol_ma_long_cfg : Z
}.

(** [self.shrink_breakout_config] *)
Definition shrink_breakout_config : config := {|
  min_decline_pct := 15;
  consolidation1_min_days := 22;
  consolidation1_max_amplitude := 15;
  limit_up_main_pct := 98 # 10;
  limit_up_chinext_pct := 198 # 10;
  consolidation2_min_days := 5;
  consolidation2_max_amplitude := 10;
  consolidation2_support_tolerance := 0;
  vol_ma_short_cfg := 5;
  vol_ma_long_cfg := 10
|}.

(** The three values of [limit_up_type]. *)
Inductive limit_up_kind : Type :=
| OneWordBoard
| TShapeBoard
| OrdinaryLimitUp.

Record signal_detail : Type := mkSignal {
  sg_signal_change : number;
  sg_vol_ma_short : Q;
  sg_vol_ma_long : Q;
  sg_vol_ratio : Q;
  sg_signal_date : string
}.

Record post_detail : Type := mkPost {
  pd_post_days : Z;
  pd_post_amplitude : Q;
  pd_post_max_close : Q;
  pd_post_min_close : Q
}.

Record pre_detail : Type := mkPre {
  pr_consolidation1_start : Z;
  pr_consolidation1_days : Z;
  pr_consolidation1_amplitude : Q
}.

(** The merged dictionary; [score] is added last and is [0] in the record
    handed to [_sb_calculate_score], which does not read it. *)
Record detail : Type := mkDetail {
  signal_change : number;
  vol_ma_short : Q;
  vol_ma_long : Q;
  vol_ratio : Q;
  signal_date : string;
  post_days : Z;
  post_amplitude : Q;
  post_max_close : Q;
  post_min_close : Q;
  consolidation1_start : Z;
  consolidation1_days : Z;
  consolidation1_amplitude : Q;
  decline_pct : Q;
  limit_up_date : string;
  limit_up_change : Q;
  limit_up_type : limit_up_kind;
  score : Z
}.

Definition set_score (d : detail) (s : Z) : detail :=
  {| signal_change := signal_change d;
     vol_ma_short := vol_ma_short d;
     vol_ma_long := vol_ma_long d;
     vol_ratio := vol_ratio d;
     signal_date := signal_date d;
     post_days := post_days d;
     post_amplitude := post_amplitude d;
     post_max_close := post_max_close d;
     post_min_close := post_min_close d;
     consolidation1_start := consolidation1_start d;
     consolidation1_days := consolidation1_days d;
     consolidation1_amplitude := consolidation1_amplitude d;
     decline_pct := decline_pct d;
     limit_up_date := limit_up_date d;
     limit_up_change := limit_up_change d;
     limit_up_type := limit_up_type d;
     score := s |}.

Definition _sb_is_limit_up (cfg : config) (close prev_close : Q)
    (code : string) : bool :=
  if Qeqb prev_close 0 then false else
  let change_pct := (close - prev_close) / prev_close * 100 in
  if prefix "300" code then Qleb (limit_up_chinext_pct cfg) change_pct
  else Qleb (limit_up_main_pct cfg) change_pct.

(** The [for i in range(n - 7, 0, -1)] loop of [_sb_find_limit_up_day]. *)
Fixpoint find_limit_up_loop (cfg : config) (df : DataFrame) (code : string)
    (idxs : list Z) : outcome (option Z) :=
  match idxs with
  | [] => Ok None
  | i :: rest =>
    row <- iloc df i ;;
    prev_row <- iloc df (i - 1) ;;
    if _sb_is_limit_up cfg (close row) (close prev_row) code
    then Ok (Some i)
    else find_limit_up_loop cfg df code rest
  end.

Definition _sb_find_limit_up_day (cfg : config) (df : DataFrame)
    (code : string) : outcome (option Z) :=
  let n := len df in
  find_limit_up_loop cfg df code (zrange_down (n - 7) 0).

Definition _sb_check_post_consolidation (cfg : config) (df : DataFrame)
    (limit_up_idx : Z) : outcome (option post_detail) :=
  let n := len df in
  let signal_idx := (n - 1)%Z in
  let start := (limit_up_idx + 1)%Z in
  let end_ := signal_idx in
  if (end_ - start <? consolidation2_min_days cfg)%Z then Ok None else
  let post_df := islice df start end_ in
  lu <- iloc df limit_up_idx ;;
  let limit_up_close := close lu in
  let tolerance :=
    limit_up_close * consolidation2_support_tolerance cfg / 100 in
  if existsb (fun c => Qltb c (limit_up_close - tolerance)) (closes post_df)
  then Ok None else
  max_close <- smax (closes post_df) ;;
  min_close <- smin (closes post_df) ;;
  avg_close <- mean (closes post_df) ;;
  if Qeqb avg_close 0 then Ok None else
  q <- fdiv (max_close - min_close) avg_close ;;
  let amplitude := q * 100 in
  if Qltb (consolidation2_max_amplitude cfg) amplitude then Ok None else
  sg <- iloc df signal_idx ;;
  let signal_close := close sg in
  if Qleb signal_close max_close then Ok None else
  Ok (Some {|
    pd_post_days := (end_ - start)%Z;
    pd_post_amplitude := py_round_n amplitude 2;
    pd_post_max_close := max_close;
    pd_post_min_close := min_close
  |}).

(** The [for start in range(limit_up_idx - min_days, -1, -1)] loop of
    [_sb_check_pre_consolidation]; [best_start] is its loop variable. *)
Fixpoint pre_consol_loop (cfg : config) (df : DataFrame) (best_end : Z)
    (starts : list Z) (best_start : option Z) : outcome (option Z) :=
  match starts with
  | [] => Ok best_start
  | start :: rest =>
    let segment := islice df start best_end in
    seg_max <- smax (closes segment) ;;
    seg_min <- smin (closes segment) ;;
    seg_avg <- mean (closes segment) ;;
    if Qeqb seg_avg 0 then Ok best_start else
    q <- fdiv (seg_max - seg_min) seg_avg ;;
    let amp := q * 100 in
    if Qleb amp (consolidation1_max_amplitude cfg)
    then pre_consol_loop cfg df best_end rest (Some start)
    else Ok best_start
  end.

(** The [for i in range(best_start + 1, best_end)] loop: is some bar of the
    window a limit-up bar? *)
Fixpoint other_limit_up (cfg : config) (df : DataFrame) (code : string)
    (idxs : list Z) : outcome bool :=
  match idxs with
  | [] => Ok false
  | i :: rest =>
    row <- iloc df i ;;
    prev_row <- iloc df (i - 1) ;;
    if _sb_is_limit_up cfg (close row) (close prev_row) code
    then Ok true
    else other_limit_up cfg df code rest
  end.

Definition _sb_check_pre_consolidation (cfg : config) (df : DataFrame)
    (limit_up_idx : Z) (code : string) : outcome (option pre_detail) :=
  let min_days := consolidation1_min_days cfg in
  if (limit_up_idx <? min_days)%Z then Ok None else
  let best_end := limit_up_idx in
  r <- pre_consol_loop cfg df best_end
         (zrange_down (limit_up_idx - min_days) (-1)) None ;;
  match r with
  | None => Ok None
  | Some best_start =>
    let consolidation_days := (best_end - best_start)%Z in
    if (consolidation_days <? min_days)%Z then Ok None else
    hit <- other_limit_up cfg df code (zrange (best_start + 1) best_end) ;;
    if hit then Ok None else
    let w := closes (islice df best_start best_end) in
    hi <- smax w ;;
    lo <- smin w ;;
    avg <- mean w ;;
    q <- fdiv (hi - lo) avg ;;
    Ok (Some {|
      pr_consolidation1_start := best_start;
      pr_consolidation1_days := consolidation_days;
      pr_consolidation1_amplitude := py_round_n (q * 100) 2
    |})
  end.

Definition _sb_check_prior_decline (cfg : config) (df : DataFrame)
    (consolidation_start : Z) : outcome (option Q) :=
  let lookback := zmin consolidation_start 60 in
  if (lookback <? 5)%Z then Ok None else
  let search_start := (consolidation_start - lookback)%Z in
  let search_df := islice df search_start consolidation_start in
  max_close <- smax (closes search_df) ;;
  row <- iloc df consolidation_start ;;
  let end_close := close row in
  if Qeqb max_close 0 then Ok None else
  q <- fdiv (max_close - end_close) max_close ;;
  let decline_pct := q * 100 in
  if Qltb decline_pct (min_decline_pct cfg) then Ok None else
  Ok (Some (py_round_n decline_pct 2)).

Definition _sb_check_signal (cfg : config) (df : DataFrame)
  : outcome (option signal_detail) :=
  let n := len df in
  let signal_idx := (n - 1)%Z in
  row <- iloc df signal_idx ;;
  if Qleb (close row) (open row) then Ok None else
  let ma_short_period := vol_ma_short_cfg cfg in
  let ma_long_period := vol_ma_long_cfg cfg in
  if (n <? ma_long_period)%Z then Ok None else
  vol_ma_short <- mean (islice (volumes df) (n - ma_short_period) n) ;;
  vol_ma_long <- mean (islice (volumes df) (n - ma_long_period) n) ;;
  if Qeqb vol_ma_long 0 then Ok None else
  if Qleb vol_ma_long vol_ma_short then Ok None else
  let signal_change :=
    q <- fdiv (close row - open row) (open row) ;; Ok (q * 100) in
  vol_ratio <- fdiv vol_ma_short vol_ma_long ;;
  Ok (Some {|
    sg_signal_change :=
      reported (c <- signal_change ;; Ok (py_round_n c 2));
    sg_vol_ma_short := py_round_n vol_ma_short 0;
    sg_vol_ma_long := py_round_n vol_ma_long 0;
    sg_vol_ratio := py_round_n vol_ratio 4;
    sg_signal_date := date row
  |}).

(** All increments are integers, so the running [score] is an integer and
    the final [round(score)] leaves it unchanged. *)
Definition _sb_calculate_score (details : detail) : Z :=
  let score := 40%Z in
  let extra_days := (consolidation1_days details - 22)%Z in
  let score :=
    if (0 <? extra_days)%Z
    then (score + zmin (py_int (inject_Z extra_days / 10) * 3) 10)%Z
    else score in
  let extra_decline := decline_pct details - 15 in
  let score :=
    if Qltb 0 extra_decline
    then (score + zmin (py_int (extra_decline / 5) * 3) 10)%Z
    else score in
  let score :=
    match limit_up_type details with
    | OneWordBoard | TShapeBoard => (score + 8)%Z
    | OrdinaryLimitUp => (score + 5)%Z
    end in
  let amp := post_amplitude details in
  let score :=
    if Qltb amp 5 then (score + 8)%Z
    else if Qltb amp 8 then (score + 5)%Z
    else if Qltb amp 10 then (score + 3)%Z
    else score in
  let vol_ratio := vol_ratio details in
  let score :=
    if Qltb vol_ratio (5 # 10) then (score + 10)%Z
    else if Qltb vol_ratio (6 # 10) then (score + 8)%Z
    else if Qltb vol_ratio (7 # 10) then (score + 6)%Z
    else if Qltb vol_ratio (8 # 10) then (score + 4)%Z
    else if Qltb vol_ratio (9 # 10) then (score + 2)%Z
    else score in
  let change := signal_change details in
  let score :=
    match change with
    | Finite change =>
      if Qleb 2 change && Qleb change 5 then (score + 8)%Z
      else if Qltb 5 change && Qleb change 8 then (score + 5)%Z
      else score
    | NonFinite => score
    end in
  let score := (score + 6)%Z in
  zmin 100 (zmax 0 score).

Definition classify_limit_up (row : bar) : limit_up_kind :=
  if Qeqb (open row) (close row) && Qeqb (close row) (high row)
  then OneWordBoard
  else if Qeqb (open row) (low row) && Qeqb (close row) (high row)
  then TShapeBoard
  else OrdinaryLimitUp.

Definition check_shrink_breakout_pattern_cfg (cfg : config)
    (df : option DataFrame) (code : string) : outcome (option detail) :=
  match df with
  | None => Ok None
  | Some df =>
    if (len df <? 60)%Z then Ok None else
    signal <- _sb_check_signal cfg df ;;
    match signal with
    | None => Ok None
    | Some signal_detail =>
    lu <- _sb_find_limit_up_day cfg df code ;;
    match lu with
    | None => Ok None
    | Some limit_up_idx =>
    post <- _sb_check_post_consolidation cfg df limit_up_idx ;;
    match post with
    | None => Ok None
    | Some post_detail =>
    pre <- _sb_check_pre_consolidation cfg df limit_up_idx code ;;
    match pre with
    | None => Ok None
    | Some pre_detail =>
    decline <- _sb_check_prior_decline cfg df
                 (pr_consolidation1_start pre_detail) ;;
    match decline with
    | None => Ok None
    | Some decline_pct =>
      limit_up_row <- iloc df limit_up_idx ;;
      prev_row <- iloc df (limit_up_idx - 1) ;;
      let prev_close := close prev_row in
      q <- fdiv (close limit_up_row - prev_close) prev_close ;;
      let limit_up_change := q * 100 in
      let limit_up_type := classify_limit_up limit_up_row in
      let detail := {|
        signal_change := sg_signal_change signal_detail;
        vol_ma_short := sg_vol_ma_short signal_detail;
        vol_ma_long := sg_vol_ma_long signal_detail;
        vol_ratio := sg_vol_ratio signal_detail;
        signal_date := sg_signal_date signal_detail;
        post_days := pd_post_days post_detail;
        post_amplitude := pd_post_amplitude post_detail;
        post_max_close := pd_post_max_close post_detail;
        post_min_close := pd_post_min_close post_detail;
        consolidation1_start := pr_consolidation1_start pre_detail;
        consolidation1_days := pr_consolidation1_days pre_detail;
        consolidation1_amplitude := pr_consolidation1_amplitude pre_detail;
        decline_pct := decline_pct;
        limit_up_date := date limit_up_row;
        limit_up_change := py_round_n limit_up_change 2;
        limit_up_type := limit_up_type;
        score := 0
      |} in
      Ok (Some (set_score detail (_sb_calculate_score detail)))
    end end end end end
  end.

Definition check_shrink_breakout_pattern (df : option DataFrame)
    (code : string) : outcome (option detail) :=
  check_shrink_breakout_pattern_cfg shrink_breakout_config df code.


(** Scenario C: ten bars at 125, forty-two at 100, a limit-up bar to 110,
    six bars at 111 and a bullish last bar to 113; the last five bars trade
    [v5] each, the five before them [v10]. *)
Definition scenario_c_with (v10 v5 : Q) : DataFrame :=
  flat 10 125 1 ++ flat 40 100 1
  ++ flat 2 100 v10
  ++ [mkBar "lu" 100 110 100 110 v10]
  ++ flat 2 111 v10 ++ flat 4 111 v5
  ++ [mkBar "sig" 111 113 111 113 v5].

Definition scenario_c : DataFrame := scenario_c_with 3 1.


(** Scenario C with a last bar that opens at zero: the divisor of
    [signal_change] is zero. *)
Definition zero_open_frame : DataFrame :=
  flat 10 125 1 ++ flat 40 100 1
  ++ flat 2 100 3
  ++ [mkBar "lu" 100 110 100 110 3]
  ++ flat 2 111 3 ++ flat 4 111 1
  ++ [mkBar "sig" 0 113 0 113 1].

End ShrinkBreakout.

(** ** Cross-validation: the hit map and the resonance table
    ([_print_report], [_format_markdown]) *)

Module Aggregator.

Inductive strategy : Type :=
| SReversal
| SVolumeBreakout
| SShrinkBreakout.

Definition strategy_eqb (a b : strategy) : bool :=
  match a, b with
  | SReversal, SReversal => true
  | SVolumeBreakout, SVolumeBreakout => true
  | SShrinkBreakout, SShrinkBreakout => true
  | _, _ => false
  end.

(** What the report reads of one result row: [r['code']], [r['name']] and
    [r.get('score', 0)]. *)
Record hit : Type := mkHit {
  code : string;
  name : string;
  score : Z
}.

(** A value of [hit_map]. *)
Record entry : Type := mkEntry {
  e_name : string;
  strategies : list strategy;
  scores : list (strategy * Z)
}.

(** [hit_map] is a dictionary: its items in insertion order, one per key. *)
Definition hit_map_t : Type := list (string * entry).

Fixpoint mem_key (k : string) (m : hit_map_t) : bool :=
  match m with
  | [] => false
  | (k', _) :: t => if String.eqb k k' then true else mem_key k t
  end.

Fixpoint update (k : string) (f : entry -> entry) (m : hit_map_t)
  : hit_map_t :=
  match m with
  | [] => []
  | (k', e) :: t =>
    if String.eqb k k' then (k', f e) :: t else (k', e) :: update k f t
  end.

(** [scores[s] = v] *)
Fixpoint set_score (s : strategy) (v : Z) (d : list (strategy * Z))
  : list (strategy * Z) :=
  match d with
  | [] => [(s, v)]
  | (s', v') :: t =>
    if strategy_eqb s s' then (s', v) :: t else (s', v') :: set_score s v t
  end.

(** One iteration of a [for r in ..._results] loop. *)
Definition record_hit (s : strategy) (hit_map : hit_map_t) (r : hit)
  : hit_map_t :=
  let hit_map :=
    if mem_key (code r) hit_map then hit_map
    else hit_map ++ [(code r, mkEntry (name r) [] [])] in
  update (code r)
    (fun e => mkEntry (e_name e) (strategies e ++ [s])
                      (set_score s (score r) (scores e)))
    hit_map.

Definition build_hit_map (reversal_results volume_results shrink_results
    : list hit) : hit_map_t :=
  let hit_map := fold_left (record_hit SReversal) reversal_results [] in
  let hit_map := fold_left (record_hit SVolumeBreakout) volume_results hit_map in
  fold_left (record_hit SShrinkBreakout) shrink_results hit_map.

Definition hit_count (kv : string * entry) : Z := len (strategies (snd kv)).

Definition multi_hit (hit_map : hit_map_t) : hit_map_t :=
  filter (fun kv => (2 <=? hit_count kv)%Z) hit_map.

(** [sorted(items, key=..., reverse=True)].  Python's sort is stable, also
    with [reverse=True]: items with equal keys keep their order.  A stable
    sort has one possible result, computed here by insertion. *)
Fixpoint insert_desc {A : Type} (key : A -> Z) (x : A) (l : list A)
  : list A :=
  match l with
  | [] => [x]
  | y :: t =>
    if (key x <? key y)%Z then y :: insert_desc key x t else x :: y :: t
  end.

Definition sorted_desc {A : Type} (key : A -> Z) (l : list A) : list A :=
  fold_right (insert_desc key) [] l.

(** [a] may stand before [b] in a list sorted by descending [key]. *)
Definition desc {A : Type} (key : A -> Z) (a b : A) : Prop :=
  (key b <= key a)%Z.

(** The rows of the resonance table, in printing order. *)
Definition resonance (reversal_results volume_results shrink_results
    : list hit) : hit_map_t :=
  sorted_desc hit_count
    (multi_hit (build_hit_map reversal_results volume_results shrink_results)).

(** The highest score an entry holds. *)
Definition max_score (kv : string * entry) : Z :=
  fold_right (fun sv acc => Z.max (snd sv) acc) 0%Z (scores (snd kv)).

(** The order the specification words for the table: hit count descending
    and, among equal hit counts, highest score descending. *)
Definition spec_before (a b : string * entry) : Prop :=
  (hit_count b < hit_count a)%Z
  \/ (hit_count a = hit_count b /\ (max_score b <= max_score a)%Z).

(** Does a result list name the symbol [c]? *)
Definition has_code (c : string) (results : list hit) : bool :=
  existsb (fun r => String.eqb c (code r)) results.

(** The detectors that hit [c], in evaluation order. *)
Definition hitting (reversal_results volume_results shrink_results : list hit)
    (c : string) : list strategy :=
  (if has_code c reversal_results then [SReversal] else [])
  ++ (if has_code c volume_results then [SVolumeBreakout] else [])
  ++ (if has_code c shrink_results then [SShrinkBreakout] else []).

(** [hit_map.get(k)] *)
Fixpoint find_entry (k : string) (m : hit_map_t) : option entry :=
  match m with
  | [] => None
  | (k', e) :: t => if String.eqb k k' then Some e else find_entry k t
  end.

(** [hit_map.get(k, {}).get('strategies', [])] *)
Definition strat_of (k : string) (m : hit_map_t) : list strategy :=
  match find_entry k m with
  | Some e => strategies e
  | None => []
  end.

(** The distinct symbols of a list, in order of first appearance. *)
Definition first_seen (codes : list string) : list string :=
  fold_left
    (fun acc c => if existsb (String.eqb c) acc then acc else acc ++ [c])
    codes [].

Definition ex_reversal : list hit := [mkHit "000001" "A" 50].
Definition ex_volume : list hit :=
  [mkHit "000002" "B" 90; mkHit "000001" "A" 50].
Definition ex_shrink : list hit := [mkHit "000002" "B" 90].

End Aggregator.

(** ** The terms of the scores *)

Module ScoreTerms.
Import VolumeBreakout.

(** The eight amounts [_vb_calculate_score] adds to [score], in the order
    of the source (the two halves of dimension 3 apart). *)
Definition vb_dimensions (detail : detail) : list Q :=
  [ _linear_map (prior_decline_pct detail) 15 40 0 15
  ; _linear_map (inject_Z (consol_days detail)) 22 60 0 10
  ; _linear_map (limit_up_body_ratio detail) (6 # 10) 1 0 10
  ; _linear_map (limit_up_vol_ratio detail) 1 4 0 10
  ; (if Qleb (post_range_pct detail) 5 then 15
     else if Qleb (post_range_pct detail) 10
          then _linear_map (post_range_pct detail) 10 5 0 15
          else 0)
  ; _linear_map (inject_Z (post_consol_days detail)) 5 15 0 10
  ; _linear_map (break_vol_ratio detail) 1 3 0 15
  ; _linear_map (break_body_ratio detail) (3 # 10) (9 # 10) 0 15 ].

(** The full marks of the eight amounts, as the comments of the source
    give them: 15, 10, 20 (in two halves), 15, 10, 15, 15. *)
Definition vb_full_marks : list Q := [15; 10; 10; 10; 15; 10; 15; 15].

End ScoreTerms.

(** ** The tests inside the Shrink-Breakout loops *)

Module ShrinkTerms.
Import ShrinkBreakout.

(** The test of the loops of [_sb_find_limit_up_day] and
    [_sb_check_pre_consolidation] at position [i]: is the bar a limit-up
    bar against the close before it? *)
Definition limit_up_at (cfg : config) (df : DataFrame) (code : string)
    (i : Z) : outcome bool :=
  row <- iloc df i ;;
  prev_row <- iloc df (i - 1) ;;
  Ok (_sb_is_limit_up cfg (close row) (close prev_row) code).

(** The amplitude [(max - min) / mean * 100] of a window of closes, as
    the consolidation checks compute it. *)
Definition amplitude (w : list Q) : outcome Q :=
  hi <- smax w ;;
  lo <- smin w ;;
  avg <- mean w ;;
  q <- fdiv (hi - lo) avg ;;
  Ok (q * 100).

(** The test of one pass of the loop of [_sb_check_pre_consolidation]:
    the window has a non-zero mean and an amplitude of at most
    [max_amp]. *)
Definition within_amplitude (max_amp : Q) (w : list Q) : outcome bool :=
  seg_max <- smax w ;;
  seg_min <- smin w ;;
  seg_avg <- mean w ;;
  if Qeqb seg_avg 0 then Ok false else
  q <- fdiv (seg_max - seg_min) seg_avg ;;
  Ok (Qleb (q * 100) max_amp).

End ShrinkTerms.

(** ** Reading scores back from the hit map *)

Module HitMapReads.
Import Aggregator.

(** [scores[s]]; [None] stands for KeyError. *)
Fixpoint lookup_score (s : strategy) (d : list (strategy * Z)) : option Z :=
  match d with
  | [] => None
  | (s', v) :: t => if strategy_eqb s s' then Some v else lookup_score s t
  end.

(** [hit_map[c]['scores'][s]], as the resonance table prints it. *)
Definition score_of (c : string) (s : strategy) (m : hit_map_t) : option Z :=
  match find_entry c m with
  | Some e => lookup_score s (scores e)
  | None => None
  end.

End HitMapReads.

(** ** The Top-5 recommendation of [_print_report] *)

Module Recommend.
Import Aggregator.

(** An element of [all_stocks]. *)
Record candidate : Type := mkCandidate {
  c_code : string;
  c_name : string;
  c_strategy : strategy;
  c_score : Z;
  c_multi_hit : bool;
  c_hit_count : Z
}.

(** The dictionary appended for a row [r] of the list of strategy [s]. *)
Definition candidate_of (hit_map : hit_map_t) (s : strategy) (r : hit)
  : candidate :=
  {| c_code := code r;
     c_name := name r;
     c_strategy := s;
     c_score := score r;
     c_multi_hit := mem_key (code r) (multi_hit hit_map);
     c_hit_count := len (strat_of (code r) hit_map) |}.

Definition all_stocks (reversal_results volume_results shrink_results
    : list hit) : list candidate :=
  let hit_map :=
    build_hit_map reversal_results volume_results shrink_results in
  map (candidate_of hit_map SReversal) reversal_results
  ++ map (candidate_of hit_map SVolumeBreakout) volume_results
  ++ map (candidate_of hit_map SShrinkBreakout) shrink_results.

(** [seen] is a dictionary from code to candidate, in insertion order. *)
Definition seen_t : Type := list (string * candidate).

Fixpoint seen_get (k : string) (m : seen_t) : option candidate :=
  match m with
  | [] => None
  | (k', v) :: t => if String.eqb k k' then Some v else seen_get k t
  end.

(** [seen[k] = v]: a present key keeps its place, a new key goes last. *)
Fixpoint seen_set (k : string) (v : candidate) (m : seen_t) : seen_t :=
  match m with
  | [] => [(k, v)]
  | (k', v') :: t =>
    if String.eqb k k' then (k', v) :: t else (k', v') :: seen_set k v t
  end.

(** [if code not in seen or s['score'] > seen[code]['score']:
       seen[code] = s] *)
Definition see (seen : seen_t) (s : candidate) : seen_t :=
  match seen_get (c_code s) seen with
  | None => seen_set (c_code s) s seen
  | Some old =>
    if (c_score old <? c_score s)%Z then seen_set (c_code s) s seen
    else seen
  end.

Definition dedupe (l : list candidate) : seen_t := fold_left see l [].

(** The sort key [(x['hit_count'], x['score'])] and Python's [<] on
    pairs. *)
Definition rank_key (x : candidate) : Z * Z := (c_hit_count x, c_score x).

Definition pair_ltb (a b : Z * Z) : bool :=
  (fst a <? fst b)%Z || ((fst a =? fst b)%Z && (snd a <? snd b)%Z).

(** [sorted(..., key=..., reverse=True)] on pair keys; stable, as
    [sorted_desc]. *)
Fixpoint insert_desc2 {A : Type} (key : A -> Z * Z) (x : A) (l : list A)
  : list A :=
  match l with
  | [] => [x]
  | y :: t =>
    if pair_ltb (key x) (key y) then y :: insert_desc2 key x t
    else x :: y :: t
  end.

Definition sorted_desc2 {A : Type} (key : A -> Z * Z) (l : list A) : list A :=
  fold_right (insert_desc2 key) [] l.

Definition ranked (reversal_results volume_results shrink_results : list hit)
  : list candidate :=
  sorted_desc2 rank_key
    (map snd
       (dedupe (all_stocks reversal_results volume_results shrink_results))).

(** [ranked[:5]] *)
Definition top5 (reversal_results volume_results shrink_results : list hit)
  : list candidate :=
  firstn 5 (ranked reversal_results volume_results shrink_results).

(** [b] does not stand above [a] in the ranking. *)
Definition rank_le (b a : candidate) : Prop :=
  (c_hit_count b < c_hit_count a)%Z
  \/ (c_hit_count b = c_hit_count a /\ (c_score b <= c_score a)%Z).

(** What [seen] holds after the candidates [l] have gone through the
    loop. *)
Definition seen_inv (m : seen_t) (l : list candidate) : Prop :=
  NoDup (map fst m)
  /\ forall k,
       match seen_get k m with
       | Some x =>
         c_code x = k /\ In x l
         /\ forall y, In y l -> c_code y = k -> (c_score y <= c_score x)%Z
       | None => forall y, In y l -> c_code y <> k
       end.

End Recommend.

(** ** Screening one stock and collecting the results
    ([screen_single_stock], [run]) *)

Module Orchestrator.

(** An element of the list [get_stock_list] returns. *)
Record stock : Type := mkStock {
  bs_code : string;
  code : string;
  name : string
}.

(** A result row [{'code': code, 'name': name, **detail}]. *)
Record row (D : Type) : Type := mkRow {
  r_code : string;
  r_name : string;
  r_detail : D
}.

Arguments mkRow {D} r_code r_name r_detail.
Arguments r_code {D} r.
Arguments r_name {D} r.
Arguments r_detail {D} r.

(** The dictionary [results] of [screen_single_stock]; a missing key is
    [None]. *)
Record results : Type := mkResults {
  reversal : option (row Reversal.detail);
  volume_breakout : option (row VolumeBreakout.detail);
  shrink_breakout : option (row ShrinkBreakout.detail)
}.

(** [try: match, detail = check(...); if match: ... except Exception:
    pass]: an exception of the detector is passed over.  The detectors of
    this file never fault (see the last part), so the third case is never
    taken. *)
Definition guarded {D : Type} (o : outcome (option D)) : option D :=
  match o with
  | Ok (Some d) => Some d
  | Ok None => None
  | Fault => None
  end.

(** [screen_single_stock]; [history] is what [get_stock_history] returned
    for the stock. *)
Definition screen_single_stock (history : option DataFrame)
    (code name : string) : option results :=
  match history with
  | None => None
  | Some df =>
    let results := {|
      reversal :=
        option_map (mkRow code name)
          (guarded (Reversal.check_reversal_pattern (Some df)));
      volume_breakout :=
        option_map (mkRow code name)
          (guarded (VolumeBreakout.check_volume_breakout_pattern
                      (Some df) code));
      shrink_breakout :=
        option_map (mkRow code name)
          (guarded (ShrinkBreakout.check_shrink_breakout_pattern
                      (Some df) code))
    |} in
    match results with
    | {| reversal := None; volume_breakout := None;
         shrink_breakout := None |} => None
    | _ => Some results
    end
  end.

(** The three result lists of [run]. *)
Record collected : Type := mkCollected {
  reversal_results : list (row Reversal.detail);
  volume_results : list (row VolumeBreakout.detail);
  shrink_results : list (row ShrinkBreakout.detail)
}.

Definition append_opt {A : Type} (l : list A) (o : option A) : list A :=
  match o with
  | Some x => l ++ [x]
  | None => l
  end.

(** One pass of the [for i, stock in enumerate(stocks)] loop; the history
    of each stock comes with it. *)
Definition collect_step (acc : collected) (input : stock * option DataFrame)
  : collected :=
  let (stock, history) := input in
  match screen_single_stock history (code stock) (name stock) with
  | None => acc
  | Some result => {|
      reversal_results :=
        append_opt (reversal_results acc) (reversal result);
      volume_results :=
        append_opt (volume_results acc) (volume_breakout result);
      shrink_results :=
        append_opt (shrink_results acc) (shrink_breakout result)
    |}
  end.

(** [r['name'] = name_map[r['code']]] when the code is a key of
    [name_map]. *)
Definition refresh {D : Type} (name_map : string -> option string)
    (r : row D) : row D :=
  match name_map (r_code r) with
  | Some n => mkRow (r_code r) n (r_detail r)
  | None => r
  end.

(** The lists handed to [_save_results]: collected, sorted by score
    (descending, stable) and given their latest names. *)
Definition run_results (inputs : list (stock * option DataFrame))
    (name_map : string -> option string) : collected :=
  let acc := fold_left collect_step inputs (mkCollected [] [] []) in
  {| reversal_results :=
       map (refresh name_map)
         (Aggregator.sorted_desc (fun r => Reversal.score (r_detail r))
            (reversal_results acc));
     volume_results :=
       map (refresh name_map)
         (Aggregator.sorted_desc (fun r => VolumeBreakout.score (r_detail r))
            (volume_results acc));
     shrink_results :=
       map (refresh name_map)
         (Aggregator.sorted_desc (fun r => ShrinkBreakout.score (r_detail r))
            (shrink_results acc)) |}.

(** What the report reads of a row. *)
Definition reversal_hit (r : row Reversal.detail) : Aggregator.hit :=
  Aggregator.mkHit (r_code r) (r_name r) (Reversal.score (r_detail r)).

Definition volume_hit (r : row VolumeBreakout.detail) : Aggregator.hit :=
  Aggregator.mkHit (r_code r) (r_name r) (VolumeBreakout.score (r_detail r)).

Definition shrink_hit (r : row ShrinkBreakout.detail) : Aggregator.hit :=
  Aggregator.mkHit (r_code r) (r_name r) (ShrinkBreakout.score (r_detail r)).

Definition opt_list {A : Type} (o : option A) : list A :=
  match o with
  | Some x => [x]
  | None => []
  end.

(** What one stock adds to each of the three lists. *)
Definition adds_reversal (input : stock * option DataFrame)
  : list (row Reversal.detail) :=
  match snd input with
  | None => []
  | Some df =>
    opt_list (option_map (mkRow (code (fst input)) (name (fst input)))
                (guarded (Reversal.check_reversal_pattern (Some df))))
  end.

Definition adds_volume (input : stock * option DataFrame)
  : list (row VolumeBreakout.detail) :=
  match snd input with
  | None => []
  | Some df =>
    opt_list (option_map (mkRow (code (fst input)) (name (fst input)))
                (guarded (VolumeBreakout.check_volume_breakout_pattern
                            (Some df) (code (fst input)))))
  end.

Definition adds_shrink (input : stock * option DataFrame)
  : list (row ShrinkBreakout.detail) :=
  match snd input with
  | None => []
  | Some df =>
    opt_list (option_map (mkRow (code (fst input)) (name (fst input)))
                (guarded (ShrinkBreakout.check_shrink_breakout_pattern
                            (Some df) (code (fst input)))))
  end.

(** A collected list as [run] hands it on: sorted by score (descending,
    stable), names refreshed. *)
Definition final {D : Type} (score : D -> Z)
    (name_map : string -> option string) (l : list (row D)) : list (row D) :=
  map (refresh name_map)
    (Aggregator.sorted_desc (fun r => score (r_detail r)) l).

End Orchestrator.

(** ** The stock universe and the price histories
    ([get_stock_list], [get_stock_history], [get_latest_names])

    Strings are byte strings in UTF-8, so that a character occurs in a
    string exactly when its encoding does. *)

Module StockList.
Import Orchestrator.

(** [s.startswith(p)] *)
Definition startswith (s p : string) : bool := String.prefix p s.

(** [sub in s] *)
Fixpoint contains (sub s : string) : bool :=
  String.prefix sub s
  || match s with
     | EmptyString => false
     | String _ s' => contains sub s'
     end.

(** [s.split(sep)] for a separator of one character. *)
Fixpoint split (sep : ascii) (s : string) : list string :=
  match s with
  | EmptyString => [EmptyString]
  | String c s' =>
    if Ascii.eqb c sep then EmptyString :: split sep s'
    else match split sep s' with
         | h :: t => String c h :: t
         | [] => [String c EmptyString]
         end
  end.

(** The character U+9000 of delisting names, in UTF-8. *)
Definition delisting_mark : string :=
  String (ascii_of_nat 233)
    (String (ascii_of_nat 128) (String (ascii_of_nat 128) EmptyString)).

(** The fields [row[0]], [row[1]] and [row[4]] of a row of
    [query_stock_basic]. *)
Record basic_row : Type := mkBasicRow {
  row_code : string;
  row_name : string;
  row_status : string
}.

(** The body of the [while] loop for one row: [Ok None] where the source
    continues or appends nothing, [Fault] for the IndexError of
    [code.split('.')[1]]. *)
Definition listed (row : basic_row) : outcome (option stock) :=
  let code := row_code row in
  let name := row_name row in
  let status := row_status row in
  if negb (String.eqb status "1") then Ok None
  else if contains "ST" name || contains delisting_mark name then Ok None
  else if startswith code "sh.688" || startswith code "sh.689" then Ok None
  else if startswith code "bj." then Ok None
  else if startswith code "sh.6" || startswith code "sz.0"
          || startswith code "sz.3" then
    match nth_error (split "." code) 1 with
    | Some c => Ok (Some (mkStock code c name))
    | None => Fault
    end
  else Ok None.

Fixpoint stock_loop (rows : list basic_row) (stocks : list stock)
  : outcome (list stock) :=
  match rows with
  | [] => Ok stocks
  | row :: rest =>
    s <- listed row ;;
    stock_loop rest (match s with
                     | Some st => stocks ++ [st]
                     | None => stocks
                     end)
  end.

(** [get_stock_list] on the rows the query cursor yields; an exception gives
    the empty list. *)
Definition get_stock_list (rows : list basic_row) : list stock :=
  match stock_loop rows [] with
  | Ok stocks => stocks
  | Fault => []
  end.

(** What one row adds to the list. *)
Definition picked (row : basic_row) : list stock :=
  match listed row with
  | Ok (Some st) => [st]
  | _ => []
  end.

(** The rows with exactly two fields around one dot, as in [sh.600000]. *)
Definition two_fields (row : basic_row) : Prop :=
  List.length (split "." (row_code row)) = 2%nat.

End StockList.

(** [get_stock_history]: the rows of the K-line query after
    [pd.to_numeric(errors='coerce')], where a field that is no number is
    NaN, here [None]. *)

Module History.

Record raw_bar : Type := mkRaw {
  raw_date : string;
  raw_open : option Q;
  raw_high : option Q;
  raw_low : option Q;
  raw_close : option Q;
  raw_volume : option Q
}.

Definition history_days : Z := 200.

(** A row without NaN. *)
Definition complete (r : raw_bar) : option bar :=
  match raw_open r, raw_high r, raw_low r, raw_close r, raw_volume r with
  | Some o, Some h, Some l, Some c, Some v => Some (mkBar (raw_date r) o h l c v)
  | _, _, _, _, _ => None
  end.

(** [df.dropna()] *)
Fixpoint dropna (rows : list raw_bar) : DataFrame :=
  match rows with
  | [] => []
  | r :: rest =>
    match complete r with
    | Some b => b :: dropna rest
    | None => dropna rest
    end
  end.

(** [df.tail(n)] for [n >= 0] *)
Definition tail (n : Z) (df : DataFrame) : DataFrame :=
  skipn (Z.to_nat (len df - n)) df.

(** [get_stock_history]; [response] is [None] when the query reports an
    error or raises, else the rows it yields. *)
Definition get_stock_history (response : option (list raw_bar))
  : option DataFrame :=
  match response with
  | None => None
  | Some data_list =>
    if (len data_list <? 30)%Z then None
    else
      let df := dropna data_list in
      if (len df <? 30)%Z then None
      else Some (tail history_days df)
  end.

End History.

(** [get_latest_names]: the symbols asked of the quote service and the
    batches they are sent in. *)

Module LatestNames.
Import StockList.

(** [prefix = 'sh' if code.startswith('6') else 'sz'] *)
Definition exchange_prefix (code : string) : string :=
  if startswith code "6" then "sh" else "sz".

(** [f'{prefix}{code}'] *)
Definition sina_code (code : string) : string :=
  (exchange_prefix code ++ code)%string.

(** [sina_code[2:]] *)
Definition pure_code (sina_code : string) : string :=
  String.substring 2 (String.length sina_code - 2) sina_code.

Definition batch_size : Z := 100.

(** [range(0, n, step)] for a positive step. *)
Definition range_step (n step : Z) : list Z :=
  map (fun k => (Z.of_nat k * step)%Z)
      (seq 0 (Z.to_nat ((n + step - 1) / step))).

(** The batches [sina_codes[i:i+batch_size]] of the request loop. *)
Definition batches {A : Type} (sina_codes : list A) : list (list A) :=
  map (fun i => islice sina_codes i (i + batch_size))
      (range_step (len sina_codes) batch_size).

(** What the loop body of [get_stock_list] establishes of a row it keeps,
    in the terms of [get_latest_names]. *)
Record kept (row : basic_row) (st : Orchestrator.stock) : Prop := mkKept {
  kept_status : row_status row = "1"%string;
  kept_code : Orchestrator.bs_code st = row_code row;
  kept_name : Orchestrator.name st = row_name row;
  kept_not_st : contains "ST" (Orchestrator.name st) = false;
  kept_not_delisting :
    contains delisting_mark (Orchestrator.name st) = false;
  kept_board :
    startswith (Orchestrator.code st) "6" = true
    \/ startswith (Orchestrator.code st) "0" = true
    \/ startswith (Orchestrator.code st) "3" = true;
  kept_not_688 : startswith (Orchestrator.code st) "688" = false;
  kept_not_689 : startswith (Orchestrator.code st) "689" = false;
  kept_no_dot : contains "." (Orchestrator.code st) = false;
  kept_exchange :
    exists rest,
      Orchestrator.bs_code st
      = (exchange_prefix (Orchestrator.code st) ++ "."
         ++ Orchestrator.code st ++ rest)%string
      /\ (rest = ""%string \/ startswith rest "." = true);
  kept_two_fields :
    two_fields row ->
    Orchestrator.bs_code st
    = (exchange_prefix (Orchestrator.code st) ++ "."
       ++ Orchestrator.code st)%string
}.

End LatestNames.

(** ** The agent runner ([github-actions/claude_agent_runner.py])

    A Python string is the list of its code points, so that [len] and
    slicing count what Python counts. *)

Module AgentRunner.

Definition text : Type := list N.

(** The text between the head and the tail of a long screener output, 14
    code points: a newline, three dots, a bracketed note of four
    characters, three dots, a newline. *)
Definition omitted_middle : text :=
  [10; 46; 46; 46; 91; 20013; 38388; 30465; 30053; 93; 46; 46; 46; 10]%N.

(** The text put behind cut result data, 10 code points. *)
Definition data_cut : text :=
  [10; 46; 46; 46; 91; 25968; 25454; 25130; 26029; 93]%N.

(** [\n[stderr]: ] *)
Definition stderr_tag : text :=
  [10; 91; 115; 116; 100; 101; 114; 114; 93; 58; 32]%N.

(** [s[:b]] and [s[a:]] *)
Definition slice_to {A : Type} (s : list A) (b : Z) : list A := islice s 0 b.

Definition slice_from {A : Type} (s : list A) (a : Z) : list A :=
  islice s a (len s).

(** [execute_tool], tool [run_stock_screener]: the output of the finished
    process before it is shortened ... *)
Definition screener_raw (stdout stderr : text) : text :=
  match stderr with
  | [] => stdout
  | _ :: _ => stdout ++ stderr_tag ++ stderr
  end.

(** ... and what the tool returns. *)
Definition screener_output (stdout stderr : text) : text :=
  let output := screener_raw stdout stderr in
  if (10000 <? len output)%Z
  then slice_to output 2000 ++ omitted_middle ++ slice_from output (-8000)
  else output.

(** [execute_tool], tool [read_screening_results], on the text
    [json.dumps] gives for the results file. *)
Definition results_output (result_json : text) : text :=
  if (50000 <? len result_json)%Z
  then slice_to result_json 50000 ++ data_cut
  else result_json.

(** *** The agent loop ([run_agent]) *)

Inductive block : Type :=
| TextBlock (t : text)
| ToolUseBlock (id : string) (name : string)
| OtherBlock.

Inductive stop_reason : Type :=
| EndTurn
| ToolUse
| OtherStop.

Record response : Type := mkResponse {
  stop : stop_reason;
  content : list block
}.

Record tool_result : Type := mkToolResult {
  tool_use_id : string;
  result_content : text
}.

Inductive message : Type :=
| UserText
| Assistant (c : list block)
| UserResults (rs : list tool_result).

(** The run of the loop as seen from outside: the [messages] argument of
    every request in order, the conversation at the end, the report handed
    to [save_report] if any. *)
Record run (World : Type) : Type := mkRun {
  sent : list (list message);
  final_messages : list message;
  saved : option text;
  end_world : World
}.

Arguments mkRun {World} sent final_messages saved end_world.
Arguments sent {World} r.
Arguments final_messages {World} r.
Arguments saved {World} r.
Arguments end_world {World} r.

(** The text of the [text] blocks, joined. *)
Fixpoint final_text (c : list block) : text :=
  match c with
  | [] => []
  | TextBlock t :: rest => t ++ final_text rest
  | _ :: rest => final_text rest
  end.

(** The identifiers of the [tool_use] blocks, in order. *)
Fixpoint tool_use_ids (c : list block) : list string :=
  match c with
  | [] => []
  | ToolUseBlock id _ :: rest => id :: tool_use_ids rest
  | _ :: rest => tool_use_ids rest
  end.

Section Loop.

(** The outside world (the service, the file system, the process table)
    and the two operations on it: a request to the service, and
    [execute_tool]. *)
Variable World : Type.
Variable create : World -> list message -> response * World.
Variable execute_tool : World -> string -> text * World.

(** [for block in response.content: if block.type == "tool_use": ...] *)
Fixpoint run_tools (w : World) (c : list block) (tool_results : list tool_result)
  : list tool_result * World :=
  match c with
  | [] => (tool_results, w)
  | ToolUseBlock id name :: rest =>
    let (result, w') := execute_tool w name in
    run_tools w' rest (tool_results ++ [mkToolResult id result])
  | _ :: rest => run_tools w rest tool_results
  end.

(** [for iteration in range(max_iterations)], with [iterations] rounds
    left. *)
Fixpoint agent_loop (iterations : nat) (w : World) (messages : list message)
    (log : list (list message)) : run World :=
  match iterations with
  | O => mkRun log messages None w
  | S iterations' =>
    let (response, w1) := create w messages in
    let log' := log ++ [messages] in
    match stop response with
    | EndTurn =>
      mkRun log' messages (Some (final_text (content response))) w1
    | ToolUse =>
      let messages1 := messages ++ [Assistant (content response)] in
      let (tool_results, w2) := run_tools w1 (content response) [] in
      agent_loop iterations' w2 (messages1 ++ [UserResults tool_results]) log'
    | OtherStop => mkRun log' messages None w1
    end
  end.

Definition max_iterations : nat := 10.

Definition run_agent (w : World) : run World :=
  agent_loop max_iterations w [UserText] [].

End Loop.

(** A conversation the service accepts: it opens with the user's task, and
    every assistant turn is followed by one user turn that answers each of
    its [tool_use] blocks, by identifier and in order. *)
Inductive conversation : list message -> Prop :=
| conv_start : conversation [UserText]
| conv_round (ms : list message) (c : list block) (rs : list tool_result) :
    conversation ms ->
    map tool_use_id rs = tool_use_ids c ->
    conversation (ms ++ [Assistant c; UserResults rs]).

(** What every round of the loop keeps: the conversation is well formed
    and has two messages for each request made so far, plus the task. *)
Definition loop_inv (messages : list message) (log : list (list message))
  : Prop :=
  conversation messages
  /\ Forall conversation log
  /\ List.length messages = (2 * List.length log + 1)%nat
  /\ (forall k ms, nth_error log k = Some ms ->
                   List.length ms = (2 * k + 1)%nat).

End AgentRunner.

(** ** The Reversal thresholds in binary64

    The match decision of [check_reversal_pattern] on the doubles the
    source computes with: every operation is the IEEE 754 binary64 one,
    rounded to nearest, in the order of the source.  This is the first
    component of the detector's answer; the detail and its decimal
    rounding are not modelled here. *)

Module ReversalBinary64.

Local Open Scope float_scope.
Set Warnings "-inexact-float".

(** The four prices of a row. *)
Record row64 : Type := mkRow64 {
  open64 : float;
  high64 : float;
  low64 : float;
  close64 : float
}.

(** [self.reversal_config] *)
Definition small_bear_min : float := 0.3.
Definition small_bear_max : float := 2.0.
Definition big_bear_min : float := 3.0.
Definition gap_down_min : float := 0.
Definition bull_close_min : float := 1.0.
Definition prior_decline_days : Z := 22.
Definition prior_decline_min : float := 3.
Definition max_upper_shadow : float := 30.

(** [df.iloc[i]] *)
Definition iloc64 (df : list row64) (i : Z) : outcome row64 :=
  let n := len df in
  let j := if (i <? 0)%Z then (i + n)%Z else i in
  if (j <? 0)%Z then Fault
  else match nth_error df (Z.to_nat j) with
       | Some b => Ok b
       | None => Fault
       end.

(** Python's [max(a, b)] *)
Definition max64 (a b : float) : float := if a <? b then b else a.

(** The nested [upper_shadow_ratio(row)]. *)
Definition upper_shadow_ratio (row : row64) : float :=
  let body_top := max64 (open64 row) (close64 row) in
  let total_range := high64 row - low64 row in
  if total_range =? 0 then 0
  else
    let upper_shadow := high64 row - body_top in
    upper_shadow / total_range * 100.

(** [(close - open) / open * 100] *)
Definition change (row : row64) : float :=
  (close64 row - open64 row) / open64 row * 100.

(** [pattern_match] for the last three rows. *)
Definition pattern_match (day1 day2 day3 : row64) : bool :=
  let day1_change := change day1 in
  let is_day1_bear := close64 day1 <? open64 day1 in
  let is_day1_small :=
    (small_bear_min <=? abs day1_change)
    && (abs day1_change <=? small_bear_max) in
  let day2_change := change day2 in
  let is_day2_bear := close64 day2 <? open64 day2 in
  let is_day2_big := big_bear_min <=? abs day2_change in
  let gap_down := (open64 day3 - close64 day2) / close64 day2 * 100 in
  let day3_change := change day3 in
  let is_day3_gap_down := gap_down <=? - gap_down_min in
  let is_day3_bull := open64 day3 <? close64 day3 in
  let is_day3_strong := bull_close_min <=? day3_change in
  let day1_upper_shadow := upper_shadow_ratio day1 in
  let day2_upper_shadow := upper_shadow_ratio day2 in
  let day3_upper_shadow := upper_shadow_ratio day3 in
  let max_upper_shadow_ :=
    max64 (max64 day1_upper_shadow day2_upper_shadow) day3_upper_shadow in
  let upper_shadow_ok := max_upper_shadow_ <=? max_upper_shadow in
  is_day1_bear && is_day1_small && is_day2_bear && is_day2_big
  && is_day3_gap_down && is_day3_bull && is_day3_strong
  && upper_shadow_ok.

(** The first component of [check_reversal_pattern(df)]: lines 192-221
    return [False] early, line 304 returns [True] exactly when
    [pattern_match] holds.  [Fault] is an IndexError. *)
Definition check_reversal_match (df : list row64) : outcome bool :=
  let min_required := (3 + prior_decline_days)%Z in
  if (len df <? min_required)%Z then Ok false else
  day1 <- iloc64 df (-3) ;;
  day2 <- iloc64 df (-2) ;;
  day3 <- iloc64 df (-1) ;;
  let prior_start_idx := (-3 - prior_decline_days)%Z in
  if (Z.abs prior_start_idx >? len df)%Z then Ok false else
  prior_start <- iloc64 df prior_start_idx ;;
  prior_end <- iloc64 df (-4) ;;
  let prior_start_close := close64 prior_start in
  let prior_end_close := close64 prior_end in
  if prior_start_close =? 0 then Ok false else
  let prior_decline :=
    (prior_end_close - prior_start_close) / prior_start_close * 100 in
  if (0 <? prior_decline_min)
     && ((0 <=? prior_decline) || (abs prior_decline <? prior_decline_min))
  then Ok false else
  if (open64 day1 =? 0) || (open64 day2 =? 0) || (open64 day3 =? 0)
  then Ok false else
  if close64 day2 =? 0 then Ok false else
  Ok (pattern_match day1 day2 day3).

(** The tests of [pattern_match] other than the three thresholds. *)
Definition shape_ok (day1 day2 day3 : row64) : bool :=
  (close64 day1 <? open64 day1) && (close64 day2 <? open64 day2)
  && ((open64 day3 - close64 day2) / close64 day2 * 100 <=? - gap_down_min)
  && (open64 day3 <? close64 day3)
  && (max64 (max64 (upper_shadow_ratio day1) (upper_shadow_ratio day2))
        (upper_shadow_ratio day3) <=? max_upper_shadow).

(** The double nearest to a rational with a small numerator and
    denominator (both below 2^53): what [float] makes of its decimal
    numeral. *)
Definition float_of_Z (z : Z) : float :=
  match z with
  | Z0 => 0
  | Zpos _ => of_uint63 (Uint63.of_Z z)
  | Zneg p => - of_uint63 (Uint63.of_Z (Zpos p))
  end.

Definition binary64 (q : Q) : float :=
  float_of_Z (Qnum q) / float_of_Z (Zpos (Qden q)).

Definition row_of (b : bar) : row64 :=
  {| open64 := binary64 (open b);
     high64 := binary64 (high b);
     low64 := binary64 (low b);
     close64 := binary64 (close b) |}.

Definition frame_of (df : DataFrame) : list row64 := map row_of df.

(** A series on the lower edge of the first threshold: after a 10%
    decline over 22 bars the first day goes from 100 to 99.7, a change of
    exactly -0.3%; the second day loses 4%, the third opens lower and
    gains 2%. *)
Definition edge_series : DataFrame :=
  mkBar "p0" 110 110 110 110 1
  :: flat 21 99 1
  ++ [ mkBar "d1" 100 100 (997 # 10) (997 # 10) 1
     ; mkBar "d2" 100 100 96 96 1
     ; mkBar "d3" 90 (918 # 10) 90 (918 # 10) 1 ].

(** The same series at ten times the prices: 1000 to 997. *)
Definition edge_series_x10 : DataFrame :=
  mkBar "p0" 1100 1100 1100 1100 1
  :: flat 21 990 1
  ++ [ mkBar "d1" 1000 1000 997 997 1
     ; mkBar "d2" 1000 1000 960 960 1
     ; mkBar "d3" 900 918 900 918 1 ].

End ReversalBinary64.

(** * Properties *)

(** ** Facts about the scalar helpers *)

Lemma Qleb_iff (x y : Q) : Qleb x y = true <-> x <= y.
Proof. apply Qle_bool_iff. Qed.

Lemma Qleb_false (x y : Q) : Qleb x y = false <-> y < x.
Proof.
  unfold Qleb. split; intro H.
  - apply Qnot_le_lt. intro L. apply Qle_bool_iff in L. congruence.
  - destruct (Qle_bool x y) eqn:E; [|reflexivity].
    apply Qle_bool_iff in E. lra.
Qed.

Lemma Qltb_iff (x y : Q) : Qltb x y = true <-> x < y.
Proof.
  unfold Qltb. rewrite negb_true_iff. apply (Qleb_false y x).
Qed.

Lemma Qltb_false (x y : Q) : Qltb x y = false <-> y <= x.
Proof.
  unfold Qltb. rewrite negb_false_iff. apply Qle_bool_iff.
Qed.

Lemma Qeqb_iff (x y : Q) : Qeqb x y = true <-> x == y.
Proof. apply Qeq_bool_iff. Qed.

Lemma Qeqb_false (x y : Q) : Qeqb x y = false <-> ~ x == y.
Proof.
  split; intro H.
  - intro E. apply Qeqb_iff in E. congruence.
  - destruct (Qeqb x y) eqn:E; [|reflexivity].
    apply Qeqb_iff in E. contradiction.
Qed.

Lemma pmin_le_l (a b : Q) : pmin a b <= a.
Proof.
  unfold pmin. destruct (Qltb b a) eqn:E.
  - apply Qltb_iff in E. lra.
  - lra.
Qed.

Lemma pmin_le_r (a b : Q) : pmin a b <= b.
Proof.
  unfold pmin. destruct (Qltb b a) eqn:E.
  - lra.
  - apply Qltb_false in E. lra.
Qed.

Lemma pmin_glb (a b c : Q) : c <= a -> c <= b -> c <= pmin a b.
Proof. intros. unfold pmin. destruct (Qltb b a); assumption. Qed.

Lemma pmax_ge_l (a b : Q) : a <= pmax a b.
Proof.
  unfold pmax. destruct (Qltb a b) eqn:E.
  - apply Qltb_iff in E. lra.
  - lra.
Qed.

Lemma pmax_ge_r (a b : Q) : b <= pmax a b.
Proof.
  unfold pmax. destruct (Qltb a b) eqn:E.
  - lra.
  - apply Qltb_false in E. lra.
Qed.

Lemma pmax_lub (a b c : Q) : a <= c -> b <= c -> pmax a b <= c.
Proof. intros. unfold pmax. destruct (Qltb a b); assumption. Qed.

Lemma pmin_mono (a a' b b' : Q) : a <= a' -> b <= b' -> pmin a b <= pmin a' b'.
Proof.
  intros Ha Hb. apply pmin_glb.
  - pose proof (pmin_le_l a b). lra.
  - pose proof (pmin_le_r a b). lra.
Qed.

Lemma pmax_mono (a a' b b' : Q) : a <= a' -> b <= b' -> pmax a b <= pmax a' b'.
Proof.
  intros Ha Hb. apply pmax_lub.
  - pose proof (pmax_ge_l a' b'). lra.
  - pose proof (pmax_ge_r a' b'). lra.
Qed.

(** The clamp [min(100, max(0, s))] stays in the closed range. *)
Lemma clamp_bounds (s : Q) : 0 <= pmin 100 (pmax 0 s) <= 100.
Proof.
  split.
  - apply pmin_glb; [lra | apply pmax_ge_l].
  - apply pmin_le_l.
Qed.

Lemma py_round_lower (k : Z) (x : Q) : inject_Z k <= x -> (k <= py_round x)%Z.
Proof.
  intro H. unfold py_round.
  assert (Hf : (k <= Qfloor x)%Z).
  { rewrite <- (Qfloor_Z k). apply Qfloor_resp_le. exact H. }
  destruct (Qcompare (x - inject_Z (Qfloor x)) (1 # 2)); [destruct (Z.even (Qfloor x))| |]; lia.
Qed.

Lemma py_round_upper (k : Z) (x : Q) : x <= inject_Z k -> (py_round x <= k)%Z.
Proof.
  intro H. unfold py_round.
  pose proof (Qfloor_le x) as Hfl.
  assert (Hf : (Qfloor x <= k)%Z).
  { rewrite <- (Qfloor_Z k). apply Qfloor_resp_le. exact H. }
  destruct (Z.eq_dec (Qfloor x) k) as [E | NE].
  - assert (Hx : x - inject_Z (Qfloor x) <= 0) by (rewrite E; lra).
    destruct (Qcompare (x - inject_Z (Qfloor x)) (1 # 2)) eqn:C.
    + apply Qeq_alt in C. lra.
    + lia.
    + apply Qgt_alt in C. lra.
  - destruct (Qcompare (x - inject_Z (Qfloor x)) (1 # 2)); [destruct (Z.even (Qfloor x))| |]; lia.
Qed.

Lemma py_round_mono (x y : Q) : x <= y -> (py_round x <= py_round y)%Z.
Proof.
  intro H.
  assert (Hf : (Qfloor x <= Qfloor y)%Z) by (apply Qfloor_resp_le; exact H).
  destruct (Z.eq_dec (Qfloor x) (Qfloor y)) as [E | NE].
  - unfold py_round. rewrite <- E.
    destruct (Qcompare (x - inject_Z (Qfloor x)) (1 # 2)) eqn:Cx;
      destruct (Qcompare (y - inject_Z (Qfloor x)) (1 # 2)) eqn:Cy;
      try (destruct (Z.even (Qfloor x))); try lia;
      repeat match goal with
             | C : Qcompare _ _ = Eq |- _ => apply Qeq_alt in C
             | C : Qcompare _ _ = Lt |- _ => apply Qlt_alt in C
             | C : Qcompare _ _ = Gt |- _ => apply Qgt_alt in C
             end; lra.
  - assert (Hx : (py_round x <= Qfloor x + 1)%Z).
    { unfold py_round.
      destruct (Qcompare (x - inject_Z (Qfloor x)) (1 # 2)); [destruct (Z.even (Qfloor x))| |]; lia. }
    assert (Hy : (Qfloor y <= py_round y)%Z).
    { unfold py_round.
      destruct (Qcompare (y - inject_Z (Qfloor y)) (1 # 2)); [destruct (Z.even (Qfloor y))| |]; lia. }
    lia.
Qed.

(** ** Indexing *)

Lemma len_nonneg {A : Type} (l : list A) : (0 <= len l)%Z.
Proof. unfold len. lia. Qed.

Lemma iloc_ok (df : DataFrame) (i : Z) :
  (- len df <= i < len df)%Z -> exists b, iloc df i = Ok b.
Proof.
  intro H. unfold iloc.
  set (j := if (i <? 0)%Z then (i + len df)%Z else i).
  assert (Hj : (0 <= j < len df)%Z).
  { subst j. destruct (i <? 0)%Z eqn:E;
      [apply Z.ltb_lt in E | apply Z.ltb_ge in E]; lia. }
  destruct (j <? 0)%Z eqn:E; [apply Z.ltb_lt in E; lia|].
  destruct (nth_error df (Z.to_nat j)) as [b|] eqn:N; [eauto|].
  apply nth_error_None in N. unfold len in Hj. lia.
Qed.

Lemma len_islice {A : Type} (l : list A) (a b : Z) :
  (0 <= a <= b)%Z -> (b <= len l)%Z -> len (islice l a b) = (b - a)%Z.
Proof.
  intros Hab Hb. unfold islice, norm_idx.
  destruct (a <? 0)%Z eqn:Ea; [apply Z.ltb_lt in Ea; lia|].
  destruct (b <? 0)%Z eqn:Eb; [apply Z.ltb_lt in Eb; lia|].
  unfold len in *. rewrite length_firstn, length_skipn. lia.
Qed.

Lemma mean_ok (l : list Q) : (0 < len l)%Z -> exists m, mean l = Ok m.
Proof.
  destruct l; [cbn; lia | intros _; eexists; reflexivity].
Qed.

Lemma smax_ok (l : list Q) : (0 < len l)%Z -> exists m, smax l = Ok m.
Proof.
  destruct l; [cbn; lia | intros _; eexists; reflexivity].
Qed.

Lemma smin_ok (l : list Q) : (0 < len l)%Z -> exists m, smin l = Ok m.
Proof.
  destruct l; [cbn; lia | intros _; eexists; reflexivity].
Qed.

Lemma len_closes (w : list bar) : len (closes w) = len w.
Proof. unfold len, closes. rewrite length_map. reflexivity. Qed.

Lemma in_zrange (a b k : Z) : In k (zrange a b) <-> (a <= k < b)%Z.
Proof.
  unfold zrange. rewrite in_map_iff. split.
  - intros [i [<- Hi]]. apply in_seq in Hi. lia.
  - intro H. exists (Z.to_nat (k - a)). split; [lia|].
    apply in_seq. lia.
Qed.

(** Stepping through a monadic computation that is known to succeed. *)
Ltac bind_inv H :=
  repeat (cbv zeta in H;
          match type of H with
          | bind ?m _ = Ok _ =>
              let E := fresh "E" in
              destruct m eqn:E; [cbn [bind] in H | discriminate H]
          | (if ?c then _ else _) = Ok _ =>
              let C := fresh "C" in
              destruct c eqn:C; try discriminate H
          | match ?x with _ => _ end = Ok _ =>
              let M := fresh "M" in
              destruct x eqn:M; try discriminate H
          end).

Lemma zrange_nil (a b : Z) : (b <= a)%Z -> zrange a b = [].
Proof.
  intro H. unfold zrange. replace (Z.to_nat (b - a)) with 0%nat by lia.
  reflexivity.
Qed.

Lemma zrange_cons (a b : Z) :
  (a < b)%Z -> zrange a b = a :: zrange (a + 1) b.
Proof.
  intro H. unfold zrange.
  replace (Z.to_nat (b - a)) with (S (Z.to_nat (b - (a + 1)))) by lia.
  cbn [seq map]. f_equal; [lia|].
  rewrite <- seq_shift, map_map.
  apply map_ext. intro k. lia.
Qed.

(** Cutting a range at one of its members leaves the two ranges around
    it. *)
Lemma zrange_split (b j : Z) (l2 : list Z) :
  forall (l1 : list Z) (a : Z),
    zrange a b = l1 ++ j :: l2 ->
    l1 = zrange a j /\ l2 = zrange (j + 1) b.
Proof.
  induction l1 as [|x l1 IH]; intros a H.
  - destruct (Z_lt_le_dec a b) as [L|L].
    + rewrite (zrange_cons a b L) in H. injection H as -> ->.
      split; [symmetry; apply zrange_nil; lia | reflexivity].
    + rewrite (zrange_nil a b L) in H. discriminate.
  - destruct (Z_lt_le_dec a b) as [L|L].
    + rewrite (zrange_cons a b L) in H. cbn [app] in H.
      injection H as <- H.
      assert (Hj : In j (zrange (a + 1) b))
        by (rewrite H; apply in_or_app; right; left; reflexivity).
      apply in_zrange in Hj.
      destruct (IH _ H) as [-> ->].
      split; [|reflexivity].
      rewrite (zrange_cons a j); [reflexivity | lia].
    + rewrite (zrange_nil a b L) in H. discriminate.
Qed.

Lemma Forall2_In_l {A B : Type} (R : A -> B -> Prop) (l : list A)
    (l' : list B) (x : A) :
  Forall2 R l l' -> In x l -> exists y, In y l' /\ R x y.
Proof.
  induction 1 as [|a b l l' Hab _ IH]; intro Hin; [contradiction|].
  destruct Hin as [->|Hin].
  - exists b. split; [left; reflexivity | exact Hab].
  - destruct (IH Hin) as [y [Hy HR]]. exists y. split; [right|]; assumption.
Qed.

(** ** Strategy 1 *)

Module ReversalProps.
Import Reversal.

Lemma reversal_matched_inv (df : option DataFrame) (d : detail) :
  check_reversal_pattern df = Ok (Some d) ->
  exists c1 c2 g e g2 c3 s,
    is_day1_small reversal_config c1 = true /\
    is_day2_big reversal_config c2 = true /\
    is_day3_gap_down reversal_config g = true /\
    is_day3_strong reversal_config c3 = true /\
    s <= 30 /\
    score d = py_round (reversal_score c2 g e g2 c3 (bear_contrast c1 c2) s).
Proof.
  unfold check_reversal_pattern, check_reversal_pattern_cfg.
  destruct df as [df|]; [|discriminate].
  intro H. bind_inv H.
  injection H as <-.
  repeat match goal with
         | C : _ && _ = true |- _ => apply andb_true_iff in C; destruct C
         end.
  do 7 eexists. cbn [score].
  repeat split; try eassumption.
  match goal with
  | C : Qleb _ (max_upper_shadow_cfg reversal_config) = true |- _ =>
      apply Qleb_iff in C; exact C
  end.
Qed.

Lemma day1_small_bounds (c1 : Q) :
  is_day1_small reversal_config c1 = true <-> (3 # 10) <= Qabs c1 <= 2.
Proof.
  unfold is_day1_small. cbn [small_bear_min small_bear_max reversal_config].
  rewrite andb_true_iff, !Qleb_iff. reflexivity.
Qed.

Lemma day2_big_bound (c2 : Q) :
  is_day2_big reversal_config c2 = true <-> 3 <= Qabs c2.
Proof.
  unfold is_day2_big. cbn [big_bear_min reversal_config].
  apply Qleb_iff.
Qed.

Lemma day3_strong_bound (c3 : Q) :
  is_day3_strong reversal_config c3 = true <-> 1 <= c3.
Proof.
  unfold is_day3_strong. cbn [bull_close_min reversal_config].
  apply Qleb_iff.
Qed.

(** In the matched regime the contrast ratio is at least 1.5. *)
Lemma bear_contrast_ge (c1 c2 : Q) :
  (3 # 10) <= Qabs c1 <= 2 -> 3 <= Qabs c2 ->
  (3 # 2) <= bear_contrast c1 c2.
Proof.
  intros [Hlo Hhi] H2. unfold bear_contrast.
  assert (Hpos : 0 < Qabs c1) by lra.
  destruct (Qltb 0 (Qabs c1)) eqn:E.
  - apply Qle_shift_div_l; [exact Hpos | lra].
  - apply Qltb_false in E. lra.
Qed.

Lemma bear_contrast_mono (c1 c2 c2' : Q) :
  Qabs c2 <= Qabs c2' -> bear_contrast c1 c2 <= bear_contrast c1 c2'.
Proof.
  intro H. unfold bear_contrast.
  destruct (Qltb 0 (Qabs c1)) eqn:E; [|lra].
  apply Qltb_iff in E.
  unfold Qdiv. apply Qmult_le_compat_r; [exact H|].
  apply Qlt_le_weak, Qinv_lt_0_compat, E.
Qed.

Lemma reversal_score_ge_40 (c1 c2 g : Q) (e : bool) (g2 c3 s : Q) :
  (3 # 10) <= Qabs c1 <= 2 -> 3 <= Qabs c2 ->
  40 <= reversal_score c2 g e g2 c3 (bear_contrast c1 c2) s.
Proof.
  intros H1 H2.
  pose proof (bear_contrast_ge c1 c2 H1 H2) as Hc.
  assert (T1 : 0 <= pmin (Qabs c2 - 3) 5) by (apply pmin_glb; lra).
  assert (T2 : 0 <= pmin (Qabs g) 3)
    by (apply pmin_glb; [apply Qabs_nonneg | lra]).
  assert (T3 : 0 <= pmin (Qabs g2) 2)
    by (apply pmin_glb; [apply Qabs_nonneg | lra]).
  assert (T4 : 0 <= pmin (bear_contrast c1 c2 - (3 # 2)) 3)
    by (apply pmin_glb; lra).
  unfold reversal_score. cbv zeta.
  apply pmin_glb; [lra|].
  eapply Qle_trans; [|apply pmax_ge_r].
  destruct e, (Qltb g2 0), (Qleb c3 3), (Qleb c3 5),
    (Qleb s 10), (Qleb s 20), (Qleb s 30); lra.
Qed.

Lemma reversal_score_mono (c1 c2 c2' g : Q) (e : bool) (g2 c3 s : Q) :
  Qabs c2 <= Qabs c2' ->
  reversal_score c2 g e g2 c3 (bear_contrast c1 c2) s
  <= reversal_score c2' g e g2 c3 (bear_contrast c1 c2') s.
Proof.
  intro H.
  pose proof (bear_contrast_mono c1 c2 c2' H) as Hc.
  assert (T1 : pmin (Qabs c2 - 3) 5 <= pmin (Qabs c2' - 3) 5)
    by (apply pmin_mono; lra).
  assert (T4 : pmin (bear_contrast c1 c2 - (3 # 2)) 3
               <= pmin (bear_contrast c1 c2' - (3 # 2)) 3)
    by (apply pmin_mono; lra).
  unfold reversal_score. cbv zeta.
  apply pmin_mono; [lra|]. apply pmax_mono; [lra|].
  destruct e, (Qltb g2 0), (Qleb c3 3), (Qleb c3 5),
    (Qleb s 10), (Qleb s 20), (Qleb s 30); lra.
Qed.

(** C7. Within the matched regime (day1 small, day2 big), a larger day-2
    decline never lowers the Reversal score when the day-1 change, the
    day-3 gap, day 2's own gap, the engulfment flag, the day-3 change and
    the largest upper shadow are unchanged. *)
Theorem reversal_score_monotone_in_day2 (c1 c2 c2' g : Q) (e : bool)
    (g2 c3 s : Q) :
  is_day1_small reversal_config c1 = true ->
  is_day2_big reversal_config c2 = true ->
  Qabs c2 <= Qabs c2' ->
  (py_round (reversal_score c2 g e g2 c3 (bear_contrast c1 c2) s)
   <= py_round (reversal_score c2' g e g2 c3 (bear_contrast c1 c2') s))%Z.
Proof.
  intros _ _ H. apply py_round_mono, reversal_score_mono, H.
Qed.

Lemma reversal_score_monotone_in_day2_witness :
  (py_round (reversal_score (-4) (-1) true (-1) 2 (bear_contrast (-1) (-4)) 10)
   <= py_round (reversal_score (-6) (-1) true (-1) 2
                               (bear_contrast (-1) (-6)) 10))%Z.
Proof.
  apply (reversal_score_monotone_in_day2 (-1) (-4) (-6)).
  - reflexivity.
  - reflexivity.
  - vm_compute. discriminate.
Defined.

(** C9. A matched Reversal result scores at least 40 (and at most 100):
    under the match conditions every bonus is non-negative, the contrast
    ratio being at least 1.5. *)
Theorem reversal_matched_score_ge_40 (df : option DataFrame) (d : detail) :
  check_reversal_pattern df = Ok (Some d) ->
  (40 <= score d <= 100)%Z.
Proof.
  intro H.
  destruct (reversal_matched_inv df d H)
    as (c1 & c2 & g & e & g2 & c3 & s & H1 & H2 & _ & _ & _ & ->).
  apply day1_small_bounds in H1. apply day2_big_bound in H2.
  split.
  - apply py_round_lower. change (inject_Z 40) with 40.
    apply reversal_score_ge_40; assumption.
  - apply py_round_upper. change (inject_Z 100) with 100.
    apply pmin_le_l.
Qed.

Lemma reversal_matched_score_ge_40_witness :
  exists d, check_reversal_pattern (Some scenario_a) = Ok (Some d)
            /\ (40 <= score d <= 100)%Z.
Proof.
  eexists. split.
  - vm_compute. reflexivity.
  - apply (reversal_matched_score_ge_40 (Some scenario_a)).
    vm_compute. reflexivity.
Defined.

End ReversalProps.

(** ** Strategy 2 *)

Module VolumeBreakoutProps.
Import VolumeBreakout.

Lemma vb_score_bounds (d : detail) : (0 <= _vb_calculate_score d <= 100)%Z.
Proof.
  unfold _vb_calculate_score. cbv zeta.
  match goal with
  | |- (_ <= py_round (pmin 100 (pmax 0 ?s)) <= _)%Z =>
      pose proof (clamp_bounds s) as [Hlo Hhi]
  end.
  split.
  - apply py_round_lower. exact Hlo.
  - apply py_round_upper. exact Hhi.
Qed.

Lemma score_set_score (d : detail) (s : Z) : score (set_score d s) = s.
Proof. reflexivity. Qed.

(** A scored candidate carries the score of [_vb_calculate_score]. *)
Lemma vb_candidate_score_bounds (cfg : config) (df : DataFrame)
    (code : string) (last prev : bar) (i : Z) (d : detail) :
  vb_candidate cfg df code last prev i = Ok (Some d) ->
  (0 <= score d <= 100)%Z.
Proof.
  unfold vb_candidate. intro H. bind_inv H.
  injection H as <-. rewrite score_set_score. apply vb_score_bounds.
Qed.

Lemma vb_scan_fold (cfg : config) (df : DataFrame) (code : string)
    (last prev : bar) :
  forall (scan : list Z) (found : bool) (best : option detail)
         (found' : bool) (best' : option detail),
    (forall j, In j scan -> (1 <= len df - 1 - j)%Z) ->
    vb_scan cfg df code last prev scan found best = Ok (found', best') ->
    exists ods,
      Forall2 (fun j od =>
                 vb_candidate cfg df code last prev (len df - 1 - j) = Ok od)
              scan ods
      /\ best' = fold_left step_best ods best
      /\ (found' = true -> found = true \/ best' <> None).
Proof.
  induction scan as [|j scan IH]; intros found best found' best' Hr H.
  - cbn in H. injection H as <- <-. exists []. repeat split.
    + constructor.
    + intro. left. assumption.
  - cbn [vb_scan] in H. cbv zeta in H.
    destruct (len df - 1 - j <? 1)%Z eqn:Eb.
    { apply Z.ltb_lt in Eb. specialize (Hr j (or_introl eq_refl)). lia. }
    destruct (vb_candidate cfg df code last prev (len df - 1 - j))
      as [od|] eqn:Ec; [cbn [bind] in H | discriminate H].
    assert (Hr' : forall k, In k scan -> (1 <= len df - 1 - k)%Z)
      by (intros k Hk; apply Hr; right; exact Hk).
    destruct od as [d|].
    + destruct (IH _ _ _ _ Hr' H) as (ods & HF & Hb & Hf).
      exists (Some d :: ods). repeat split.
      * constructor; assumption.
      * exact Hb.
      * intros _. right. rewrite Hb. clear.
        assert (G : forall l b, b <> None -> fold_left step_best l b <> None).
        { induction l as [|od l IHl]; intros b Hb; [exact Hb|].
          cbn [fold_left]. apply IHl.
          destruct od as [d'|]; [|exact Hb].
          cbn. destruct b as [b0|]; [|discriminate].
          cbn. destruct (score b0 <? score d')%Z; discriminate. }
        apply G. destruct best as [b0|]; cbn;
          [destruct (score b0 <? score d)%Z|]; discriminate.
    + destruct (IH _ _ _ _ Hr' H) as (ods & HF & Hb & Hf).
      exists (None :: ods). repeat split.
      * constructor; assumption.
      * exact Hb.
      * exact Hf.
Qed.

(** What [keep_best] leaves after a run of candidates: either the initial
    value, unbeaten, or a candidate that strictly beats everything before
    it and is not beaten by anything after it. *)
Lemma fold_step_best (ods : list (option detail)) :
  forall (init : option detail) (d : detail),
    fold_left step_best ods init = Some d ->
    (init = Some d
     /\ forall d', In (Some d') ods -> (score d' <= score d)%Z)
    \/ (exists pre post,
          ods = pre ++ Some d :: post
          /\ (forall b, init = Some b -> (score b < score d)%Z)
          /\ (forall d', In (Some d') pre -> (score d' < score d)%Z)
          /\ (forall d', In (Some d') post -> (score d' <= score d)%Z)).
Proof.
  induction ods as [|od ods IH]; intros init d H.
  - cbn in H. left. split; [exact H | intros d' []].
  - cbn [fold_left] in H. destruct od as [x|].
    + cbn [step_best] in H.
      destruct init as [b|]; cbn [keep_best] in H.
      * destruct (score b <? score x)%Z eqn:Eb.
        -- apply Z.ltb_lt in Eb.
           destruct (IH _ _ H) as [[Hi Hall] | (pre & post & -> & Hb & Hpre & Hpost)].
           ++ injection Hi as ->. right. exists [], ods.
              repeat split.
              ** intros b0 Hb0. injection Hb0 as <-. exact Eb.
              ** intros d' [].
              ** exact Hall.
           ++ right. exists (Some x :: pre), post. repeat split.
              ** intros b0 Hb0. injection Hb0 as <-.
                 specialize (Hb x eq_refl). lia.
              ** intros d' [Hd|Hd]; [injection Hd as <-; apply Hb; reflexivity
                                    | apply Hpre; exact Hd].
              ** exact Hpost.
        -- apply Z.ltb_ge in Eb.
           destruct (IH _ _ H) as [[Hi Hall] | (pre & post & -> & Hb & Hpre & Hpost)].
           ++ injection Hi as ->. left. split; [reflexivity|].
              intros d' [Hd|Hd]; [injection Hd as <-; exact Eb | apply Hall; exact Hd].
           ++ right. exists (Some x :: pre), post. repeat split.
              ** intros b0 Hb0. injection Hb0 as <-. apply Hb. reflexivity.
              ** intros d' [Hd|Hd]; [injection Hd as <- | apply Hpre; exact Hd].
                 specialize (Hb b eq_refl). lia.
              ** exact Hpost.
      * destruct (IH _ _ H) as [[Hi Hall] | (pre & post & -> & Hb & Hpre & Hpost)].
        -- injection Hi as ->. right. exists [], ods. repeat split.
           ++ intros b Hb. discriminate Hb.
           ++ intros d' [].
           ++ exact Hall.
        -- right. exists (Some x :: pre), post. repeat split.
           ++ intros b Hb0. discriminate Hb0.
           ++ intros d' [Hd|Hd]; [injection Hd as <-; apply Hb; reflexivity
                                 | apply Hpre; exact Hd].
           ++ exact Hpost.
    + cbn [step_best] in H.
      destruct (IH _ _ H) as [[Hi Hall] | (pre & post & -> & Hb & Hpre & Hpost)].
      * left. split; [exact Hi|].
        intros d' [Hd|Hd]; [discriminate Hd | apply Hall; exact Hd].
      * right. exists (None :: pre), post. repeat split.
        -- exact Hb.
        -- intros d' [Hd|Hd]; [discriminate Hd | apply Hpre; exact Hd].
        -- exact Hpost.
Qed.

(** A matched result is the scored detail of some candidate of the scan. *)
Lemma vb_matched_is_candidate (df : DataFrame) (code : string)
    (d : detail) :
  check_volume_breakout_pattern (Some df) code = Ok (Some d) ->
  exists last prev i,
    vb_candidate volume_breakout_config df code last prev i = Ok (Some d).
Proof.
  unfold check_volume_breakout_pattern, check_volume_breakout_pattern_cfg.
  cbn [post_consol_max_lookback volume_breakout_config].
  intro H.
  destruct (len df <? 50)%Z eqn:Elen; [discriminate H|].
  apply Z.ltb_ge in Elen.
  destruct (iloc df (-1)) as [last|]; [cbn [bind] in H | discriminate H].
  destruct (iloc df (-2)) as [prev|]; [cbn [bind] in H | discriminate H].
  destruct (Qleb (close last) (open last)); [discriminate H|].
  destruct (Qeqb (volume prev) 0 || Qleb (volume last) (volume prev));
    [discriminate H|].
  cbv zeta in H.
  set (m := zmin 20 (len df - 30)) in *.
  assert (Hm : (m <= 20)%Z).
  { subst m. unfold zmin. destruct (len df - 30 <? 20)%Z eqn:E;
      [apply Z.ltb_lt in E|]; lia. }
  destruct (vb_scan volume_breakout_config df code last prev
              (zrange 2 (m + 1)) false None) as [[f b]|] eqn:Escan;
    [cbn [bind] in H | discriminate H].
  destruct f; [|discriminate H].
  destruct b as [b|]; [|discriminate H].
  injection H as ->.
  apply vb_scan_fold in Escan.
  2:{ intros j Hj. apply in_zrange in Hj. lia. }
  destruct Escan as (ods & HF & Hb & _).
  symmetry in Hb.
  destruct (fold_step_best ods None d Hb)
    as [[Hi _] | (pre & post & -> & _)]; [discriminate Hi|].
  apply Forall2_app_inv_r in HF.
  destruct HF as (l1 & l2' & _ & HF2 & _).
  inversion HF2 as [|j od l2 post' Hj HF3]; subst.
  eauto.
Qed.

(** C3. A matched Volume-Breakout result is the detail of a valid
    candidate of the backward scan (scan positions 2 .. min(20, len - 30)
    counted from the break-out bar) whose score no valid candidate of the
    scan exceeds; every valid candidate nearer to the break-out bar scores
    strictly less, so on equal scores the nearest one is kept. *)
Theorem vb_keeps_best_candidate (df : DataFrame) (code : string)
    (d : detail) :
  check_volume_breakout_pattern (Some df) code = Ok (Some d) ->
  exists last prev scan_idx,
    iloc df (-1) = Ok last /\ iloc df (-2) = Ok prev
    /\ (2 <= scan_idx <= zmin 20 (len df - 30))%Z
    /\ vb_candidate volume_breakout_config df code last prev
         (len df - 1 - scan_idx) = Ok (Some d)
    /\ (forall j d',
          (2 <= j <= zmin 20 (len df - 30))%Z ->
          vb_candidate volume_breakout_config df code last prev
            (len df - 1 - j) = Ok (Some d') ->
          (score d' <= score d)%Z)
    /\ (forall j d',
          (2 <= j < scan_idx)%Z ->
          vb_candidate volume_breakout_config df code last prev
            (len df - 1 - j) = Ok (Some d') ->
          (score d' < score d)%Z).
Proof.
  unfold check_volume_breakout_pattern, check_volume_breakout_pattern_cfg.
  cbn [post_consol_max_lookback volume_breakout_config].
  intro H.
  destruct (len df <? 50)%Z eqn:Elen; [discriminate H|].
  apply Z.ltb_ge in Elen.
  destruct (iloc df (-1)) as [last|] eqn:Elast; [cbn [bind] in H | discriminate H].
  destruct (iloc df (-2)) as [prev|] eqn:Eprev; [cbn [bind] in H | discriminate H].
  destruct (Qleb (close last) (open last)); [discriminate H|].
  destruct (Qeqb (volume prev) 0 || Qleb (volume last) (volume prev));
    [discriminate H|].
  cbv zeta in H.
  set (m := zmin 20 (len df - 30)) in *.
  assert (Hm : (m <= 20)%Z).
  { subst m. unfold zmin. destruct (len df - 30 <? 20)%Z eqn:E;
      [apply Z.ltb_lt in E|]; lia. }
  destruct (vb_scan volume_breakout_config df code last prev
              (zrange 2 (m + 1)) false None) as [[f b]|] eqn:Escan;
    [cbn [bind] in H | discriminate H].
  destruct f; [|discriminate H].
  destruct b as [b|]; [|discriminate H].
  injection H as ->.
  apply vb_scan_fold in Escan.
  2:{ intros j Hj. apply in_zrange in Hj. lia. }
  destruct Escan as (ods & HF & Hb & _).
  symmetry in Hb.
  destruct (fold_step_best ods None d Hb)
    as [[Hi _] | (pre & post & -> & _ & Hpre & Hpost)]; [discriminate Hi|].
  apply Forall2_app_inv_r in HF.
  destruct HF as (l1 & l2' & HF1 & HF2 & Hz).
  inversion HF2 as [|j od l2 post' Hj HF3]; subst.
  destruct (zrange_split _ _ _ _ _ Hz) as [-> ->].
  assert (Hin : In j (zrange 2 (m + 1)))
    by (rewrite Hz; apply in_or_app; right; left; reflexivity).
  apply in_zrange in Hin.
  exists last, prev, j.
  split; [reflexivity|]. split; [reflexivity|].
  split; [lia|]. split; [exact Hj|].
  assert (Hnear : forall k d',
             (2 <= k < j)%Z ->
             vb_candidate volume_breakout_config df code last prev
               (len df - 1 - k) = Ok (Some d') ->
             (score d' < score d)%Z).
  { intros k d' Hk Hc.
    assert (Hin1 : In k (zrange 2 j)) by (apply in_zrange; lia).
    destruct (Forall2_In_l _ _ _ _ HF1 Hin1) as (od & Hod & Hr).
    rewrite Hc in Hr. injection Hr as <-. apply Hpre, Hod. }
  split; [|exact Hnear].
  intros k d' Hk Hc.
  destruct (Z_lt_le_dec k j) as [L|L].
  - apply Z.lt_le_incl, (Hnear k d'); [lia | exact Hc].
  - destruct (Z.eq_dec k j) as [->|NE].
    + rewrite Hc in Hj. injection Hj as ->. lia.
    + assert (Hin2 : In k (zrange (j + 1) (m + 1))) by (apply in_zrange; lia).
      destruct (Forall2_In_l _ _ _ _ HF3 Hin2) as (od & Hod & Hr).
      rewrite Hc in Hr. injection Hr as <-. apply Hpost, Hod.
Qed.

Lemma vb_keeps_best_candidate_witness :
  (exists d d' last prev,
      check_volume_breakout_pattern (Some two_candidates) "600000"
      = Ok (Some d)
      /\ iloc two_candidates (-1) = Ok last
      /\ iloc two_candidates (-2) = Ok prev
      /\ vb_candidate volume_breakout_config two_candidates "600000" last
           prev (len two_candidates - 1 - 13) = Ok (Some d)
      /\ vb_candidate volume_breakout_config two_candidates "600000" last
           prev (len two_candidates - 1 - 6) = Ok (Some d')
      /\ score d = 56%Z /\ score d' = 51%Z
      /\ (score d' <= score d)%Z
      /\ (score d' < score d)%Z)
  /\ (exists d d' last prev,
        check_volume_breakout_pattern (Some tied_candidates) "600000"
        = Ok (Some d)
        /\ iloc tied_candidates (-1) = Ok last
        /\ iloc tied_candidates (-2) = Ok prev
        /\ vb_candidate volume_breakout_config tied_candidates "600000" last
             prev (len tied_candidates - 1 - 6) = Ok (Some d)
        /\ vb_candidate volume_breakout_config tied_candidates "600000" last
             prev (len tied_candidates - 1 - 13) = Ok (Some d')
        /\ score d = 56%Z /\ score d' = 56%Z
        /\ (score d' <= score d)%Z).
Proof.
  split.
  - eexists. eexists.
    exists (mkBar "bo" 118 121 118 121 2), (mkBar "d" 118 118 118 118 1).
    assert (H : check_volume_breakout_pattern (Some two_candidates) "600000"
                = Ok (Some _)) by (vm_compute; reflexivity).
    assert (E6 : vb_candidate volume_breakout_config two_candidates "600000"
                   (mkBar "bo" 118 121 118 121 2)
                   (mkBar "d" 118 118 118 118 1)
                   (len two_candidates - 1 - 6) = Ok (Some _))
      by (vm_compute; reflexivity).
    destruct (vb_keeps_best_candidate two_candidates "600000" _ H)
      as (last & prev & j & H1 & H2 & H3 & H4 & H5 & H6).
    vm_compute in H1. injection H1 as <-.
    vm_compute in H2. injection H2 as <-.
    change (zmin 20 (len two_candidates - 30)) with 20%Z in H3, H5.
    assert (Hj : j = 13%Z).
    { assert (C : (j = 2 \/ j = 3 \/ j = 4 \/ j = 5 \/ j = 6 \/ j = 7
                   \/ j = 8 \/ j = 9 \/ j = 10 \/ j = 11 \/ j = 12
                   \/ j = 13 \/ j = 14 \/ j = 15 \/ j = 16 \/ j = 17
                   \/ j = 18 \/ j = 19 \/ j = 20)%Z) by lia.
      repeat (destruct C as [C|C];
              [first [exact C
                     | subst j; vm_compute in H4; discriminate H4]|]).
      first [exact C | subst j; vm_compute in H4; discriminate H4]. }
    subst j.
    split; [exact H|]. split; [reflexivity|]. split; [reflexivity|].
    split; [exact H4|]. split; [exact E6|].
    split; [reflexivity|]. split; [reflexivity|].
    split.
    + apply (H5 6%Z); [lia | exact E6].
    + apply (H6 6%Z); [lia | exact E6].
  - eexists. eexists.
    exists (mkBar "bo" 118 121 118 121 2), (mkBar "d" 118 118 118 118 1).
    assert (H : check_volume_breakout_pattern (Some tied_candidates) "600000"
                = Ok (Some _)) by (vm_compute; reflexivity).
    assert (E13 : vb_candidate volume_breakout_config tied_candidates
                    "600000" (mkBar "bo" 118 121 118 121 2)
                    (mkBar "d" 118 118 118 118 1)
                    (len tied_candidates - 1 - 13) = Ok (Some _))
      by (vm_compute; reflexivity).
    destruct (vb_keeps_best_candidate tied_candidates "600000" _ H)
      as (last & prev & j & H1 & H2 & H3 & H4 & H5 & H6).
    vm_compute in H1. injection H1 as <-.
    vm_compute in H2. injection H2 as <-.
    change (zmin 20 (len tied_candidates - 30)) with 20%Z in H3, H5.
    assert (Hj : j = 6%Z).
    { assert (C : (j = 2 \/ j = 3 \/ j = 4 \/ j = 5 \/ j = 6 \/ j = 7
                   \/ j = 8 \/ j = 9 \/ j = 10 \/ j = 11 \/ j = 12
                   \/ j = 13 \/ j = 14 \/ j = 15 \/ j = 16 \/ j = 17
                   \/ j = 18 \/ j = 19 \/ j = 20)%Z) by lia.
      repeat (destruct C as [C|C];
              [first [exact C
                     | subst j; vm_compute in H4; discriminate H4]|]).
      first [exact C | subst j; vm_compute in H4; discriminate H4]. }
    subst j.
    split; [exact H|]. split; [reflexivity|]. split; [reflexivity|].
    split; [exact H4|]. split; [exact E13|].
    split; [reflexivity|]. split; [reflexivity|].
    apply (H5 13%Z); [lia | exact E13].
Defined.

(** C10. When the bar before the most recent one has volume exactly 0 the
    Volume-Breakout detector answers not-matched, with no fault, whatever
    the volume of the most recent bar; and whenever the detector matches,
    that volume is not 0, so the break-out volume ratio
    [last.volume / prev.volume] is a defined quotient. *)
Theorem vb_zero_prev_volume_not_matched :
  (forall (df : DataFrame) (code : string) (prev : bar),
      iloc df (-2) = Ok prev -> volume prev == 0 ->
      check_volume_breakout_pattern (Some df) code = Ok None)
  /\ (forall (df : DataFrame) (code : string) (d : detail),
        check_volume_breakout_pattern (Some df) code = Ok (Some d) ->
        exists last prev,
          iloc df (-1) = Ok last /\ iloc df (-2) = Ok prev
          /\ ~ volume prev == 0
          /\ fdiv (volume last) (volume prev)
             = Ok (volume last / volume prev)).
Proof.
  split.
  - intros df code prev Hprev Hz.
    unfold check_volume_breakout_pattern, check_volume_breakout_pattern_cfg.
    destruct (len df <? 50)%Z eqn:Elen; [reflexivity|].
    apply Z.ltb_ge in Elen.
    destruct (iloc_ok df (-1)) as [last Hlast];
      [pose proof (len_nonneg df); lia|].
    rewrite Hlast, Hprev. cbn [bind].
    destruct (Qleb (close last) (open last)); [reflexivity|].
    apply Qeqb_iff in Hz. rewrite Hz. reflexivity.
  - intros df code d H.
    unfold check_volume_breakout_pattern, check_volume_breakout_pattern_cfg in H.
    destruct (len df <? 50)%Z; [discriminate H|].
    destruct (iloc df (-1)) as [last|]; [cbn [bind] in H | discriminate H].
    destruct (iloc df (-2)) as [prev|]; [cbn [bind] in H | discriminate H].
    destruct (Qleb (close last) (open last)); [discriminate H|].
    destruct (Qeqb (volume prev) 0) eqn:Ez; [discriminate H|].
    exists last, prev. repeat split.
    + apply Qeqb_false, Ez.
    + unfold fdiv. rewrite Ez. reflexivity.
Qed.

Lemma vb_zero_prev_volume_not_matched_witness :
  check_volume_breakout_pattern (Some scenario_b_silent) "600000" = Ok None.
Proof.
  apply (proj1 vb_zero_prev_volume_not_matched scenario_b_silent
           "600000"%string (mkBar "q" 108 108 108 108 0)).
  - reflexivity.
  - reflexivity.
Defined.

(** The loop body of [_vb_find_consolidation], read through [judge]. *)
Lemma consol_loop_cons (cfg : config) (df : DataFrame) (e l : Z)
    (ls : list Z) (best : option consol) :
  consol_loop cfg df e (l :: ls) best =
  if (e - l + 1 <? 0)%Z then Ok best else
  v <- judge cfg df e l ;;
  match v with
  | Skipped => consol_loop cfg df e ls best
  | Within c => consol_loop cfg df e ls (Some c)
  | Exceeds =>
    match best with
    | Some _ => Ok best
    | None => consol_loop cfg df e ls best
    end
  end.
Proof.
  cbn [consol_loop]. unfold judge. cbv zeta.
  destruct (e - l + 1 <? 0)%Z; [reflexivity|].
  destruct (mean _) as [m|]; cbn [bind]; [|reflexivity].
  destruct (Qeqb m 0); [reflexivity|].
  destruct (smax _) as [hi|]; cbn [bind]; [|reflexivity].
  destruct (smin _) as [lo|]; cbn [bind]; [|reflexivity].
  destruct (fdiv _ _) as [q|]; cbn [bind]; [|reflexivity].
  destruct (Qleb _ _); reflexivity.
Qed.

Lemma judge_within_length (cfg : config) (df : DataFrame) (e l : Z)
    (c : consol) :
  judge cfg df e l = Ok (Within c) ->
  c_length c = l /\ c_start c = (e - l + 1)%Z /\ c_end c = e
  /\ c_range c <= consol_max_range_pct cfg.
Proof.
  unfold judge. intro H. bind_inv H. injection H as <-. cbn.
  repeat split. apply Qleb_iff. assumption.
Qed.

Section ConsolLoop.

Variable cfg : config.
Variable df : DataFrame.
Variable e : Z.
Variable upper : Z.
Hypothesis upper_le : (upper <= e + 1)%Z.

Lemma consol_loop_inv (k : nat) :
  forall (a : Z) (best r : option consol),
    Z.to_nat (upper - a) = k -> (0 <= a <= upper)%Z ->
    consol_loop cfg df e (zrange a upper) best = Ok r ->
    (r = best /\ kept_initial cfg df e upper a best)
    \/ (exists l c, r = Some c /\ kept_length cfg df e upper a best l c).
Proof.
  induction k as [|k IH]; intros a best r Hk Ha H.
  - rewrite zrange_nil in H by lia. injection H as <-.
    left. split; [reflexivity|]. exists a.
    split; [lia|]. split; [intros x Hx; lia | left; lia].
  - assert (Hlt : (a < upper)%Z) by lia.
    rewrite (zrange_cons a upper Hlt), consol_loop_cons in H.
    destruct (e - a + 1 <? 0)%Z eqn:Eb; [apply Z.ltb_lt in Eb; lia|].
    destruct (judge cfg df e a) as [v|] eqn:Ev; [cbn [bind] in H | discriminate H].
    assert (Hk' : Z.to_nat (upper - (a + 1)) = k) by lia.
    assert (Ha' : (0 <= a + 1 <= upper)%Z) by lia.
    destruct v as [|c0|].
    + (* the window is passed over *)
      destruct (IH _ _ _ Hk' Ha' H)
        as [[-> (stop & Hs & Hpre & Hstop)]
           | (l & c & -> & Hl & Hw & Hbefore & Hafter)].
      * left. split; [reflexivity|]. exists stop.
        split; [lia|]. split; [|exact Hstop].
        intros x Hx. destruct (Z.eq_dec x a) as [->|NE];
          [left; exact Ev | apply Hpre; lia].
      * right. exists l, c. split; [reflexivity|].
        split; [lia|]. split; [exact Hw|]. split; [|exact Hafter].
        intros x Hx Hex.
        destruct (Z.eq_dec x a) as [->|NE]; [congruence|].
        destruct (Hbefore x ltac:(lia) Hex) as [Hb Hno].
        split; [exact Hb|].
        intros y c' Hy. destruct (Z.eq_dec y a) as [->|NEy];
          [congruence | apply Hno; lia].
    + (* the window is within the bound *)
      destruct (IH _ _ _ Hk' Ha' H)
        as [[-> (stop & Hs & Hpre & Hstop)]
           | (l & c & -> & Hl & Hw & Hbefore & Hafter)].
      * right. exists a, c0. split; [reflexivity|].
        split; [lia|]. split; [exact Ev|]. split; [intros x Hx; lia|].
        exists stop. split.
        -- destruct Hstop as [->|[_ Hst]]; [lia|].
           destruct (Z.eq_dec stop upper); [lia|].
           destruct (Z.eq_dec stop (a + 1)); lia.
        -- split.
           ++ intros x Hx. destruct (Hpre x ltac:(lia)) as [Hx'|[Hx' _]];
                [exact Hx' | discriminate Hx'].
           ++ destruct Hstop as [->|[_ Hst]]; [left; reflexivity | right; exact Hst].
      * right. exists l, c. split; [reflexivity|].
        split; [lia|]. split; [exact Hw|]. split; [|exact Hafter].
        intros x Hx Hex.
        destruct (Z.eq_dec x a) as [->|NE]; [congruence|].
        destruct (Hbefore x ltac:(lia) Hex) as [Hb _]. discriminate Hb.
    + (* the window exceeds the bound *)
      destruct best as [b|].
      * injection H as <-. left. split; [reflexivity|].
        exists a. split; [lia|]. split; [intros x Hx; lia|].
        right. split; [discriminate | exact Ev].
      * destruct (IH _ _ _ Hk' Ha' H)
          as [[-> (stop & Hs & Hpre & Hstop)]
             | (l & c & -> & Hl & Hw & Hbefore & Hafter)].
        -- left. split; [reflexivity|]. exists stop.
           split; [lia|]. split; [|exact Hstop].
           intros x Hx. destruct (Z.eq_dec x a) as [->|NE];
             [right; split; [reflexivity | exact Ev] | apply Hpre; lia].
        -- right. exists l, c. split; [reflexivity|].
           split; [lia|]. split; [exact Hw|]. split; [|exact Hafter].
           intros x Hx Hex. split; [reflexivity|].
           intros y c' Hy.
           destruct (Z.eq_dec x a) as [->|NE]; [lia|].
           destruct (Z.eq_dec y a) as [->|NEy]; [congruence|].
           destruct (Hbefore x ltac:(lia) Hex) as [_ Hno]. apply Hno. lia.
Qed.

End ConsolLoop.

(** On windows that lie inside the frame the loop body never faults. *)
Lemma judge_total (cfg : config) (df : DataFrame) (e l : Z) :
  (0 <= e - l + 1 <= e)%Z -> (e < len df)%Z ->
  exists v, judge cfg df e l = Ok v.
Proof.
  intros Hl He. unfold judge. cbv zeta.
  assert (Hn : (0 < len (closes (islice df (e - l + 1) (e + 1))))%Z).
  { rewrite len_closes, len_islice; lia. }
  destruct (mean_ok _ Hn) as [m ->].
  destruct (smax_ok _ Hn) as [hi ->].
  destruct (smin_ok _ Hn) as [lo ->].
  cbn [bind].
  destruct (Qeqb m 0) eqn:Em; [eauto|].
  unfold fdiv. rewrite Em. cbn [bind].
  destruct (Qleb _ _); eauto.
Qed.

Lemma consol_loop_total (cfg : config) (df : DataFrame) (e : Z) :
  forall (ls : list Z) (best : option consol),
    (forall l, In l ls -> exists v, judge cfg df e l = Ok v) ->
    exists r, consol_loop cfg df e ls best = Ok r.
Proof.
  induction ls as [|l ls IH]; intros best Hj; [eexists; reflexivity|].
  rewrite consol_loop_cons.
  destruct (e - l + 1 <? 0)%Z; [eauto|].
  destruct (Hj l (or_introl eq_refl)) as [v ->]. cbn [bind].
  assert (Hj' : forall x, In x ls -> exists v, judge cfg df e x = Ok v)
    by (intros x Hx; apply Hj; right; exact Hx).
  destruct v as [|c|]; [apply IH | apply IH |]; try exact Hj'.
  destruct best; [eauto | apply IH; exact Hj'].
Qed.

(** The search returns, without fault, for every limit-up position inside
    the frame. *)
Lemma find_consolidation_total (df : DataFrame) (idx : Z) :
  (idx <= len df)%Z ->
  exists r, _vb_find_consolidation volume_breakout_config df idx = Ok r.
Proof.
  intro Hidx. unfold _vb_find_consolidation.
  cbn [consol_min_days volume_breakout_config]. cbv zeta.
  destruct (idx - 1 <? 22)%Z eqn:E; [eauto|].
  apply Z.ltb_ge in E.
  apply consol_loop_total.
  intros l Hl. apply in_zrange in Hl.
  assert (Hu : (zmin (idx - 1 + 1) 80 <= idx)%Z).
  { unfold zmin. destruct (80 <? idx - 1 + 1)%Z eqn:E8;
      [apply Z.ltb_lt in E8 | apply Z.ltb_ge in E8]; lia. }
  apply judge_total; lia.
Qed.

(** C4 (as the code has it). The pre-consolidation window ends at the bar
    before the limit-up bar and is grown over the lengths 22, 23, ... below
    min(consol_end + 1, 80); at each length the amplitude
    (max - min) / mean * 100 of the closes is tested against 15 (a window
    of zero mean is passed over).  A length that exceeds the bound stops
    the growth only when some shorter length was within it; the length
    returned is the last one found within the bound before that stop.
    No window is returned when consol_end < 22 or no tested length is
    within the bound. *)
Theorem find_consolidation_first_run (df : DataFrame) (idx : Z)
    (r : option consol) :
  _vb_find_consolidation volume_breakout_config df idx = Ok r ->
  let e := (idx - 1)%Z in
  let upper := zmin (e + 1) 80 in
  let J := judge volume_breakout_config df e in
  match r with
  | Some c =>
    (22 <= c_length c < upper)%Z
    /\ J (c_length c) = Ok (Within c)
    /\ c_start c = (e - c_length c + 1)%Z /\ c_end c = e
    /\ c_range c <= 15
    /\ (forall x, (22 <= x < c_length c)%Z -> J x = Ok Exceeds ->
          forall y c', (22 <= y < x)%Z -> J y <> Ok (Within c'))
    /\ exists stop,
         (c_length c < stop <= upper)%Z
         /\ (forall x, (c_length c < x < stop)%Z -> J x = Ok Skipped)
         /\ (stop = upper \/ J stop = Ok Exceeds)
  | None =>
    (e < 22)%Z
    \/ forall x c', (22 <= x < upper)%Z -> J x <> Ok (Within c')
  end.
Proof.
  unfold _vb_find_consolidation.
  cbn [consol_min_days volume_breakout_config]. cbv zeta.
  intro H.
  destruct (idx - 1 <? 22)%Z eqn:E.
  { injection H as <-. left. apply Z.ltb_lt in E. exact E. }
  apply Z.ltb_ge in E.
  set (e := (idx - 1)%Z) in *.
  set (upper := zmin (e + 1) 80) in *.
  assert (Hu : (22 <= upper <= e + 1)%Z).
  { subst upper. unfold zmin. destruct (80 <? e + 1)%Z eqn:E8;
      [apply Z.ltb_lt in E8 | apply Z.ltb_ge in E8]; lia. }
  apply (consol_loop_inv volume_breakout_config df e upper
           ltac:(lia) (Z.to_nat (upper - 22)) 22 None r eq_refl ltac:(lia))
    in H.
  destruct H as [[-> (stop & Hs & Hpre & Hstop)]
                | (l & c & -> & Hl & Hw & Hbefore & Hafter)].
  - right. intros x c' Hx Hc.
    destruct Hstop as [->|[Hn _]]; [|congruence].
    destruct (Hpre x Hx) as [Hx'|[_ Hx']]; congruence.
  - destruct (judge_within_length _ _ _ _ _ Hw) as (Hlen & Hst & Hen & Hrg).
    rewrite Hlen.
    split; [exact Hl|]. split; [exact Hw|].
    split; [exact Hst|]. split; [exact Hen|]. split; [exact Hrg|].
    split; [|exact Hafter].
    intros x Hx Hex y c' Hy. apply (Hbefore x Hx Hex). exact Hy.
Qed.

Lemma find_consolidation_first_run_witness :
  exists c,
    _vb_find_consolidation volume_breakout_config late_fit 52 = Ok (Some c)
    /\ c_length c = 51%Z
    /\ judge volume_breakout_config late_fit 51 22 = Ok Exceeds
    /\ judge volume_breakout_config late_fit 51 (c_length c) = Ok (Within c).
Proof.
  eexists.
  assert (H : _vb_find_consolidation volume_breakout_config late_fit 52
              = Ok (Some _)) by (vm_compute; reflexivity).
  split; [exact H|].
  split; [reflexivity|].
  split; [vm_compute; reflexivity|].
  exact (proj1 (proj2 (find_consolidation_first_run late_fit 52 _ H))).
Defined.

(** C4 as the specification states it fails.  On [late_fit] the 22-bar
    window exceeds the bound, so a search that stops at the first exceeding
    length keeps nothing; the code goes on and returns the 51-bar window.
    Both readings of the sentence are refuted: the code is not the search
    that stops at the first violation, and the length it returns is not
    always below every violating length. *)
Lemma find_consolidation_not_stop_at_first_violation :
  ~ (forall (df : DataFrame) (idx : Z),
        _vb_find_consolidation volume_breakout_config df idx
        = spec_find_consolidation volume_breakout_config df idx)
  /\ ~ (forall (df : DataFrame) (idx : Z) (c : consol),
          _vb_find_consolidation volume_breakout_config df idx = Ok (Some c) ->
          forall l, (22 <= l < c_length c)%Z ->
                    judge volume_breakout_config df (idx - 1) l <> Ok Exceeds).
Proof.
  split.
  - intro H. specialize (H late_fit 52%Z).
    vm_compute in H. discriminate H.
  - intro H.
    assert (E : exists c,
               _vb_find_consolidation volume_breakout_config late_fit 52
               = Ok (Some c) /\ c_length c = 51%Z)
      by (eexists; split; vm_compute; reflexivity).
    destruct E as [c [E L]].
    apply (H late_fit 52%Z c E 22%Z); [rewrite L; lia|].
    vm_compute. reflexivity.
Qed.

End VolumeBreakoutProps.

(** ** Strategy 3 *)

Module ShrinkBreakoutProps.
Import ShrinkBreakout.

Lemma sb_score_bounds (d : detail) : (0 <= _sb_calculate_score d <= 100)%Z.
Proof.
  unfold _sb_calculate_score. cbv zeta.
  match goal with
  | |- (_ <= zmin 100 (zmax 0 ?s) <= _)%Z => generalize s
  end.
  intro s. unfold zmin, zmax.
  destruct (0 <? s)%Z eqn:E0;
    [apply Z.ltb_lt in E0 | apply Z.ltb_ge in E0].
  - destruct (s <? 100)%Z eqn:E1;
      [apply Z.ltb_lt in E1 | apply Z.ltb_ge in E1]; lia.
  - cbn. lia.
Qed.

Lemma sb_matched_score_bounds (df : option DataFrame) (code : string)
    (d : detail) :
  check_shrink_breakout_pattern df code = Ok (Some d) ->
  (0 <= score d <= 100)%Z.
Proof.
  unfold check_shrink_breakout_pattern, check_shrink_breakout_pattern_cfg.
  destruct df as [df|]; [|discriminate].
  intro H. bind_inv H.
  injection H as <-. cbn [score set_score]. apply sb_score_bounds.
Qed.




End ShrinkBreakoutProps.

(** ** The three detectors together *)

Module Detectors.

(** C1. Whenever a detector reports a match, the score of the returned
    result is an integer between 0 and 100; this holds for the Reversal,
    the Volume-Breakout and the Shrink-Breakout detector, for every frame
    and symbol code. *)
Theorem matched_score_in_range (df : option DataFrame) (code : string) :
  (forall d, Reversal.check_reversal_pattern df = Ok (Some d) ->
             (0 <= Reversal.score d <= 100)%Z)
  /\ (forall d, VolumeBreakout.check_volume_breakout_pattern df code
                = Ok (Some d) ->
                (0 <= VolumeBreakout.score d <= 100)%Z)
  /\ (forall d, ShrinkBreakout.check_shrink_breakout_pattern df code
                = Ok (Some d) ->
                (0 <= ShrinkBreakout.score d <= 100)%Z).
Proof.
  split; [|split].
  - intros d H.
    destruct (ReversalProps.reversal_matched_inv df d H)
      as (c1 & c2 & g & e & g2 & c3 & s & _ & _ & _ & _ & _ & ->).
    unfold Reversal.reversal_score. cbv zeta.
    match goal with
    | |- (_ <= py_round (pmin 100 (pmax 0 ?x)) <= _)%Z =>
        pose proof (clamp_bounds x) as [Hlo Hhi]
    end.
    split; [apply py_round_lower | apply py_round_upper]; assumption.
  - intros d H. destruct df as [df|]; [|discriminate H].
    destruct (VolumeBreakoutProps.vb_matched_is_candidate df code d H)
      as (last & prev & i & Hc).
    exact (VolumeBreakoutProps.vb_candidate_score_bounds _ _ _ _ _ _ _ Hc).
  - intros d H.
    exact (ShrinkBreakoutProps.sb_matched_score_bounds df code d H).
Qed.

Lemma matched_score_in_range_witness :
  exists d1 d2 d3,
    Reversal.check_reversal_pattern (Some Reversal.scenario_a) = Ok (Some d1)
    /\ (0 <= Reversal.score d1 <= 100)%Z
    /\ VolumeBreakout.check_volume_breakout_pattern
         (Some VolumeBreakout.scenario_b) "600000" = Ok (Some d2)
    /\ (0 <= VolumeBreakout.score d2 <= 100)%Z
    /\ ShrinkBreakout.check_shrink_breakout_pattern
         (Some ShrinkBreakout.scenario_c) "600000" = Ok (Some d3)
    /\ (0 <= ShrinkBreakout.score d3 <= 100)%Z.
Proof.
  do 3 eexists.
  assert (H1 : Reversal.check_reversal_pattern (Some Reversal.scenario_a)
               = Ok (Some _)) by (vm_compute; reflexivity).
  assert (H2 : VolumeBreakout.check_volume_breakout_pattern
                 (Some VolumeBreakout.scenario_b) "600000" = Ok (Some _))
    by (vm_compute; reflexivity).
  assert (H3 : ShrinkBreakout.check_shrink_breakout_pattern
                 (Some ShrinkBreakout.scenario_c) "600000" = Ok (Some _))
    by (vm_compute; reflexivity).
  split; [exact H1|].
  split; [exact (proj1 (matched_score_in_range
                          (Some Reversal.scenario_a) "600000"%string) _ H1)|].
  split; [exact H2|].
  split; [exact (proj1 (proj2 (matched_score_in_range
                   (Some VolumeBreakout.scenario_b) "600000"%string)) _ H2)|].
  split; [exact H3|].
  exact (proj2 (proj2 (matched_score_in_range
           (Some ShrinkBreakout.scenario_c) "600000"%string)) _ H3).
Defined.

(** C5. A missing frame, and a frame shorter than the detector's minimum
    length (25 = 3 + prior_decline_days for Reversal, 50 for
    Volume-Breakout, 60 for Shrink-Breakout), is answered not-matched, with
    no fault. *)
Theorem short_series_not_matched :
  Reversal.check_reversal_pattern None = Ok None
  /\ (forall code,
        VolumeBreakout.check_volume_breakout_pattern None code = Ok None)
  /\ (forall code,
        ShrinkBreakout.check_shrink_breakout_pattern None code = Ok None)
  /\ (forall df, (len df < 25)%Z ->
                 Reversal.check_reversal_pattern (Some df) = Ok None)
  /\ (forall df code, (len df < 50)%Z ->
        VolumeBreakout.check_volume_breakout_pattern (Some df) code = Ok None)
  /\ (forall df code, (len df < 60)%Z ->
        ShrinkBreakout.check_shrink_breakout_pattern (Some df) code = Ok None).
Proof.
  split; [reflexivity|]. split; [reflexivity|]. split; [reflexivity|].
  split; [|split].
  - intros df H.
    unfold Reversal.check_reversal_pattern, Reversal.check_reversal_pattern_cfg.
    cbn [Reversal.prior_decline_days Reversal.reversal_config]. cbv zeta.
    apply Z.ltb_lt in H. change (3 + 22)%Z with 25%Z. rewrite H. reflexivity.
  - intros df code H.
    unfold VolumeBreakout.check_volume_breakout_pattern,
      VolumeBreakout.check_volume_breakout_pattern_cfg.
    apply Z.ltb_lt in H. rewrite H. reflexivity.
  - intros df code H.
    unfold ShrinkBreakout.check_shrink_breakout_pattern,
      ShrinkBreakout.check_shrink_breakout_pattern_cfg.
    apply Z.ltb_lt in H. rewrite H. reflexivity.
Qed.

Lemma short_series_not_matched_witness :
  Reversal.check_reversal_pattern (Some (flat 24 10 1)) = Ok None
  /\ VolumeBreakout.check_volume_breakout_pattern
       (Some (flat 49 10 1)) "600000" = Ok None
  /\ ShrinkBreakout.check_shrink_breakout_pattern
       (Some (flat 59 10 1)) "600000" = Ok None.
Proof.
  pose proof short_series_not_matched as (_ & _ & _ & H1 & H2 & H3).
  split; [apply H1; reflexivity|].
  split; [apply H2; reflexivity | apply H3; reflexivity].
Defined.

End Detectors.

(** ** The resonance table *)

Module AggregatorProps.
Import Aggregator.

(** *** Stable descending sort *)

Section SortedDesc.

Context {A : Type}.
Variable key : A -> Z.

Lemma in_insert_desc (a x : A) (l : list A) :
  In x (insert_desc key a l) <-> x = a \/ In x l.
Proof.
  induction l as [|y t IH]; cbn.
  - intuition.
  - destruct (key a <? key y)%Z; cbn; [rewrite IH|]; intuition.
Qed.

Lemma in_sorted_desc (x : A) (l : list A) :
  In x (sorted_desc key l) <-> In x l.
Proof.
  induction l as [|a l IH]; cbn; [reflexivity|].
  rewrite in_insert_desc, IH. intuition.
Qed.

Lemma insert_desc_sorted (a : A) (l : list A) :
  StronglySorted (desc key) l -> StronglySorted (desc key) (insert_desc key a l).
Proof.
  induction 1 as [|y t Ht IH Hy]; cbn.
  - constructor; constructor.
  - destruct (key a <? key y)%Z eqn:E.
    + apply Z.ltb_lt in E. constructor; [exact IH|].
      apply Forall_forall. intros x Hx.
      apply in_insert_desc in Hx. destruct Hx as [->|Hx].
      * unfold desc. lia.
      * rewrite Forall_forall in Hy. apply Hy, Hx.
    + apply Z.ltb_ge in E. constructor.
      * constructor; assumption.
      * constructor; [exact E|].
        rewrite Forall_forall in *. intros x Hx.
        specialize (Hy x Hx). unfold desc in *. lia.
Qed.

Lemma sorted_desc_sorted (l : list A) : StronglySorted (desc key) (sorted_desc key l).
Proof.
  induction l as [|a l IH]; cbn; [constructor|].
  apply insert_desc_sorted, IH.
Qed.

Lemma insert_desc_perm (a : A) (l : list A) :
  Permutation (insert_desc key a l) (a :: l).
Proof.
  induction l as [|y t IH]; cbn; [reflexivity|].
  destruct (key a <? key y)%Z; [|reflexivity].
  rewrite IH. apply perm_swap.
Qed.

Lemma sorted_desc_perm (l : list A) : Permutation (sorted_desc key l) l.
Proof.
  induction l as [|a l IH]; cbn; [reflexivity|].
  rewrite insert_desc_perm. constructor. exact IH.
Qed.

(** Stability: the items of one key keep their order. *)
Lemma filter_insert_desc (k : Z) (a : A) (l : list A) :
  filter (fun x => (key x =? k)%Z) (insert_desc key a l)
  = filter (fun x => (key x =? k)%Z) (a :: l).
Proof.
  induction l as [|y t IH]; [reflexivity|].
  cbn [insert_desc]. destruct (key a <? key y)%Z eqn:E; [|reflexivity].
  apply Z.ltb_lt in E. cbn [filter] in *. rewrite IH.
  destruct (key a =? k)%Z eqn:Ea; [|reflexivity].
  destruct (key y =? k)%Z eqn:Ey; [|reflexivity].
  apply Z.eqb_eq in Ea, Ey. lia.
Qed.

Lemma filter_sorted_desc (k : Z) (l : list A) :
  filter (fun x => (key x =? k)%Z) (sorted_desc key l)
  = filter (fun x => (key x =? k)%Z) l.
Proof.
  induction l as [|a l IH]; [reflexivity|].
  cbn [sorted_desc fold_right]. rewrite filter_insert_desc.
  cbn [filter]. fold (sorted_desc key l). rewrite IH. reflexivity.
Qed.

End SortedDesc.

(** *** The hit map as a dictionary *)

Lemma mem_key_find (k : string) (m : hit_map_t) :
  mem_key k m = match find_entry k m with Some _ => true | None => false end.
Proof.
  induction m as [|[k' e] t IH]; cbn; [reflexivity|].
  destruct (String.eqb k k'); [reflexivity | exact IH].
Qed.

Lemma mem_key_in (k : string) (m : hit_map_t) :
  mem_key k m = true <-> In k (map fst m).
Proof.
  induction m as [|[k' e] t IH]; cbn; [intuition discriminate|].
  destruct (String.eqb_spec k k') as [->|NE].
  - intuition.
  - rewrite IH. intuition congruence.
Qed.

Lemma find_update (c k : string) (f : entry -> entry) (m : hit_map_t) :
  find_entry c (update k f m)
  = if String.eqb c k then option_map f (find_entry c m)
    else find_entry c m.
Proof.
  induction m as [|[k' e] t IH]; cbn.
  - destruct (String.eqb c k); reflexivity.
  - destruct (String.eqb_spec k k') as [->|NE]; cbn.
    + destruct (String.eqb c k'); reflexivity.
    + rewrite IH. destruct (String.eqb_spec c k') as [->|NE'].
      * destruct (String.eqb_spec k' k) as [E|_]; [congruence | reflexivity].
      * reflexivity.
Qed.

Lemma find_app_last (c k : string) (e : entry) (m : hit_map_t) :
  find_entry c (m ++ [(k, e)])
  = match find_entry c m with
    | Some x => Some x
    | None => if String.eqb c k then Some e else None
    end.
Proof.
  induction m as [|[k' e'] t IH]; cbn; [reflexivity|].
  destruct (String.eqb c k'); [reflexivity | exact IH].
Qed.

Lemma keys_update (k : string) (f : entry -> entry) (m : hit_map_t) :
  map fst (update k f m) = map fst m.
Proof.
  induction m as [|[k' e] t IH]; cbn; [reflexivity|].
  destruct (String.eqb k k'); cbn; [reflexivity | rewrite IH; reflexivity].
Qed.

Lemma keys_record_hit (s : strategy) (m : hit_map_t) (r : hit) :
  map fst (record_hit s m r)
  = if mem_key (code r) m then map fst m else map fst m ++ [code r].
Proof.
  unfold record_hit. rewrite keys_update.
  destruct (mem_key (code r) m); [reflexivity|].
  rewrite map_app. reflexivity.
Qed.

Lemma strat_record_hit (c : string) (s : strategy) (m : hit_map_t) (r : hit) :
  strat_of c (record_hit s m r)
  = strat_of c m ++ (if String.eqb c (code r) then [s] else []).
Proof.
  unfold strat_of, record_hit. rewrite find_update.
  rewrite (mem_key_find (code r) m).
  destruct (String.eqb_spec c (code r)) as [->|NE].
  - destruct (find_entry (code r) m) as [e|] eqn:Ef.
    + rewrite Ef. reflexivity.
    + rewrite find_app_last, Ef, String.eqb_refl. reflexivity.
  - rewrite app_nil_r.
    destruct (find_entry (code r) m) as [e|]; [reflexivity|].
    rewrite find_app_last.
    destruct (find_entry c m); [reflexivity|].
    destruct (String.eqb_spec c (code r)); [contradiction | reflexivity].
Qed.

Lemma strat_fold (c : string) (s : strategy) (rs : list hit) :
  forall m,
    strat_of c (fold_left (record_hit s) rs m)
    = strat_of c m
      ++ flat_map (fun r => if String.eqb c (code r) then [s] else []) rs.
Proof.
  induction rs as [|r rs IH]; intro m; cbn.
  - rewrite app_nil_r. reflexivity.
  - rewrite IH, strat_record_hit, <- app_assoc. reflexivity.
Qed.

Lemma has_code_in (c : string) (rs : list hit) :
  has_code c rs = true <-> In c (map code rs).
Proof.
  unfold has_code. rewrite existsb_exists, in_map_iff. split.
  - intros [r [Hr E]]. apply String.eqb_eq in E. eauto.
  - intros [r [E Hr]]. exists r. split; [exact Hr|].
    apply String.eqb_eq. congruence.
Qed.

(** A result list that names each symbol once adds a detector once. *)
Lemma flat_map_once (c : string) (s : strategy) (rs : list hit) :
  NoDup (map code rs) ->
  flat_map (fun r => if String.eqb c (code r) then [s] else []) rs
  = if has_code c rs then [s] else [].
Proof.
  induction rs as [|r rs IH]; intro Hnd; [reflexivity|].
  cbn [map] in Hnd. apply NoDup_cons_iff in Hnd. destruct Hnd as [Hnin Hnd].
  cbn [flat_map]. rewrite (IH Hnd).
  unfold has_code at 2. cbn [existsb]. fold (has_code c rs).
  destruct (String.eqb_spec c (code r)) as [->|NE]; cbn.
  - destruct (has_code (code r) rs) eqn:Eh; [|reflexivity].
    apply has_code_in in Eh. contradiction.
  - reflexivity.
Qed.

Lemma strat_build (rv vl sh : list hit) (c : string) :
  NoDup (map code rv) -> NoDup (map code vl) -> NoDup (map code sh) ->
  strat_of c (build_hit_map rv vl sh) = hitting rv vl sh c.
Proof.
  intros H1 H2 H3. unfold build_hit_map, hitting. cbv zeta.
  rewrite !strat_fold, !flat_map_once by assumption.
  cbn. rewrite <- app_assoc. reflexivity.
Qed.

Lemma keys_fold_nodup (s : strategy) (rs : list hit) :
  forall m, NoDup (map fst m) ->
            NoDup (map fst (fold_left (record_hit s) rs m)).
Proof.
  induction rs as [|r rs IH]; intros m Hm; cbn; [exact Hm|].
  apply IH. rewrite keys_record_hit.
  destruct (mem_key (code r) m) eqn:E; [exact Hm|].
  assert (Hn : ~ In (code r) (map fst m)).
  { intro Hin. apply mem_key_in in Hin. congruence. }
  clear - Hm Hn. induction (map fst m) as [|k ks IHk]; cbn.
  - constructor; [intros [] | constructor].
  - apply NoDup_cons_iff in Hm. destruct Hm as [Hk Hks].
    constructor.
    + rewrite in_app_iff. cbn. intros [Hin|[E|[]]]; [contradiction|].
      apply Hn. left. symmetry. exact E.
    + apply IHk; [exact Hks|]. intro Hin. apply Hn. right. exact Hin.
Qed.

Lemma keys_build_nodup (rv vl sh : list hit) :
  NoDup (map fst (build_hit_map rv vl sh)).
Proof.
  unfold build_hit_map. cbv zeta.
  do 3 apply keys_fold_nodup. constructor.
Qed.

Lemma find_of_in (c : string) (e : entry) (m : hit_map_t) :
  NoDup (map fst m) -> In (c, e) m -> find_entry c m = Some e.
Proof.
  induction m as [|[k' e'] t IH]; intros Hnd Hin; [contradiction|].
  cbn [map fst] in Hnd. apply NoDup_cons_iff in Hnd. destruct Hnd as [Hk Ht].
  cbn. destruct Hin as [E|Hin].
  - injection E as -> ->. rewrite String.eqb_refl. reflexivity.
  - destruct (String.eqb_spec c k') as [->|NE].
    + exfalso. apply Hk. apply in_map_iff. exists (k', e). split; auto.
    + apply IH; assumption.
Qed.

Lemma in_of_find (c : string) (e : entry) (m : hit_map_t) :
  find_entry c m = Some e -> In (c, e) m.
Proof.
  induction m as [|[k' e'] t IH]; cbn; [discriminate|].
  destruct (String.eqb_spec c k') as [->|NE].
  - intro H. injection H as ->. left. reflexivity.
  - intro H. right. apply IH, H.
Qed.

Lemma keys_filter_nodup (f : string * entry -> bool) (m : hit_map_t) :
  NoDup (map fst m) -> NoDup (map fst (filter f m)).
Proof.
  induction m as [|kv t IH]; intro Hnd; [constructor|].
  cbn [map] in Hnd. apply NoDup_cons_iff in Hnd. destruct Hnd as [Hk Ht].
  cbn [filter]. destruct (f kv); [|apply IH, Ht].
  cbn [map]. constructor; [|apply IH, Ht].
  intro Hin. apply Hk. apply in_map_iff in Hin.
  destruct Hin as [x [Ex Hx]]. apply filter_In in Hx.
  apply in_map_iff. exists x. tauto.
Qed.

(** The keys of the map are the symbols in order of first appearance. *)
Lemma mem_key_existsb (k : string) (m : hit_map_t) :
  mem_key k m = existsb (String.eqb k) (map fst m).
Proof.
  induction m as [|[k' e] t IH]; cbn; [reflexivity|].
  destruct (String.eqb k k'); [reflexivity | exact IH].
Qed.

Lemma keys_fold (s : strategy) (rs : list hit) :
  forall m,
    map fst (fold_left (record_hit s) rs m)
    = fold_left
        (fun acc c => if existsb (String.eqb c) acc then acc else acc ++ [c])
        (map code rs) (map fst m).
Proof.
  induction rs as [|r rs IH]; intro m; cbn; [reflexivity|].
  rewrite IH, keys_record_hit, mem_key_existsb. reflexivity.
Qed.

Lemma keys_build (rv vl sh : list hit) :
  map fst (build_hit_map rv vl sh) = first_seen (map code (rv ++ vl ++ sh)).
Proof.
  unfold build_hit_map, first_seen. cbv zeta.
  rewrite !map_app, !fold_left_app, !keys_fold. reflexivity.
Qed.

(** C2 (as the code has it). When each detector's result list names a
    symbol at most once, the resonance table holds exactly the symbols hit
    by at least two detectors, each once and with the detectors that hit
    it; its rows are in descending order of hit count, and rows of equal
    hit count keep the order in which their symbols entered the hit map,
    which is the order of first appearance in the Reversal, then the
    Volume-Breakout, then the Shrink-Breakout result list.  Scores play no
    part in the order. *)
Theorem resonance_by_hit_count (rv vl sh : list hit) :
  NoDup (map code rv) -> NoDup (map code vl) -> NoDup (map code sh) ->
  let hit_map := build_hit_map rv vl sh in
  let rows := resonance rv vl sh in
  (forall c, In c (map fst rows) <-> (2 <= len (hitting rv vl sh c))%Z)
  /\ NoDup (map fst rows)
  /\ (forall c e, In (c, e) rows -> strategies e = hitting rv vl sh c)
  /\ StronglySorted (desc hit_count) rows
  /\ (forall k,
        filter (fun kv => (hit_count kv =? k)%Z) rows
        = filter (fun kv => (hit_count kv =? k)%Z) (multi_hit hit_map))
  /\ map fst hit_map = first_seen (map code (rv ++ vl ++ sh)).
Proof.
  intros H1 H2 H3. cbv zeta.
  pose proof (keys_build_nodup rv vl sh) as Hnd.
  pose proof (fun c => strat_build rv vl sh c H1 H2 H3) as Hst.
  assert (Hrow : forall c e,
             In (c, e) (resonance rv vl sh) <->
             In (c, e) (build_hit_map rv vl sh)
             /\ (2 <= len (strategies e))%Z).
  { intros c e. unfold resonance, multi_hit.
    rewrite in_sorted_desc, filter_In. unfold hit_count. cbn [snd].
    rewrite Z.leb_le. reflexivity. }
  assert (Hse : forall c e,
             In (c, e) (build_hit_map rv vl sh) ->
             strategies e = hitting rv vl sh c).
  { intros c e Hin. rewrite <- Hst. unfold strat_of.
    rewrite (find_of_in c e _ Hnd Hin). reflexivity. }
  split; [|split; [|split; [|split; [|split]]]].
  - intro c. rewrite in_map_iff. split.
    + intros [[c' e] [E Hin]]. cbn in E. subst c'.
      apply Hrow in Hin. destruct Hin as [Hin Hlen].
      rewrite <- (Hse c e Hin). exact Hlen.
    + intro Hlen. rewrite <- Hst in Hlen. unfold strat_of in Hlen.
      destruct (find_entry c (build_hit_map rv vl sh)) as [e|] eqn:Ef.
      * exists (c, e). split; [reflexivity|].
        apply Hrow. split; [apply in_of_find, Ef | exact Hlen].
      * cbn in Hlen. lia.
  - unfold resonance.
    apply (Permutation_NoDup
             (l := map fst (multi_hit (build_hit_map rv vl sh)))).
    + apply Permutation_map. symmetry. apply sorted_desc_perm.
    + apply keys_filter_nodup, Hnd.
  - intros c e Hin. apply Hrow in Hin. apply Hse, Hin.
  - apply sorted_desc_sorted.
  - intro k. apply filter_sorted_desc.
  - apply keys_build.
Qed.

Lemma resonance_by_hit_count_witness :
  map fst (resonance ex_reversal ex_volume ex_shrink)
  = ["000001"%string; "000002"%string]
  /\ StronglySorted (desc hit_count)
       (resonance ex_reversal ex_volume ex_shrink).
Proof.
  split; [reflexivity|].
  refine (proj1 (proj2 (proj2 (proj2
            (resonance_by_hit_count ex_reversal ex_volume ex_shrink _ _ _))))).
  - repeat constructor; cbn; intuition discriminate.
  - repeat constructor; cbn; intuition discriminate.
  - repeat constructor; cbn; intuition discriminate.
Defined.

(** C2 as the specification states it fails: symbol 000001 (two hits, best
    score 50) is listed before symbol 000002 (two hits, best score 90),
    because it entered the hit map first. *)
Lemma resonance_not_sorted_by_score :
  ~ Sorted spec_before (resonance ex_reversal ex_volume ex_shrink).
Proof.
  intro H.
  remember (resonance ex_reversal ex_volume ex_shrink) as rows eqn:E.
  vm_compute in E. subst rows.
  inversion H as [|a l _ Hd]; subst.
  inversion Hd as [|b l' Hb]; subst.
  unfold spec_before, hit_count, max_score, len in Hb. cbn in Hb. lia.
Qed.

End AggregatorProps.

(** * Further properties of the source *)

(** ** Rounding and window extrema *)

Lemma py_round_eq (x y : Q) : x == y -> py_round x = py_round y.
Proof.
  intro E. apply Z.le_antisymm; apply py_round_mono; rewrite E; apply Qle_refl.
Qed.

Lemma pow10_pos (k : nat) : 0 < inject_Z (10 ^ Z.of_nat k).
Proof.
  change 0 with (inject_Z 0). rewrite <- Zlt_Qlt.
  apply Z.pow_pos_nonneg; lia.
Qed.

(** Rounding to [k] decimals does not cross a bound that has at most [k]
    decimals itself. *)
Lemma py_round_n_lower (z : Z) (k : nat) (x : Q) :
  inject_Z z / inject_Z (10 ^ Z.of_nat k) <= x ->
  inject_Z z / inject_Z (10 ^ Z.of_nat k) <= py_round_n x k.
Proof.
  intro H. unfold py_round_n. cbv zeta.
  pose proof (pow10_pos k) as Hp.
  set (p := inject_Z (10 ^ Z.of_nat k)) in *.
  unfold Qdiv. apply Qmult_le_compat_r.
  - rewrite <- Zle_Qle. apply py_round_lower.
    pose proof (Qmult_le_compat_r _ _ p H (Qlt_le_weak _ _ Hp)) as H'.
    assert (E : inject_Z z / p * p == inject_Z z) by (field; intro; lra).
    rewrite E in H'. exact H'.
  - apply Qlt_le_weak, Qinv_lt_0_compat, Hp.
Qed.

Lemma py_round_n_upper (z : Z) (k : nat) (x : Q) :
  x <= inject_Z z / inject_Z (10 ^ Z.of_nat k) ->
  py_round_n x k <= inject_Z z / inject_Z (10 ^ Z.of_nat k).
Proof.
  intro H. unfold py_round_n. cbv zeta.
  pose proof (pow10_pos k) as Hp.
  set (p := inject_Z (10 ^ Z.of_nat k)) in *.
  unfold Qdiv. apply Qmult_le_compat_r.
  - rewrite <- Zle_Qle. apply py_round_upper.
    pose proof (Qmult_le_compat_r _ _ p H (Qlt_le_weak _ _ Hp)) as H'.
    assert (E : inject_Z z / p * p == inject_Z z) by (field; intro; lra).
    rewrite E in H'. exact H'.
  - apply Qlt_le_weak, Qinv_lt_0_compat, Hp.
Qed.

Lemma fold_pmax_spec (l : list Q) :
  forall a, (a <= fold_left pmax l a)
            /\ (forall x, In x l -> x <= fold_left pmax l a)
            /\ (fold_left pmax l a = a \/ In (fold_left pmax l a) l).
Proof.
  induction l as [|y l IH]; intro a; cbn.
  - split; [lra|]. split; [intros x []|left; reflexivity].
  - destruct (IH (pmax a y)) as (H1 & H2 & H3).
    pose proof (pmax_ge_l a y). pose proof (pmax_ge_r a y).
    split; [lra|]. split.
    + intros x [<-|Hx]; [lra | apply H2, Hx].
    + destruct H3 as [E|Hin]; [|right; right; exact Hin].
      rewrite E. unfold pmax. destruct (Qltb a y);
        [right; left; reflexivity | left; reflexivity].
Qed.

Lemma fold_pmin_spec (l : list Q) :
  forall a, (fold_left pmin l a <= a)
            /\ (forall x, In x l -> fold_left pmin l a <= x)
            /\ (fold_left pmin l a = a \/ In (fold_left pmin l a) l).
Proof.
  induction l as [|y l IH]; intro a; cbn.
  - split; [lra|]. split; [intros x []|left; reflexivity].
  - destruct (IH (pmin a y)) as (H1 & H2 & H3).
    pose proof (pmin_le_l a y). pose proof (pmin_le_r a y).
    split; [lra|]. split.
    + intros x [<-|Hx]; [lra | apply H2, Hx].
    + destruct H3 as [E|Hin]; [|right; right; exact Hin].
      rewrite E. unfold pmin. destruct (Qltb y a);
        [right; left; reflexivity | left; reflexivity].
Qed.

(** [Series.max()] is a member of the window and bounds it from above. *)
Lemma smax_spec (l : list Q) (m : Q) :
  smax l = Ok m -> In m l /\ forall x, In x l -> x <= m.
Proof.
  destruct l as [|a l]; [discriminate|]. cbn. intro H. injection H as <-.
  destruct (fold_pmax_spec l a) as (H1 & H2 & H3). split.
  - destruct H3 as [->|Hin]; [left; reflexivity | right; exact Hin].
  - intros x [<-|Hx]; [exact H1 | apply H2, Hx].
Qed.

Lemma smin_spec (l : list Q) (m : Q) :
  smin l = Ok m -> In m l /\ forall x, In x l -> m <= x.
Proof.
  destruct l as [|a l]; [discriminate|]. cbn. intro H. injection H as <-.
  destruct (fold_pmin_spec l a) as (H1 & H2 & H3). split.
  - destruct H3 as [->|Hin]; [left; reflexivity | right; exact Hin].
  - intros x [<-|Hx]; [exact H1 | apply H2, Hx].
Qed.

Lemma fdiv_ok (x y q : Q) : fdiv x y = Ok q -> q = x / y /\ ~ y == 0.
Proof.
  unfold fdiv. destruct (Qeqb y 0) eqn:E; [discriminate|].
  intro H. injection H as <-. split; [reflexivity | apply Qeqb_false, E].
Qed.

(** The same for a bound [b] given as a rational with [k] decimals. *)
Lemma round_n_ge (b : Q) (z : Z) (k : nat) (x : Q) :
  b == inject_Z z / inject_Z (10 ^ Z.of_nat k) ->
  b <= x -> b <= py_round_n x k.
Proof.
  intros E H. rewrite E in *. apply py_round_n_lower, H.
Qed.

Lemma round_n_le (b : Q) (z : Z) (k : nat) (x : Q) :
  b == inject_Z z / inject_Z (10 ^ Z.of_nat k) ->
  x <= b -> py_round_n x k <= b.
Proof.
  intros E H. rewrite E in *. apply py_round_n_upper, H.
Qed.

Lemma abs_round_n_le (b : Q) (z : Z) (k : nat) (x : Q) :
  b == inject_Z z / inject_Z (10 ^ Z.of_nat k) ->
  Qabs x <= b -> Qabs (py_round_n x k) <= b.
Proof.
  intros E H. apply Qabs_Qle_condition in H. destruct H as [Hl Hu].
  apply Qabs_Qle_condition. split.
  - apply (round_n_ge (- b) (- z) k); [|exact Hl].
    rewrite E, inject_Z_opp. field. intro Hp.
    pose proof (pow10_pos k). lra.
  - apply (round_n_le b z k); assumption.
Qed.

Lemma abs_round_n_ge (b : Q) (z : Z) (k : nat) (x : Q) :
  b == inject_Z z / inject_Z (10 ^ Z.of_nat k) ->
  0 <= b -> b <= Qabs x -> b <= Qabs (py_round_n x k).
Proof.
  intros E Hb H.
  destruct (Qlt_le_dec x 0) as [Hx|Hx].
  - rewrite Qabs_neg in H by lra.
    assert (Hr : py_round_n x k <= - b).
    { apply (round_n_le (- b) (- z) k); [|lra].
      rewrite E, inject_Z_opp. field. intro Hp.
      pose proof (pow10_pos k). lra. }
    rewrite Qabs_neg by lra. lra.
  - rewrite Qabs_pos in H by exact Hx.
    assert (Hr : b <= py_round_n x k)
      by (apply (round_n_ge b z k); assumption).
    rewrite Qabs_pos by lra. exact Hr.
Qed.

(** ** The score formulas *)

Module ScoreFacts.
Import VolumeBreakout ScoreTerms.

Lemma clamp01 (r : Q) : 0 <= pmax 0 (pmin 1 r) <= 1.
Proof.
  split; [apply pmax_ge_l|].
  apply pmax_lub; [lra | apply pmin_le_l].
Qed.

Lemma linear_map_bounds (value low high score_low score_high : Q) :
  score_low <= score_high ->
  score_low <= _linear_map value low high score_low score_high <= score_high.
Proof.
  intro H. unfold _linear_map.
  destruct (Qeqb high low).
  - destruct (Qleb high value); lra.
  - cbv zeta.
    pose proof (clamp01 ((value - low) / (high - low))) as [H0 H1].
    set (r := pmax 0 (pmin 1 ((value - low) / (high - low)))) in *.
    assert (Hd : 0 <= score_high - score_low) by lra.
    pose proof (Qmult_le_0_compat _ _ H0 Hd).
    pose proof (Qmult_le_compat_r _ _ _ H1 Hd).
    lra.
Qed.

(** X1. [_linear_map] stays between its two scores (given in ascending
    order); on an ascending range [low < high] it is non-decreasing in
    [value], gives [score_low] at and below [low] and [score_high] at and
    above [high]; on a descending range [high < low], as dimension 4 of the
    Volume-Breakout score uses it, it gives [score_low] at and above [low]
    and [score_high] at and below [high]. *)
Theorem linear_map_clamps (low high score_low score_high : Q) :
  score_low <= score_high ->
  (forall value,
      score_low <= _linear_map value low high score_low score_high
      <= score_high)
  /\ (low < high ->
      (forall v v', v <= v' ->
         _linear_map v low high score_low score_high
         <= _linear_map v' low high score_low score_high)
      /\ (forall v, v <= low ->
            _linear_map v low high score_low score_high == score_low)
      /\ (forall v, high <= v ->
            _linear_map v low high score_low score_high == score_high))
  /\ (high < low ->
      (forall v, low <= v ->
         _linear_map v low high score_low score_high == score_low)
      /\ (forall v, v <= high ->
            _linear_map v low high score_low score_high == score_high)).
Proof.
  intro Hs. split; [intro v; apply linear_map_bounds, Hs|].
  assert (Hd : 0 <= score_high - score_low) by lra.
  split.
  - intro Hlh.
    assert (Hne : Qeqb high low = false) by (apply Qeqb_false; lra).
    assert (Hpos : 0 < high - low) by lra.
    split; [|split].
    + intros v v' Hv. unfold _linear_map. rewrite Hne. cbv zeta.
      assert (Hr : (v - low) / (high - low) <= (v' - low) / (high - low)).
      { unfold Qdiv. apply Qmult_le_compat_r; [lra|].
        apply Qlt_le_weak, Qinv_lt_0_compat, Hpos. }
      assert (Hc : pmax 0 (pmin 1 ((v - low) / (high - low)))
                   <= pmax 0 (pmin 1 ((v' - low) / (high - low))))
        by (apply pmax_mono; [lra | apply pmin_mono; [lra | exact Hr]]).
      pose proof (Qmult_le_compat_r _ _ _ Hc Hd). lra.
    + intros v Hv. unfold _linear_map. rewrite Hne. cbv zeta.
      assert (Hr : (v - low) / (high - low) <= 0).
      { apply Qle_shift_div_r; [exact Hpos | lra]. }
      assert (Hc : pmax 0 (pmin 1 ((v - low) / (high - low))) == 0).
      { apply Qle_antisym; [|apply pmax_ge_l].
        apply pmax_lub; [lra|].
        pose proof (pmin_le_r 1 ((v - low) / (high - low))). lra. }
      rewrite Hc. lra.
    + intros v Hv. unfold _linear_map. rewrite Hne. cbv zeta.
      assert (Hr : 1 <= (v - low) / (high - low)).
      { apply Qle_shift_div_l; [exact Hpos | lra]. }
      assert (Hc : pmax 0 (pmin 1 ((v - low) / (high - low))) == 1).
      { apply Qle_antisym; [apply clamp01|].
        eapply Qle_trans; [|apply pmax_ge_r]. apply pmin_glb; lra. }
      rewrite Hc. lra.
  - intro Hhl.
    assert (Hne : Qeqb high low = false) by (apply Qeqb_false; lra).
    assert (Hpos : 0 < low - high) by lra.
    assert (Hflip : forall v, (v - low) / (high - low)
                              == (low - v) / (low - high)).
    { intro v. field. lra. }
    split.
    + intros v Hv. unfold _linear_map. rewrite Hne. cbv zeta.
      assert (Hr : (v - low) / (high - low) <= 0).
      { rewrite Hflip. apply Qle_shift_div_r; [exact Hpos | lra]. }
      assert (Hc : pmax 0 (pmin 1 ((v - low) / (high - low))) == 0).
      { apply Qle_antisym; [|apply pmax_ge_l].
        apply pmax_lub; [lra|].
        pose proof (pmin_le_r 1 ((v - low) / (high - low))). lra. }
      rewrite Hc. lra.
    + intros v Hv. unfold _linear_map. rewrite Hne. cbv zeta.
      assert (Hr : 1 <= (v - low) / (high - low)).
      { rewrite Hflip. apply Qle_shift_div_l; [exact Hpos | lra]. }
      assert (Hc : pmax 0 (pmin 1 ((v - low) / (high - low))) == 1).
      { apply Qle_antisym; [apply clamp01|].
        eapply Qle_trans; [|apply pmax_ge_r]. apply pmin_glb; lra. }
      rewrite Hc. lra.
Qed.

Lemma linear_map_clamps_witness :
  _linear_map 5 10 5 0 15 == 15 /\ _linear_map 10 10 5 0 15 == 0.
Proof.
  pose proof (linear_map_clamps 10 5 0 15 ltac:(lra)) as (_ & _ & H).
  destruct (H ltac:(lra)) as [Hlo Hhi].
  split; [apply Hhi; lra | apply Hlo; lra].
Defined.

Lemma clamp_id (s : Q) : 0 <= s <= 100 -> pmin 100 (pmax 0 s) == s.
Proof.
  intros [H0 H1]. apply Qle_antisym.
  - eapply Qle_trans; [apply pmin_le_r|]. apply pmax_lub; lra.
  - apply pmin_glb; [exact H1 | apply pmax_ge_r].
Qed.

(** X2. Each of the eight amounts of the Volume-Breakout score lies between
    0 and its full marks, the full marks add up to 100, and the score is the
    rounded sum of the amounts: the final clamp to [0,100] never cuts. *)
Theorem vb_score_is_sum_of_dimensions (d : detail) :
  Forall2 (fun t cap => 0 <= t <= cap) (vb_dimensions d) vb_full_marks
  /\ qsum vb_full_marks == 100
  /\ _vb_calculate_score d = py_round (qsum (vb_dimensions d)).
Proof.
  assert (HF : Forall2 (fun t cap => 0 <= t <= cap)
                 (vb_dimensions d) vb_full_marks).
  { unfold vb_dimensions, vb_full_marks.
    repeat apply Forall2_cons; try apply Forall2_nil;
      try (apply linear_map_bounds; lra).
    destruct (Qleb (post_range_pct d) 5); [lra|].
    destruct (Qleb (post_range_pct d) 10);
      [apply linear_map_bounds; lra | lra]. }
  split; [exact HF|]. split; [reflexivity|].
  unfold _vb_calculate_score. cbv zeta. apply py_round_eq.
  unfold vb_dimensions, vb_full_marks in HF.
  repeat match goal with
         | H : Forall2 _ (_ :: _) (_ :: _) |- _ =>
             let H1 := fresh "B" in
             apply Forall2_cons_iff in H; destruct H as [H1 H]
         end.
  unfold vb_dimensions. cbn [qsum fold_right].
  destruct (Qleb (post_range_pct d) 5);
    [|destruct (Qleb (post_range_pct d) 10)];
    (rewrite clamp_id; [lra | split; lra]).
Qed.

End ScoreFacts.

Module ShrinkScoreFacts.
Import ShrinkBreakout.

Lemma py_int_nonneg (q : Q) : 0 <= q -> (0 <= py_int q)%Z.
Proof.
  intro H. unfold py_int.
  destruct (Qltb q 0) eqn:E; [apply Qltb_iff in E; lra|].
  rewrite <- (Qfloor_Z 0). apply Qfloor_resp_le. exact H.
Qed.

Lemma zmin_10_bounds (x : Z) : (0 <= x)%Z -> (0 <= zmin x 10 <= 10)%Z.
Proof.
  intro H. unfold zmin.
  destruct (10 <? x)%Z eqn:E; [apply Z.ltb_lt in E | apply Z.ltb_ge in E]; lia.
Qed.

(** Base 40, at least 5 for the limit-up bar and the fixed 6: the score
    formula never goes below 51, and its bonuses add up to at most 100. *)
Lemma sb_score_range (d : detail) : (51 <= _sb_calculate_score d <= 100)%Z.
Proof.
  unfold _sb_calculate_score. cbv zeta.
  set (s1 := if (0 <? _)%Z then _ else 40%Z).
  set (s2 := if Qltb 0 _ then _ else s1).
  set (s3 := match limit_up_type d with
             | OneWordBoard => _ | TShapeBoard => _ | OrdinaryLimitUp => _
             end).
  set (s4 := if Qltb (post_amplitude d) 5 then _ else _).
  set (s5 := if Qltb (vol_ratio d) (5 # 10) then _ else _).
  set (s6 := match signal_change d with Finite _ => _ | NonFinite => _ end).
  assert (B1 : (40 <= s1 <= 50)%Z).
  { subst s1. destruct (0 <? consolidation1_days d - 22)%Z eqn:E; [|lia].
    apply Z.ltb_lt in E.
    assert (Hq : 0 <= inject_Z (consolidation1_days d - 22) / 10).
    { apply Qle_shift_div_l; [lra|]. rewrite Qmult_0_l.
      change 0 with (inject_Z 0). rewrite <- Zle_Qle. lia. }
    pose proof (py_int_nonneg _ Hq).
    pose proof (zmin_10_bounds
                  (py_int (inject_Z (consolidation1_days d - 22) / 10) * 3)
                  ltac:(lia)). lia. }
  assert (B2 : (40 <= s2 <= 60)%Z).
  { subst s2. destruct (Qltb 0 (decline_pct d - 15)) eqn:E; [|lia].
    apply Qltb_iff in E.
    assert (Hq : 0 <= (decline_pct d - 15) / 5)
      by (apply Qle_shift_div_l; lra).
    pose proof (py_int_nonneg _ Hq).
    pose proof (zmin_10_bounds (py_int ((decline_pct d - 15) / 5) * 3)
                  ltac:(lia)). lia. }
  assert (B3 : (45 <= s3 <= 68)%Z)
    by (subst s3; destruct (limit_up_type d); lia).
  assert (B4 : (45 <= s4 <= 76)%Z).
  { subst s4. destruct (Qltb (post_amplitude d) 5); [lia|].
    destruct (Qltb (post_amplitude d) 8); [lia|].
    destruct (Qltb (post_amplitude d) 10); lia. }
  assert (B5 : (45 <= s5 <= 86)%Z).
  { subst s5.
    destruct (Qltb (vol_ratio d) (5 # 10)); [lia|].
    destruct (Qltb (vol_ratio d) (6 # 10)); [lia|].
    destruct (Qltb (vol_ratio d) (7 # 10)); [lia|].
    destruct (Qltb (vol_ratio d) (8 # 10)); [lia|].
    destruct (Qltb (vol_ratio d) (9 # 10)); lia. }
  assert (B6 : (45 <= s6 <= 94)%Z).
  { subst s6. destruct (signal_change d) as [c|]; [|lia].
    destruct (Qleb 2 c && Qleb c 5); [lia|].
    destruct (Qltb 5 c && Qleb c 8); lia. }
  clearbody s6. unfold zmin, zmax.
  destruct (0 <? s6 + 6)%Z eqn:E0;
    [apply Z.ltb_lt in E0 | apply Z.ltb_ge in E0; lia].
  destruct (s6 + 6 <? 100)%Z eqn:E1;
    [apply Z.ltb_lt in E1 | apply Z.ltb_ge in E1]; lia.
Qed.

End ShrinkScoreFacts.

(** ** What a matched result reports *)

Module ReversalReport.
Import Reversal.

(** X3. The detail of a matched Reversal result reports figures that
    satisfy the thresholds of the pattern also after their rounding: the
    frame has at least 25 bars, 0.3 <= |day1_change| <= 2,
    |day2_change| >= 3, day3_change >= 1, gap_down <= 0, shadow <= 30,
    prior_decline <= -3 and contrast >= 1.5; the three dates are those of
    the last three bars. *)
Theorem reversal_detail_within_thresholds (df : DataFrame) (d : detail) :
  check_reversal_pattern (Some df) = Ok (Some d) ->
  (25 <= len df)%Z
  /\ (3 # 10) <= Qabs (day1_change d) <= 2
  /\ 3 <= Qabs (day2_change d)
  /\ 1 <= day3_change d
  /\ gap_down d <= 0
  /\ shadow d <= 30
  /\ prior_decline d <= - (3)
  /\ (3 # 2) <= contrast d
  /\ exists b1 b2 b3,
       iloc df (-3) = Ok b1 /\ iloc df (-2) = Ok b2 /\ iloc df (-1) = Ok b3
       /\ day1_date d = date b1 /\ day2_date d = date b2
       /\ day3_date d = date b3.
Proof.
  unfold check_reversal_pattern, check_reversal_pattern_cfg.
  cbn [prior_decline_days prior_decline_min reversal_config].
  intro H. bind_inv H.
  injection H as <-.
  cbn [day1_change day2_change day3_change gap_down shadow prior_decline
       contrast day1_date day2_date day3_date].
  repeat match goal with
         | C : _ && _ = true |- _ => apply andb_true_iff in C; destruct C
         | C : Qltb 0 3 && _ = false |- _ =>
             change (Qltb 0 3) with true in C; cbn [andb] in C
         | C : _ || _ = false |- _ => apply orb_false_iff in C; destruct C
         end.
  repeat match goal with
         | C : is_day1_small _ _ = true |- _ => apply ReversalProps.day1_small_bounds in C
         | C : is_day2_big _ _ = true |- _ => apply ReversalProps.day2_big_bound in C
         | C : is_day3_strong _ _ = true |- _ => apply ReversalProps.day3_strong_bound in C
         | C : is_day3_gap_down _ _ = true |- _ =>
             unfold is_day3_gap_down in C; cbn [gap_down_min reversal_config] in C;
             apply Qleb_iff in C
         | C : Qleb _ (max_upper_shadow_cfg _) = true |- _ =>
             cbn [max_upper_shadow_cfg reversal_config] in C; apply Qleb_iff in C
         | C : Qleb 0 _ = false |- _ => apply Qleb_false in C
         | C : Qltb (Qabs _) _ = false |- _ => apply Qltb_false in C
         | C : (_ <? _)%Z = false |- _ => apply Z.ltb_ge in C
         end.
  split; [lia|].
  split; [split|].
  - apply (abs_round_n_ge (3 # 10) 30 2); [reflexivity | lra | tauto].
  - apply (abs_round_n_le 2 200 2); [reflexivity | tauto].
  - split; [apply (abs_round_n_ge 3 300 2); [reflexivity | lra | assumption]|].
    split; [apply (round_n_ge 1 100 2); [reflexivity | assumption]|].
    split; [apply (round_n_le 0 0 2); [reflexivity | lra]|].
    split; [apply (round_n_le 30 300 1); [reflexivity | assumption]|].
    split.
    + apply (round_n_le (- (3)) (- 300) 2); [reflexivity|].
      match goal with
      | C : 3 <= Qabs ?p, C' : ?p < 0 |- ?p <= _ =>
          rewrite Qabs_neg in C by lra; lra
      end.
    + split.
      * apply (round_n_ge (3 # 2) 15 1); [reflexivity|].
        apply ReversalProps.bear_contrast_ge; assumption.
      * do 3 eexists. repeat split; reflexivity.
Qed.

Lemma reversal_detail_within_thresholds_witness :
  exists d, check_reversal_pattern (Some scenario_a) = Ok (Some d)
            /\ 3 <= Qabs (day2_change d) /\ prior_decline d <= - (3).
Proof.
  eexists.
  assert (H : check_reversal_pattern (Some scenario_a) = Ok (Some _))
    by (vm_compute; reflexivity).
  split; [exact H|].
  pose proof (reversal_detail_within_thresholds scenario_a _ H)
    as (_ & _ & H2 & _ & _ & _ & H6 & _).
  split; assumption.
Defined.

End ReversalReport.

Module VolumeBreakoutReport.
Import VolumeBreakout VolumeBreakoutProps.

(** What [_vb_is_limit_up] accepts. *)
Lemma vb_limit_up_inv (row : bar) (prev_close : Q) (code : string) :
  _vb_is_limit_up volume_breakout_config row prev_close code = true ->
  ~ prev_close == 0
  /\ (95 # 10) <= (close row - prev_close) / prev_close * 100
  /\ (prefix "3" code = true ->
      (195 # 10) <= (close row - prev_close) / prev_close * 100)
  /\ 0 < high row - low row
  /\ (6 # 10) <= Qabs (close row - open row) / (high row - low row)
  /\ open row < close row.
Proof.
  unfold _vb_is_limit_up.
  cbn [limit_up_chinext limit_up_main_board limit_up_body_ratio_min
       volume_breakout_config]. cbv zeta.
  destruct (Qeqb prev_close 0) eqn:E0; [discriminate|].
  destruct (Qltb _ (if prefix "3" code then _ else _)) eqn:E1; [discriminate|].
  destruct (Qeqb (high row - low row) 0) eqn:E2; [discriminate|].
  destruct (Qltb (Qabs _ / _) _) eqn:E3; [discriminate|].
  destruct (Qleb (close row) (open row)) eqn:E4; [discriminate|].
  intros _.
  apply Qeqb_false in E0, E2. apply Qltb_false in E1, E3.
  apply Qleb_false in E4.
  assert (Hpos : 0 < high row - low row).
  { destruct (Qlt_le_dec 0 (high row - low row)) as [L|L]; [exact L|].
    exfalso.
    assert (Hneg : high row - low row < 0).
    { apply Qle_lt_or_eq in L. destruct L as [L|L]; [exact L | contradiction]. }
    assert (Hq : Qabs (close row - open row) / (high row - low row) <= 0).
    { unfold Qdiv.
      rewrite <- (Qmult_0_l (/ (high row - low row))).
      assert (Hi : / (high row - low row) <= 0).
      { apply Qlt_le_weak.
        setoid_replace (/ (high row - low row))
          with (- / (- (high row - low row))) by (field; lra).
        assert (0 < / (- (high row - low row)))
          by (apply Qinv_lt_0_compat; lra).
        lra. }
      setoid_replace (Qabs (close row - open row) * / (high row - low row))
        with (- (Qabs (close row - open row) * - / (high row - low row)))
        by ring.
      pose proof (Qabs_nonneg (close row - open row)).
      assert (0 <= Qabs (close row - open row) * - / (high row - low row))
        by (apply Qmult_le_0_compat; lra).
      lra. }
    lra. }
  repeat split; try assumption.
  - destruct (prefix "3" code); lra.
  - intro Hp. rewrite Hp in E1. exact E1.
Qed.

(** What a found consolidation window is. *)
Lemma find_consolidation_inv (df : DataFrame) (idx : Z) (c : consol) :
  _vb_find_consolidation volume_breakout_config df idx = Ok (Some c) ->
  (22 <= c_length c <= 79)%Z
  /\ c_start c = (idx - c_length c)%Z /\ (1 <= c_start c)%Z
  /\ c_end c = (idx - 1)%Z
  /\ c_range c <= 15
  /\ judge volume_breakout_config df (idx - 1) (c_length c) = Ok (Within c).
Proof.
  unfold _vb_find_consolidation.
  cbn [consol_min_days volume_breakout_config]. cbv zeta.
  intro H.
  destruct (idx - 1 <? 22)%Z eqn:E; [discriminate H|].
  apply Z.ltb_ge in E.
  set (e := (idx - 1)%Z) in *.
  set (upper := zmin (e + 1) 80) in *.
  assert (Hu : (22 <= upper <= e + 1)%Z /\ (upper <= 80)%Z).
  { subst upper. unfold zmin. destruct (80 <? e + 1)%Z eqn:E8;
      [apply Z.ltb_lt in E8 | apply Z.ltb_ge in E8]; lia. }
  apply (consol_loop_inv volume_breakout_config df e upper
           ltac:(lia) (Z.to_nat (upper - 22)) 22 None (Some c) eq_refl
           ltac:(lia)) in H.
  destruct H as [[Hn _] | (l & c' & Hc & Hl & Hw & _)]; [discriminate Hn|].
  injection Hc as <-.
  destruct (judge_within_length _ _ _ _ _ Hw) as (Hlen & Hst & Hen & Hrg).
  rewrite Hlen. repeat split; try lia; try assumption.
Qed.

Lemma prior_decline_inv (df : DataFrame) (consol_start : Z)
    (consol_mean dp hi : Q) :
  _vb_check_prior_decline volume_breakout_config df consol_start consol_mean
  = Ok (Some (dp, hi)) ->
  15 <= dp
  /\ smax (closes (islice df (zmax 0 (consol_start - 60)) consol_start))
     = Ok hi
  /\ dp = (hi - consol_mean) / consol_mean * 100.
Proof.
  unfold _vb_check_prior_decline.
  cbn [prior_lookback_days prior_decline_min_pct volume_breakout_config].
  intro H. bind_inv H. injection H as <- <-.
  match goal with
  | C : Qltb _ 15 = false |- _ => apply Qltb_false in C
  end.
  match goal with
  | E : fdiv _ _ = Ok _ |- _ => apply fdiv_ok in E; destruct E as [-> _]
  end.
  repeat split; assumption.
Qed.

(** A matched result comes out of one pass of the scan loop, behind the
    guard on the last two bars. *)
Lemma vb_matched_inv (df : DataFrame) (code : string) (d : detail) :
  check_volume_breakout_pattern (Some df) code = Ok (Some d) ->
  exists last prev j,
    (50 <= len df)%Z
    /\ iloc df (-1) = Ok last /\ iloc df (-2) = Ok prev
    /\ open last < close last
    /\ ~ volume prev == 0 /\ volume prev < volume last
    /\ (2 <= j <= 20)%Z /\ (j <= len df - 30)%Z
    /\ vb_candidate volume_breakout_config df code last prev
         (len df - 1 - j) = Ok (Some d).
Proof.
  unfold check_volume_breakout_pattern, check_volume_breakout_pattern_cfg.
  cbn [post_consol_max_lookback volume_breakout_config].
  intro H.
  destruct (len df <? 50)%Z eqn:Elen; [discriminate H|].
  apply Z.ltb_ge in Elen.
  destruct (iloc df (-1)) as [last|]; [cbn [bind] in H | discriminate H].
  destruct (iloc df (-2)) as [prev|]; [cbn [bind] in H | discriminate H].
  destruct (Qleb (close last) (open last)) eqn:Eb; [discriminate H|].
  destruct (Qeqb (volume prev) 0) eqn:Ez; [discriminate H|].
  destruct (Qleb (volume last) (volume prev)) eqn:Ev; [discriminate H|].
  cbn [orb] in H. cbv zeta in H.
  set (m := zmin 20 (len df - 30)) in *.
  assert (Hm : (m <= 20)%Z /\ (m <= len df - 30)%Z).
  { subst m. unfold zmin. destruct (len df - 30 <? 20)%Z eqn:E;
      [apply Z.ltb_lt in E | apply Z.ltb_ge in E]; lia. }
  destruct (vb_scan volume_breakout_config df code last prev
              (zrange 2 (m + 1)) false None) as [[f b]|] eqn:Escan;
    [cbn [bind] in H | discriminate H].
  destruct f; [|discriminate H].
  destruct b as [b|]; [|discriminate H].
  injection H as ->.
  apply vb_scan_fold in Escan.
  2:{ intros j Hj. apply in_zrange in Hj. lia. }
  destruct Escan as (ods & HF & Hb & _).
  symmetry in Hb.
  destruct (fold_step_best ods None d Hb)
    as [[Hi _] | (pre & post & -> & _)]; [discriminate Hi|].
  apply Forall2_app_inv_r in HF.
  destruct HF as (l1 & l2' & _ & HF2 & Hz).
  inversion HF2 as [|j od l2 post' Hj HF3]; subst.
  assert (Hin : In j (zrange 2 (m + 1)))
    by (rewrite Hz; apply in_or_app; right; left; reflexivity).
  apply in_zrange in Hin.
  exists last, prev, j.
  apply Qleb_false in Eb, Ev. apply Qeqb_false in Ez.
  repeat split; try assumption; try lia.
Qed.

(** X4. The detail of a matched Volume-Breakout result reports figures
    that satisfy the thresholds of the pattern also after their rounding:
    prior decline at least 15%, a consolidation of 22 to 79 days with an
    amplitude of at most 15%, a limit-up gain of at least 9.5% (19.5% for a
    code that starts with 3) with a body ratio of at least 0.6, a pull-back
    of 5 to 19 days, a break-out volume ratio of at least 1 and a
    non-negative break-out body ratio. *)
Theorem vb_detail_within_thresholds (df : DataFrame) (code : string)
    (d : detail) :
  check_volume_breakout_pattern (Some df) code = Ok (Some d) ->
  15 <= prior_decline_pct d
  /\ (22 <= consol_days d <= 79)%Z
  /\ consol_range_pct d <= 15
  /\ (95 # 10) <= limit_up_change d
  /\ (prefix "3" code = true -> (195 # 10) <= limit_up_change d)
  /\ (6 # 10) <= limit_up_body_ratio d
  /\ (5 <= post_consol_days d <= 19)%Z
  /\ 1 <= break_vol_ratio d
  /\ 0 <= break_body_ratio d.
Proof.
  intro H.
  destruct (vb_matched_inv df code d H)
    as (last & prev & j & Hlen & _ & _ & Hbull & Hz & Hvol & Hj & _ & Hc).
  unfold vb_candidate in Hc.
  cbn [post_consol_min_days volume_breakout_config] in Hc.
  bind_inv Hc. subst. injection Hc as <-.
  cbn [set_score prior_decline_pct consol_days consol_range_pct
       limit_up_change limit_up_body_ratio post_consol_days break_vol_ratio
       break_body_ratio].
  match goal with
  | C : negb _ = false |- _ =>
      apply negb_false_iff, vb_limit_up_inv in C;
      destruct C as (Hp0 & Hchg & Hchg3 & Hrng & Hbody & Hup)
  end.
  match goal with
  | E : _vb_find_consolidation _ _ _ = Ok _ |- _ =>
      apply find_consolidation_inv in E; cbn in E;
      destruct E as (Hcl & _ & _ & _ & Hcr & _)
  end.
  match goal with
  | E : _vb_check_prior_decline _ _ _ _ = Ok _ |- _ =>
      apply prior_decline_inv in E; destruct E as (Hpd & _ & _)
  end.
  match goal with
  | E : fdiv (close ?r - ?pc) ?pc = Ok _,
    Hc : _ <= (close ?r - ?pc) / ?pc * 100 |- _ =>
      apply fdiv_ok in E; destruct E as [-> _]
  end.
  split; [apply (round_n_ge 15 1500 2); [reflexivity | exact Hpd]|].
  split; [exact Hcl|].
  split; [apply (round_n_le 15 1500 2); [reflexivity | exact Hcr]|].
  split; [apply (round_n_ge (95 # 10) 950 2); [reflexivity | exact Hchg]|].
  split; [intro Hp; apply (round_n_ge (195 # 10) 1950 2);
          [reflexivity | exact (Hchg3 Hp)]|].
  split.
  { apply (round_n_ge (6 # 10) 60 2); [reflexivity|].
    assert (Et : Qltb 0 (high a - low a) = true) by (apply Qltb_iff; exact Hrng).
    rewrite Et. exact Hbody. }
  split.
  { match goal with
    | C : (_ <? 5)%Z = false |- _ => apply Z.ltb_ge in C
    end. lia. }
  split.
  { apply (round_n_ge 1 100 2); [reflexivity|].
    destruct (Qltb 0 (volume prev)) eqn:Ep; [|lra].
    apply Qltb_iff in Ep. apply Qle_shift_div_l; [exact Ep | lra]. }
  apply (round_n_ge 0 0 2); [reflexivity|].
  destruct (Qltb 0 (high last - low last)) eqn:Er; [|lra].
  apply Qltb_iff in Er. apply Qle_shift_div_l; [exact Er | lra].
Qed.

Lemma vb_detail_within_thresholds_witness :
  exists d,
    check_volume_breakout_pattern (Some scenario_b) "600000" = Ok (Some d)
    /\ 15 <= prior_decline_pct d /\ (6 # 10) <= limit_up_body_ratio d.
Proof.
  eexists.
  assert (H : check_volume_breakout_pattern (Some scenario_b) "600000"
              = Ok (Some _)) by (vm_compute; reflexivity).
  split; [exact H|].
  pose proof (vb_detail_within_thresholds scenario_b "600000"%string _ H)
    as (H1 & _ & _ & _ & _ & H6 & _).
  split; assumption.
Defined.

Lemma existsb_false_forall {A : Type} (f : A -> bool) (l : list A) :
  existsb f l = false -> forall x, In x l -> f x = false.
Proof.
  intros H x Hx. destruct (f x) eqn:E; [|reflexivity].
  assert (Ht : existsb f l = true) by (apply existsb_exists; eauto).
  congruence.
Qed.

(** X5. A matched Volume-Breakout result lies on a frame of this shape: the
    bar [post_consol_days + 1] positions before the last bar is a limit-up
    bar (its date is the reported one); every bar between it and the last
    bar - there are [post_consol_days] of them - closes at or above the
    limit-up bar's open; the last bar is bullish, closes above the limit-up
    bar's close and trades more than the bar before it; and the
    [consol_days] bars in front of the limit-up bar have an amplitude of at
    most 15%. *)
Theorem vb_match_anatomy (df : DataFrame) (code : string) (d : detail) :
  check_volume_breakout_pattern (Some df) code = Ok (Some d) ->
  let L := (len df - 2 - post_consol_days d)%Z in
  exists lu before last prev c,
    iloc df L = Ok lu /\ iloc df (L - 1) = Ok before
    /\ iloc df (-1) = Ok last /\ iloc df (-2) = Ok prev
    /\ limit_up_date d = date lu /\ break_date d = date last
    /\ _vb_is_limit_up volume_breakout_config lu (close before) code = true
    /\ len (islice df (L + 1) (len df - 1)) = post_consol_days d
    /\ (forall x, In x (closes (islice df (L + 1) (len df - 1))) ->
                  open lu <= x)
    /\ open last < close last /\ close lu < close last
    /\ volume prev < volume last
    /\ judge volume_breakout_config df (L - 1) (consol_days d)
       = Ok (Within c)
    /\ c_range c <= 15.
Proof.
  intro H.
  destruct (vb_matched_inv df code d H)
    as (last & prev & j & Hlen & Hlast & Hprev & Hbull & Hz & Hvol & Hj & Hj'
        & Hc).
  unfold vb_candidate in Hc.
  cbn [post_consol_min_days volume_breakout_config] in Hc.
  bind_inv Hc. subst. injection Hc as <-.
  cbn [set_score post_consol_days limit_up_date break_date consol_days].
  cbv zeta.
  replace (len df - 2 - (len df - 2 - (len df - 1 - j + 1) + 1))%Z
    with (len df - 1 - j)%Z by lia.
  replace (len df - 1 - j + 1)%Z with (len df - j)%Z in * by lia.
  replace (len df - 2 + 1)%Z with (len df - 1)%Z in * by lia.
  match goal with
  | E : _vb_find_consolidation _ _ _ = Ok _ |- _ =>
      apply find_consolidation_inv in E; cbn in E;
      destruct E as (_ & _ & _ & _ & Hcr & Hjd)
  end.
  match goal with
  | C : negb _ = false |- _ => apply negb_false_iff in C
  end.
  match goal with
  | C : existsb _ _ = false |- _ =>
      pose proof (existsb_false_forall _ _ C) as Hfloor; cbv beta in Hfloor
  end.
  match goal with
  | C : Qleb (close last) _ = false |- _ => apply Qleb_false in C
  end.
  do 5 eexists.
  split; [eassumption|]. split; [eassumption|].
  split; [exact Hlast|]. split; [exact Hprev|].
  split; [reflexivity|]. split; [reflexivity|].
  split; [eassumption|].
  split; [rewrite len_islice; lia|].
  split.
  { intros x Hx. apply Qltb_false. apply Hfloor, Hx. }
  split; [exact Hbull|]. split; [assumption|]. split; [exact Hvol|].
  split; [exact Hjd | exact Hcr].
Qed.

Lemma vb_match_anatomy_witness :
  exists d lu,
    check_volume_breakout_pattern (Some scenario_b) "600000" = Ok (Some d)
    /\ iloc scenario_b (len scenario_b - 2 - post_consol_days d) = Ok lu
    /\ limit_up_date d = date lu.
Proof.
  eexists.
  assert (H : check_volume_breakout_pattern (Some scenario_b) "600000"
              = Ok (Some _)) by (vm_compute; reflexivity).
  destruct (vb_match_anatomy scenario_b "600000"%string _ H)
    as (lu & before & last & prev & c & H1 & _ & _ & _ & H5 & _).
  exists lu. split; [exact H|]. split; [exact H1 | exact H5].
Defined.

End VolumeBreakoutReport.

(** ** The phases of the Shrink-Breakout detector *)

Module ShrinkPhases.
Import ShrinkBreakout ShrinkTerms.

Lemma zrange_down_nil (a b : Z) : (a <= b)%Z -> zrange_down a b = [].
Proof.
  intro H. unfold zrange_down. replace (Z.to_nat (a - b)) with 0%nat by lia.
  reflexivity.
Qed.

Lemma zrange_down_cons (a b : Z) :
  (b < a)%Z -> zrange_down a b = a :: zrange_down (a - 1) b.
Proof.
  intro H. unfold zrange_down.
  replace (Z.to_nat (a - b)) with (S (Z.to_nat (a - 1 - b))) by lia.
  cbn [seq map]. f_equal; [lia|].
  rewrite <- seq_shift, map_map.
  apply map_ext. intro k. lia.
Qed.

Lemma find_limit_up_loop_cons (cfg : config) (df : DataFrame)
    (code : string) (i : Z) (rest : list Z) :
  find_limit_up_loop cfg df code (i :: rest) =
  b <- limit_up_at cfg df code i ;;
  if b then Ok (Some i) else find_limit_up_loop cfg df code rest.
Proof.
  cbn [find_limit_up_loop]. unfold limit_up_at.
  destruct (iloc df i); cbn [bind]; [|reflexivity].
  destruct (iloc df (i - 1)); reflexivity.
Qed.

Lemma limit_up_at_total (cfg : config) (df : DataFrame) (code : string)
    (i : Z) :
  (1 <= i < len df)%Z -> exists b, limit_up_at cfg df code i = Ok b.
Proof.
  intro H. unfold limit_up_at.
  destruct (iloc_ok df i) as [r ->]; [lia|].
  destruct (iloc_ok df (i - 1)) as [r' ->]; [lia|].
  cbn [bind]. eauto.
Qed.

Lemma find_limit_up_loop_spec (cfg : config) (df : DataFrame)
    (code : string) (m : nat) :
  forall a, Z.to_nat a = m -> (a < len df)%Z ->
  exists r,
    find_limit_up_loop cfg df code (zrange_down a 0) = Ok r
    /\ match r with
       | Some i =>
         (1 <= i <= a)%Z
         /\ limit_up_at cfg df code i = Ok true
         /\ forall k, (i < k <= a)%Z -> limit_up_at cfg df code k = Ok false
       | None =>
         forall k, (1 <= k <= a)%Z -> limit_up_at cfg df code k = Ok false
       end.
Proof.
  induction m as [|m IH]; intros a Hm Ha.
  - rewrite zrange_down_nil by lia. exists None. split; [reflexivity|].
    intros k Hk. lia.
  - rewrite zrange_down_cons by lia. rewrite find_limit_up_loop_cons.
    destruct (limit_up_at_total cfg df code a) as [b Hb]; [lia|].
    rewrite Hb. cbn [bind]. destruct b.
    + exists (Some a). split; [reflexivity|].
      split; [lia|]. split; [exact Hb | intros k Hk; lia].
    + destruct (IH (a - 1)%Z) as [r [Hr Hs]]; [lia | lia|].
      exists r. split; [exact Hr|].
      destruct r as [i|].
      * destruct Hs as (Hi & Hlu & Hno). split; [lia|]. split; [exact Hlu|].
        intros k Hk. destruct (Z.eq_dec k a) as [->|NE];
          [exact Hb | apply Hno; lia].
      * intros k Hk. destruct (Z.eq_dec k a) as [->|NE];
          [exact Hb | apply Hs; lia].
Qed.

Lemma sb_find_limit_up_spec (df : DataFrame) (code : string) :
  exists r,
    _sb_find_limit_up_day shrink_breakout_config df code = Ok r
    /\ match r with
       | Some i =>
         (1 <= i <= len df - 7)%Z
         /\ limit_up_at shrink_breakout_config df code i = Ok true
         /\ forall k, (i < k <= len df - 7)%Z ->
              limit_up_at shrink_breakout_config df code k = Ok false
       | None =>
         forall k, (1 <= k <= len df - 7)%Z ->
           limit_up_at shrink_breakout_config df code k = Ok false
       end.
Proof.
  unfold _sb_find_limit_up_day. cbv zeta.
  apply (find_limit_up_loop_spec shrink_breakout_config df code
           (Z.to_nat (len df - 7))); [reflexivity | lia].
Qed.

(** X6. [_sb_find_limit_up_day] never faults; its answer is the limit-up
    bar nearest to the last bar among the positions 1 .. len - 7 (at least
    six bars back), and it is [None] exactly when no bar of that range is a
    limit-up bar. *)
Theorem sb_finds_nearest_limit_up (df : DataFrame) (code : string) :
  exists r,
    _sb_find_limit_up_day shrink_breakout_config df code = Ok r
    /\ match r with
       | Some i =>
         (1 <= i <= len df - 7)%Z
         /\ limit_up_at shrink_breakout_config df code i = Ok true
         /\ forall k, (i < k <= len df - 7)%Z ->
              limit_up_at shrink_breakout_config df code k = Ok false
       | None =>
         forall k, (1 <= k <= len df - 7)%Z ->
           limit_up_at shrink_breakout_config df code k = Ok false
       end.
Proof. exact (sb_find_limit_up_spec df code). Qed.

Lemma pre_consol_loop_cons (cfg : config) (df : DataFrame) (best_end : Z)
    (start : Z) (rest : list Z) (best : option Z) :
  pre_consol_loop cfg df best_end (start :: rest) best =
  t <- within_amplitude (consolidation1_max_amplitude cfg)
         (closes (islice df start best_end)) ;;
  if t then pre_consol_loop cfg df best_end rest (Some start) else Ok best.
Proof.
  cbn [pre_consol_loop]. unfold within_amplitude. cbv zeta.
  destruct (smax _); cbn [bind]; [|reflexivity].
  destruct (smin _); cbn [bind]; [|reflexivity].
  destruct (mean _) as [avg|]; cbn [bind]; [|reflexivity].
  destruct (Qeqb avg 0); [reflexivity|].
  destruct (fdiv _ _); cbn [bind]; [|reflexivity].
  destruct (Qleb _ _); reflexivity.
Qed.

Lemma pre_consol_loop_spec (cfg : config) (df : DataFrame) (best_end : Z)
    (m : nat) :
  forall (a : Z) (best r : option Z),
    Z.to_nat (a + 1) = m -> (-1 <= a)%Z ->
    pre_consol_loop cfg df best_end (zrange_down a (-1)) best = Ok r ->
    let W k := within_amplitude (consolidation1_max_amplitude cfg)
                 (closes (islice df k best_end)) in
    (r = best /\ (a = (-1)%Z \/ W a = Ok false))
    \/ (exists s, r = Some s /\ (0 <= s <= a)%Z
                  /\ (forall k, (s <= k <= a)%Z -> W k = Ok true)
                  /\ (s = 0%Z \/ W (s - 1)%Z = Ok false)).
Proof.
  induction m as [|m IH]; intros a best r Hm Ha H W.
  - rewrite zrange_down_nil in H by lia. injection H as <-.
    left. split; [reflexivity | left; lia].
  - rewrite zrange_down_cons in H by lia.
    rewrite pre_consol_loop_cons in H. fold (W a) in H.
    destruct (W a) as [t|] eqn:Et; [cbn [bind] in H | discriminate H].
    destruct t.
    + apply IH in H; [|lia|lia]. fold W in H.
      destruct H as [[-> Hstop] | (s & -> & Hs & Hall & Hend)].
      * right. exists a. split; [reflexivity|]. split; [lia|].
        split.
        -- intros k Hk. replace k with a by lia. first [exact Et | reflexivity].
        -- destruct Hstop as [Hz|Hf]; [left; lia | right; exact Hf].
      * right. exists s. split; [reflexivity|]. split; [lia|].
        split; [|exact Hend].
        intros k Hk. destruct (Z.eq_dec k a) as [->|NE];
          [first [exact Et | reflexivity] | apply Hall; lia].
    + injection H as <-. left. split; [reflexivity | right; first [exact Et | reflexivity]].
Qed.

Lemma other_limit_up_false (cfg : config) (df : DataFrame) (code : string) :
  forall l, other_limit_up cfg df code l = Ok false ->
            forall k, In k l -> limit_up_at cfg df code k = Ok false.
Proof.
  induction l as [|i l IH]; intros H k Hk; [contradiction|].
  cbn [other_limit_up] in H.
  destruct (iloc df i) as [row|] eqn:Er; [cbn [bind] in H | discriminate H].
  destruct (iloc df (i - 1)) as [prev|] eqn:Ep;
    [cbn [bind] in H | discriminate H].
  destruct (_sb_is_limit_up cfg (close row) (close prev) code) eqn:El;
    [discriminate H|].
  destruct Hk as [<-|Hk]; [|apply IH; assumption].
  unfold limit_up_at. rewrite Er, Ep. cbn [bind]. rewrite El. reflexivity.
Qed.

Lemma within_amplitude_true (max_amp : Q) (w : list Q) :
  within_amplitude max_amp w = Ok true ->
  exists amp, amplitude w = Ok amp /\ amp <= max_amp.
Proof.
  unfold within_amplitude, amplitude. intro H. bind_inv H.
  injection H as H. apply Qleb_iff in H.
  cbn [bind].
  match goal with E : fdiv _ _ = Ok _ |- _ => rewrite E end.
  cbn [bind]. eexists. split; [reflexivity | exact H].
Qed.

Lemma sb_pre_consolidation_inv (df : DataFrame) (idx : Z)
    (code : string) (pre : pre_detail) :
  _sb_check_pre_consolidation shrink_breakout_config df idx code
  = Ok (Some pre) ->
  let s := pr_consolidation1_start pre in
  let W k := within_amplitude 15 (closes (islice df k idx)) in
  (0 <= s <= idx - 22)%Z
  /\ pr_consolidation1_days pre = (idx - s)%Z
  /\ (forall k, (s <= k <= idx - 22)%Z -> W k = Ok true)
  /\ (s = 0%Z \/ W (s - 1)%Z = Ok false)
  /\ (forall k, (s < k < idx)%Z ->
        limit_up_at shrink_breakout_config df code k = Ok false)
  /\ exists amp,
       amplitude (closes (islice df s idx)) = Ok amp /\ amp <= 15
       /\ pr_consolidation1_amplitude pre = py_round_n amp 2
       /\ pr_consolidation1_amplitude pre <= 15.
Proof.
  unfold _sb_check_pre_consolidation.
  cbn [consolidation1_min_days shrink_breakout_config]. cbv zeta.
  intro H.
  destruct (idx <? 22)%Z eqn:E22; [discriminate H|].
  apply Z.ltb_ge in E22.
  destruct (pre_consol_loop shrink_breakout_config df idx
              (zrange_down (idx - 22) (-1)) None) as [r|] eqn:Eloop;
    [cbn [bind] in H | discriminate H].
  destruct r as [s|]; [|discriminate H].
  destruct (idx - s <? 22)%Z eqn:Ed; [discriminate H|].
  destruct (other_limit_up shrink_breakout_config df code
              (zrange (s + 1) idx)) as [hit|] eqn:Eo;
    [cbn [bind] in H | discriminate H].
  destruct hit; [discriminate H|].
  apply (pre_consol_loop_spec shrink_breakout_config df idx
           (Z.to_nat (idx - 22 + 1)) (idx - 22) None (Some s) eq_refl
           ltac:(lia)) in Eloop.
  cbn [consolidation1_max_amplitude shrink_breakout_config] in Eloop.
  cbv zeta in Eloop.
  destruct Eloop as [[Hn _] | (s' & Hs' & Hs & Hall & Hend)];
    [discriminate Hn|].
  injection Hs' as <-.
  destruct (within_amplitude_true 15 _ (Hall s ltac:(lia)))
    as (amp & Hamp & Hle).
  pose proof Hamp as Hamp'. unfold amplitude in Hamp'.
  destruct (smax (closes (islice df s idx))) as [hi|];
    [cbn [bind] in Hamp', H | discriminate Hamp'].
  destruct (smin (closes (islice df s idx))) as [lo|];
    [cbn [bind] in Hamp', H | discriminate Hamp'].
  destruct (mean (closes (islice df s idx))) as [avg|];
    [cbn [bind] in Hamp', H | discriminate Hamp'].
  destruct (fdiv (hi - lo) avg) as [q|];
    [cbn [bind] in Hamp', H | discriminate Hamp'].
  injection Hamp' as <-. injection H as <-.
  cbn [pr_consolidation1_start pr_consolidation1_days
       pr_consolidation1_amplitude].
  split; [lia|]. split; [reflexivity|]. split; [exact Hall|].
  split; [exact Hend|].
  split.
  { intros k Hk. apply (other_limit_up_false _ _ _ _ Eo).
    apply in_zrange. lia. }
  exists (q * 100). split; [exact Hamp|]. split; [exact Hle|].
  split; [reflexivity|].
  apply (round_n_le 15 1500 2); [reflexivity | exact Hle].
Qed.

(** X7. The window [_sb_check_pre_consolidation] reports ends at the bar
    before the limit-up bar and starts at [consolidation1_start]: it has
    at least 22 bars; every window from 22 bars up to the reported one is
    within the 15% amplitude bound, and the window one bar longer is not
    (or the frame begins there); no bar inside the window is a limit-up
    bar; the reported amplitude is the rounded amplitude of the reported
    window and is at most 15. *)
Theorem sb_pre_consolidation_window (df : DataFrame) (idx : Z)
    (code : string) (pre : pre_detail) :
  _sb_check_pre_consolidation shrink_breakout_config df idx code
  = Ok (Some pre) ->
  let s := pr_consolidation1_start pre in
  let W k := within_amplitude 15 (closes (islice df k idx)) in
  (0 <= s <= idx - 22)%Z
  /\ pr_consolidation1_days pre = (idx - s)%Z
  /\ (forall k, (s <= k <= idx - 22)%Z -> W k = Ok true)
  /\ (s = 0%Z \/ W (s - 1)%Z = Ok false)
  /\ (forall k, (s < k < idx)%Z ->
        limit_up_at shrink_breakout_config df code k = Ok false)
  /\ exists amp,
       amplitude (closes (islice df s idx)) = Ok amp /\ amp <= 15
       /\ pr_consolidation1_amplitude pre = py_round_n amp 2
       /\ pr_consolidation1_amplitude pre <= 15.
Proof. exact (sb_pre_consolidation_inv df idx code pre). Qed.

Lemma sb_pre_consolidation_window_witness :
  exists pre,
    _sb_check_pre_consolidation shrink_breakout_config scenario_c 52 "600000"
    = Ok (Some pre)
    /\ pr_consolidation1_start pre = 10%Z
    /\ within_amplitude 15 (closes (islice scenario_c 9 52)) = Ok false.
Proof.
  eexists.
  assert (H : _sb_check_pre_consolidation shrink_breakout_config scenario_c
                52 "600000" = Ok (Some _)) by (vm_compute; reflexivity).
  split; [exact H|]. split; [reflexivity|].
  destruct (sb_pre_consolidation_window scenario_c 52 "600000"%string _ H)
    as (_ & _ & _ & [Hz|Hf] & _).
  - vm_compute in Hz. discriminate Hz.
  - exact Hf.
Defined.

Lemma sb_post_consolidation_inv (df : DataFrame) (idx : Z)
    (p : post_detail) :
  _sb_check_post_consolidation shrink_breakout_config df idx = Ok (Some p) ->
  let w := closes (islice df (idx + 1) (len df - 1)) in
  exists lu sg,
    iloc df idx = Ok lu /\ iloc df (len df - 1) = Ok sg
    /\ pd_post_days p = (len df - 2 - idx)%Z /\ (5 <= pd_post_days p)%Z
    /\ smax w = Ok (pd_post_max_close p)
    /\ smin w = Ok (pd_post_min_close p)
    /\ (forall x, In x w -> close lu <= x /\ x < close sg)
    /\ pd_post_amplitude p <= 10.
Proof.
  unfold _sb_check_post_consolidation.
  cbn [consolidation2_min_days consolidation2_support_tolerance
       consolidation2_max_amplitude shrink_breakout_config].
  intro H. bind_inv H. injection H as <-.
  cbn [pd_post_days pd_post_max_close pd_post_min_close pd_post_amplitude].
  cbv zeta.
  match goal with
  | C : (_ <? 5)%Z = false |- _ => apply Z.ltb_ge in C
  end.
  match goal with
  | C : existsb _ _ = false |- _ =>
      pose proof (VolumeBreakoutReport.existsb_false_forall _ _ C) as Hfloor;
      cbv beta in Hfloor
  end.
  match goal with
  | C : Qltb 10 _ = false |- _ => apply Qltb_false in C
  end.
  match goal with
  | C : Qleb (close _) _ = false |- _ => apply Qleb_false in C
  end.
  match goal with
  | E : smax _ = Ok _ |- _ => pose proof (smax_spec _ _ E) as [_ Hmax]
  end.
  do 2 eexists.
  split; [reflexivity|]. split; [reflexivity|].
  split; [lia|]. split; [lia|].
  split; [reflexivity|]. split; [reflexivity|].
  split.
  - intros x Hx. split.
    + specialize (Hfloor x Hx). apply Qltb_false in Hfloor.
      unfold Qdiv in Hfloor. lra.
    + specialize (Hmax x Hx). lra.
  - apply (round_n_le 10 1000 2); [reflexivity | assumption].
Qed.

(** X8. When [_sb_check_post_consolidation] accepts the bars between the
    limit-up bar and the last bar, there are [post_days = len - 2 - idx >=
    5] of them, each closes at or above the limit-up bar's close and
    strictly below the last bar's close, the reported maximum and minimum
    are the largest and smallest of those closes, and the reported
    amplitude is at most 10. *)
Theorem sb_post_consolidation_window (df : DataFrame) (idx : Z)
    (p : post_detail) :
  _sb_check_post_consolidation shrink_breakout_config df idx = Ok (Some p) ->
  let w := closes (islice df (idx + 1) (len df - 1)) in
  exists lu sg,
    iloc df idx = Ok lu /\ iloc df (len df - 1) = Ok sg
    /\ pd_post_days p = (len df - 2 - idx)%Z /\ (5 <= pd_post_days p)%Z
    /\ smax w = Ok (pd_post_max_close p)
    /\ smin w = Ok (pd_post_min_close p)
    /\ (forall x, In x w -> close lu <= x /\ x < close sg)
    /\ pd_post_amplitude p <= 10.
Proof. exact (sb_post_consolidation_inv df idx p). Qed.

Lemma sb_post_consolidation_window_witness :
  exists p,
    _sb_check_post_consolidation shrink_breakout_config scenario_c 52
    = Ok (Some p)
    /\ pd_post_days p = 6%Z.
Proof.
  eexists.
  assert (H : _sb_check_post_consolidation shrink_breakout_config scenario_c
                52 = Ok (Some _)) by (vm_compute; reflexivity).
  split; [exact H|].
  destruct (sb_post_consolidation_window scenario_c 52 _ H)
    as (lu & sg & _ & _ & Hd & _).
  rewrite Hd. reflexivity.
Defined.

Lemma sb_is_limit_up_inv (c pc : Q) (code : string) :
  _sb_is_limit_up shrink_breakout_config c pc code = true ->
  ~ pc == 0
  /\ (98 # 10) <= (c - pc) / pc * 100
  /\ (prefix "300" code = true -> (198 # 10) <= (c - pc) / pc * 100).
Proof.
  unfold _sb_is_limit_up.
  cbn [limit_up_chinext_pct limit_up_main_pct shrink_breakout_config].
  cbv zeta.
  destruct (Qeqb pc 0) eqn:E0; [discriminate|].
  apply Qeqb_false in E0.
  destruct (prefix "300" code); intro H; apply Qleb_iff in H;
    (split; [exact E0|]); (split; [lra|]); intro Hp;
    [exact H | discriminate Hp].
Qed.

Lemma sb_prior_decline_inv (df : DataFrame) (start : Z) (dp : Q) :
  _sb_check_prior_decline shrink_breakout_config df start = Ok (Some dp) ->
  (5 <= start)%Z /\ 15 <= dp.
Proof.
  unfold _sb_check_prior_decline.
  cbn [min_decline_pct shrink_breakout_config].
  intro H. bind_inv H. injection H as <-.
  match goal with
  | C : (zmin start 60 <? 5)%Z = false |- _ =>
      apply Z.ltb_ge in C; unfold zmin in C;
      destruct (60 <? start)%Z eqn:E6;
      [apply Z.ltb_lt in E6 | apply Z.ltb_ge in E6]
  end;
  match goal with
  | C : Qltb _ 15 = false |- _ => apply Qltb_false in C
  end;
  (split; [lia|]);
  (apply (round_n_ge 15 1500 2); [reflexivity | assumption]).
Qed.

(** X9. The detail of a matched Shrink-Breakout result reports figures
    that satisfy the thresholds of the pattern also after their rounding:
    the frame has at least 60 bars, the pull-back has at least 5 days and an
    amplitude of at most 10%, the first consolidation has at least 22 days,
    starts at position 5 or later and has an amplitude of at most 15%, the
    prior decline is at least 15%, the limit-up gain at least 9.8% (19.8%
    for a code that starts with 300), and the score lies between 51 and
    100.  The windows are adjacent: the first consolidation, the limit-up
    bar, the pull-back and the last bar fill the frame from
    [consolidation1_start] to its end. *)
Theorem sb_detail_within_thresholds (df : DataFrame) (code : string)
    (d : detail) :
  check_shrink_breakout_pattern (Some df) code = Ok (Some d) ->
  (60 <= len df)%Z
  /\ (5 <= post_days d)%Z
  /\ post_amplitude d <= 10
  /\ (22 <= consolidation1_days d)%Z
  /\ (5 <= consolidation1_start d)%Z
  /\ consolidation1_amplitude d <= 15
  /\ 15 <= decline_pct d
  /\ (98 # 10) <= limit_up_change d
  /\ (prefix "300" code = true -> (198 # 10) <= limit_up_change d)
  /\ (51 <= score d <= 100)%Z
  /\ (consolidation1_start d + consolidation1_days d + 1 + post_days d + 1
      = len df)%Z.
Proof.
  unfold check_shrink_breakout_pattern, check_shrink_breakout_pattern_cfg.
  intro H. bind_inv H. subst. injection H as <-.
  cbn [set_score post_days post_amplitude consolidation1_days
       consolidation1_start consolidation1_amplitude decline_pct
       limit_up_change score].
  match goal with
  | C : (len df <? 60)%Z = false |- _ => apply Z.ltb_ge in C
  end.
  match goal with
  | E : _sb_find_limit_up_day _ _ _ = Ok (Some ?z) |- _ =>
      destruct (sb_find_limit_up_spec df code) as [r [Hr Hs]];
      rewrite E in Hr; injection Hr as <-;
      destruct Hs as (Hz & Hlu & _)
  end.
  match goal with
  | E : _sb_check_post_consolidation _ _ _ = Ok _ |- _ =>
      destruct (sb_post_consolidation_inv _ _ _ E)
        as (lu & sg & _ & _ & Hpd & Hp5 & _ & _ & _ & Hpa)
  end.
  match goal with
  | E : _sb_check_pre_consolidation _ _ _ _ = Ok _ |- _ =>
      destruct (sb_pre_consolidation_inv _ _ _ _ E)
        as (Hs0 & Hdays & _ & _ & _ & amp & _ & _ & _ & Hca)
  end.
  match goal with
  | E : _sb_check_prior_decline _ _ _ = Ok _ |- _ =>
      destruct (sb_prior_decline_inv _ _ _ E) as (Hst & Hdp)
  end.
  unfold limit_up_at in Hlu.
  repeat match goal with
         | E : iloc df _ = Ok _ |- _ => rewrite E in Hlu
         end.
  cbn [bind] in Hlu. injection Hlu as Hlu.
  apply sb_is_limit_up_inv in Hlu. destruct Hlu as (_ & Hc & Hc3).
  match goal with
  | E : fdiv _ _ = Ok _ |- _ => apply fdiv_ok in E; destruct E as [-> _]
  end.
  split; [assumption|]. split; [exact Hp5|]. split; [exact Hpa|].
  split; [lia|]. split; [exact Hst|]. split; [exact Hca|].
  split; [exact Hdp|].
  split; [apply (round_n_ge (98 # 10) 980 2); [reflexivity | exact Hc]|].
  split; [intro Hp; apply (round_n_ge (198 # 10) 1980 2);
          [reflexivity | exact (Hc3 Hp)]|].
  split; [apply ShrinkScoreFacts.sb_score_range | lia].
Qed.

Lemma sb_detail_within_thresholds_witness :
  exists d,
    check_shrink_breakout_pattern (Some scenario_c) "600000" = Ok (Some d)
    /\ (51 <= score d <= 100)%Z /\ 15 <= decline_pct d.
Proof.
  eexists.
  assert (H : check_shrink_breakout_pattern (Some scenario_c) "600000"
              = Ok (Some _)) by (vm_compute; reflexivity).
  split; [exact H|].
  pose proof (sb_detail_within_thresholds scenario_c "600000"%string _ H)
    as (_ & _ & _ & _ & _ & _ & H7 & _ & _ & H10 & _).
  split; assumption.
Defined.

End ShrinkPhases.

(** ** Reading the hit map *)

Module HitMapFacts.
Import Aggregator AggregatorProps HitMapReads.

Lemma strategy_eqb_eq (a b : strategy) : strategy_eqb a b = true <-> a = b.
Proof. destruct a, b; cbn; intuition discriminate. Qed.

Lemma strategy_eqb_refl (a : strategy) : strategy_eqb a a = true.
Proof. destruct a; reflexivity. Qed.

Lemma lookup_set_score (s s' : strategy) (v : Z) (d : list (strategy * Z)) :
  lookup_score s (set_score s' v d)
  = if strategy_eqb s s' then Some v else lookup_score s d.
Proof.
  induction d as [|[s0 v0] t IH]; cbn.
  - destruct (strategy_eqb s s'); reflexivity.
  - destruct (strategy_eqb s' s0) eqn:E0; cbn.
    + apply strategy_eqb_eq in E0. subst s0.
      destruct (strategy_eqb s s'); reflexivity.
    + rewrite IH. destruct (strategy_eqb s s0) eqn:E1; [|reflexivity].
      apply strategy_eqb_eq in E1. subst s0.
      destruct (strategy_eqb s s') eqn:E2; [|reflexivity].
      apply strategy_eqb_eq in E2. subst s'.
      rewrite strategy_eqb_refl in E0. discriminate E0.
Qed.

Lemma score_of_record_hit (c : string) (s s' : strategy) (m : hit_map_t)
    (r : hit) :
  score_of c s (record_hit s' m r)
  = if String.eqb c (code r) && strategy_eqb s s' then Some (score r)
    else score_of c s m.
Proof.
  unfold score_of, record_hit. rewrite find_update.
  rewrite (mem_key_find (code r) m).
  destruct (String.eqb_spec c (code r)) as [->|NE]; cbn [andb].
  - destruct (find_entry (code r) m) as [e|] eqn:Ef.
    + rewrite Ef. cbn. apply lookup_set_score.
    + rewrite find_app_last, Ef, String.eqb_refl. cbn.
      destruct (strategy_eqb s s'); reflexivity.
  - destruct (find_entry (code r) m) as [e|]; [reflexivity|].
    rewrite find_app_last.
    destruct (find_entry c m); [reflexivity|].
    destruct (String.eqb_spec c (code r)); [contradiction | reflexivity].
Qed.

Lemma score_of_fold_other (c : string) (s s' : strategy) (rs : list hit) :
  forall m,
    (s <> s' \/ ~ In c (map code rs)) ->
    score_of c s (fold_left (record_hit s') rs m) = score_of c s m.
Proof.
  induction rs as [|r rs IH]; intros m H; [reflexivity|].
  cbn [fold_left]. rewrite IH.
  - rewrite score_of_record_hit.
    destruct (String.eqb_spec c (code r)) as [->|NE]; [|reflexivity].
    destruct (strategy_eqb s s') eqn:E; [|reflexivity].
    apply strategy_eqb_eq in E. destruct H as [H|H]; [contradiction|].
    exfalso. apply H. left. reflexivity.
  - destruct H as [H|H]; [left; exact H|].
    right. intro Hin. apply H. right. exact Hin.
Qed.

Lemma score_of_fold_same (s : strategy) (rs : list hit) :
  forall m r,
    NoDup (map code rs) -> In r rs ->
    score_of (code r) s (fold_left (record_hit s) rs m) = Some (score r).
Proof.
  induction rs as [|r0 rs IH]; intros m r Hnd Hin; [contradiction|].
  cbn [map] in Hnd. apply NoDup_cons_iff in Hnd. destruct Hnd as [Hn Hnd].
  cbn [fold_left]. destruct Hin as [->|Hin].
  - rewrite score_of_fold_other by (right; exact Hn).
    rewrite score_of_record_hit, String.eqb_refl, strategy_eqb_refl.
    reflexivity.
  - apply IH; assumption.
Qed.

(** X10. Every recorded hit can be read back from the hit map: when each
    result list names a symbol at most once, [hit_map[code]['scores']] of a
    symbol holds, under each detector that hit it, the score of that
    detector's result row, so the look-ups of the resonance table never
    miss a key. *)
Theorem hit_map_scores_read_back (rv vl sh : list hit) :
  NoDup (map code rv) -> NoDup (map code vl) -> NoDup (map code sh) ->
  let hit_map := build_hit_map rv vl sh in
  (forall r, In r rv ->
     score_of (code r) SReversal hit_map = Some (score r))
  /\ (forall r, In r vl ->
        score_of (code r) SVolumeBreakout hit_map = Some (score r))
  /\ (forall r, In r sh ->
        score_of (code r) SShrinkBreakout hit_map = Some (score r))
  /\ (forall c e s, In (c, e) hit_map -> In s (strategies e) ->
        exists v, lookup_score s (scores e) = Some v).
Proof.
  intros H1 H2 H3. cbv zeta. unfold build_hit_map. cbv zeta.
  assert (P1 : forall r, In r rv ->
             score_of (code r) SReversal
               (fold_left (record_hit SShrinkBreakout) sh
                  (fold_left (record_hit SVolumeBreakout) vl
                     (fold_left (record_hit SReversal) rv [])))
             = Some (score r)).
  { intros r Hr.
    rewrite !score_of_fold_other by (left; discriminate).
    apply score_of_fold_same; assumption. }
  assert (P2 : forall r, In r vl ->
             score_of (code r) SVolumeBreakout
               (fold_left (record_hit SShrinkBreakout) sh
                  (fold_left (record_hit SVolumeBreakout) vl
                     (fold_left (record_hit SReversal) rv [])))
             = Some (score r)).
  { intros r Hr.
    rewrite score_of_fold_other by (left; discriminate).
    apply score_of_fold_same; assumption. }
  assert (P3 : forall r, In r sh ->
             score_of (code r) SShrinkBreakout
               (fold_left (record_hit SShrinkBreakout) sh
                  (fold_left (record_hit SVolumeBreakout) vl
                     (fold_left (record_hit SReversal) rv [])))
             = Some (score r))
    by (intros r Hr; apply score_of_fold_same; assumption).
  split; [exact P1|]. split; [exact P2|]. split; [exact P3|].
  intros c e s Hin Hs.
  pose proof (keys_build_nodup rv vl sh) as Hnd.
  unfold build_hit_map in Hnd. cbv zeta in Hnd.
  pose proof (find_of_in c e _ Hnd Hin) as Hf.
  pose proof (strat_build rv vl sh c H1 H2 H3) as Hst.
  unfold build_hit_map, strat_of in Hst. cbv zeta in Hst.
  rewrite Hf in Hst. rewrite Hst in Hs. unfold hitting in Hs.
  assert (Hso : forall s0,
             score_of c s0
               (fold_left (record_hit SShrinkBreakout) sh
                  (fold_left (record_hit SVolumeBreakout) vl
                     (fold_left (record_hit SReversal) rv [])))
             = lookup_score s0 (scores e))
    by (intro s0; unfold score_of; rewrite Hf; reflexivity).
  assert (Hrow : forall rs, has_code c rs = true ->
                            exists r, In r rs /\ code r = c).
  { intros rs Hh. apply has_code_in in Hh. apply in_map_iff in Hh.
    destruct Hh as [r [E Hr]]. eauto. }
  apply in_app_or in Hs. destruct Hs as [Hs|Hs].
  - destruct (has_code c rv) eqn:Eh; [|contradiction].
    destruct Hs as [<-|[]]. destruct (Hrow _ Eh) as [r [Hr <-]].
    exists (score r). rewrite <- Hso. apply P1, Hr.
  - apply in_app_or in Hs. destruct Hs as [Hs|Hs].
    + destruct (has_code c vl) eqn:Eh; [|contradiction].
      destruct Hs as [<-|[]]. destruct (Hrow _ Eh) as [r [Hr <-]].
      exists (score r). rewrite <- Hso. apply P2, Hr.
    + destruct (has_code c sh) eqn:Eh; [|contradiction].
      destruct Hs as [<-|[]]. destruct (Hrow _ Eh) as [r [Hr <-]].
      exists (score r). rewrite <- Hso. apply P3, Hr.
Qed.

Lemma hit_map_scores_read_back_witness :
  score_of "000001" SVolumeBreakout
    (build_hit_map ex_reversal ex_volume ex_shrink) = Some 50%Z.
Proof.
  refine (proj1 (proj2 (hit_map_scores_read_back ex_reversal ex_volume
                          ex_shrink _ _ _)) (mkHit "000001" "A" 50) _).
  - repeat constructor; cbn; intuition discriminate.
  - repeat constructor; cbn; intuition discriminate.
  - repeat constructor; cbn; intuition discriminate.
  - right. left. reflexivity.
Defined.

End HitMapFacts.

(** ** The Top-5 recommendation *)

Module RecommendFacts.
Import Aggregator AggregatorProps Recommend.

Lemma pair_ltb_false (a b : Z * Z) :
  pair_ltb a b = false <->
  (fst b < fst a)%Z \/ (fst b = fst a /\ (snd b <= snd a)%Z).
Proof.
  unfold pair_ltb.
  destruct (fst a <? fst b)%Z eqn:E1; [apply Z.ltb_lt in E1 | apply Z.ltb_ge in E1];
  destruct (fst a =? fst b)%Z eqn:E2; [apply Z.eqb_eq in E2 | apply Z.eqb_neq in E2
                                      | apply Z.eqb_eq in E2 | apply Z.eqb_neq in E2];
  destruct (snd a <? snd b)%Z eqn:E3; [apply Z.ltb_lt in E3 | apply Z.ltb_ge in E3
                                      | apply Z.ltb_lt in E3 | apply Z.ltb_ge in E3
                                      | apply Z.ltb_lt in E3 | apply Z.ltb_ge in E3
                                      | apply Z.ltb_lt in E3 | apply Z.ltb_ge in E3];
  cbn; split; intro H; try discriminate H; try reflexivity; lia.
Qed.

Lemma pair_ltb_true (a b : Z * Z) :
  pair_ltb a b = true <->
  (fst a < fst b)%Z \/ (fst a = fst b /\ (snd a < snd b)%Z).
Proof.
  destruct (pair_ltb a b) eqn:E.
  - split; [intros _|reflexivity]. unfold pair_ltb in E.
    apply orb_true_iff in E. destruct E as [E|E].
    + apply Z.ltb_lt in E. left. exact E.
    + apply andb_true_iff in E. destruct E as [E1 E2].
      apply Z.eqb_eq in E1. apply Z.ltb_lt in E2. right. split; assumption.
  - apply pair_ltb_false in E. split; [discriminate|]. lia.
Qed.

Section SortedDesc2.

Context {A : Type}.
Variable key : A -> Z * Z.

Lemma in_insert_desc2 (a x : A) (l : list A) :
  In x (insert_desc2 key a l) <-> x = a \/ In x l.
Proof.
  induction l as [|y t IH]; cbn.
  - intuition.
  - destruct (pair_ltb (key a) (key y)); cbn; [rewrite IH|]; intuition.
Qed.

Lemma insert_desc2_perm (a : A) (l : list A) :
  Permutation (insert_desc2 key a l) (a :: l).
Proof.
  induction l as [|y t IH]; cbn; [reflexivity|].
  destruct (pair_ltb (key a) (key y)); [|reflexivity].
  rewrite IH. apply perm_swap.
Qed.

Lemma sorted_desc2_perm (l : list A) : Permutation (sorted_desc2 key l) l.
Proof.
  induction l as [|a l IH]; cbn; [reflexivity|].
  rewrite insert_desc2_perm. constructor. exact IH.
Qed.

Lemma insert_desc2_sorted (a : A) (l : list A) :
  StronglySorted (fun x y => pair_ltb (key x) (key y) = false) l -> StronglySorted (fun x y => pair_ltb (key x) (key y) = false) (insert_desc2 key a l).
Proof.
  induction 1 as [|y t Ht IH Hy]; cbn.
  - constructor; constructor.
  - destruct (pair_ltb (key a) (key y)) eqn:E.
    + constructor; [exact IH|].
      apply Forall_forall. intros x Hx.
      apply in_insert_desc2 in Hx. destruct Hx as [->|Hx].
      * apply pair_ltb_true in E. apply pair_ltb_false. lia.
      * rewrite Forall_forall in Hy. apply Hy, Hx.
    + constructor.
      * constructor; assumption.
      * constructor; [exact E|].
        rewrite Forall_forall in *. intros x Hx.
        specialize (Hy x Hx). cbv beta in *.
        apply pair_ltb_false in E, Hy. apply pair_ltb_false. lia.
Qed.

Lemma sorted_desc2_sorted (l : list A) :
  StronglySorted (fun x y => pair_ltb (key x) (key y) = false) (sorted_desc2 key l).
Proof.
  induction l as [|a l IH]; cbn; [constructor|].
  apply insert_desc2_sorted, IH.
Qed.

End SortedDesc2.

(** *** The dictionary [seen] *)

Lemma get_set (k k' : string) (v : candidate) (m : seen_t) :
  seen_get k (seen_set k' v m)
  = if String.eqb k k' then Some v else seen_get k m.
Proof.
  induction m as [|[k0 v0] t IH]; cbn.
  - reflexivity.
  - destruct (String.eqb_spec k' k0) as [->|NE]; cbn.
    + destruct (String.eqb k k0); reflexivity.
    + rewrite IH. destruct (String.eqb_spec k k0) as [->|NE'];
        [|reflexivity].
      destruct (String.eqb_spec k0 k'); [congruence | reflexivity].
Qed.

Lemma keys_set (k : string) (v : candidate) (m : seen_t) :
  map fst (seen_set k v m)
  = if existsb (String.eqb k) (map fst m) then map fst m
    else map fst m ++ [k].
Proof.
  induction m as [|[k0 v0] t IH]; cbn; [reflexivity|].
  destruct (String.eqb_spec k k0) as [->|NE]; cbn; [reflexivity|].
  rewrite IH. destruct (existsb (String.eqb k) (map fst t)); reflexivity.
Qed.

Lemma get_none_keys (k : string) (m : seen_t) :
  seen_get k m = None <-> ~ In k (map fst m).
Proof.
  induction m as [|[k0 v0] t IH]; cbn; [intuition|].
  destruct (String.eqb_spec k k0) as [->|NE].
  - split; [discriminate | intro H; exfalso; apply H; left; reflexivity].
  - rewrite IH. intuition congruence.
Qed.

Lemma existsb_eqb_in (k : string) (l : list string) :
  existsb (String.eqb k) l = true <-> In k l.
Proof.
  rewrite existsb_exists. split.
  - intros [x [Hx E]]. apply String.eqb_eq in E. subst. exact Hx.
  - intro H. exists k. split; [exact H | apply String.eqb_refl].
Qed.

Lemma nodup_snoc (k : string) (l : list string) :
  NoDup l -> ~ In k l -> NoDup (l ++ [k]).
Proof.
  intros Hnd Hn. induction l as [|x l IH]; cbn.
  - constructor; [intros [] | constructor].
  - apply NoDup_cons_iff in Hnd. destruct Hnd as [Hx Hl].
    constructor.
    + rewrite in_app_iff. cbn. intros [H|[H|[]]]; [contradiction|].
      apply Hn. left. symmetry. exact H.
    + apply IH; [exact Hl|]. intro H. apply Hn. right. exact H.
Qed.

Lemma keys_set_nodup (k : string) (v : candidate) (m : seen_t) :
  NoDup (map fst m) -> NoDup (map fst (seen_set k v m)).
Proof.
  intro H. rewrite keys_set.
  destruct (existsb (String.eqb k) (map fst m)) eqn:E; [exact H|].
  apply nodup_snoc; [exact H|]. intro Hin.
  apply existsb_eqb_in in Hin. congruence.
Qed.

Lemma get_of_in (k : string) (v : candidate) (m : seen_t) :
  NoDup (map fst m) -> In (k, v) m -> seen_get k m = Some v.
Proof.
  induction m as [|[k0 v0] t IH]; intros Hnd Hin; [contradiction|].
  cbn [map fst] in Hnd. apply NoDup_cons_iff in Hnd. destruct Hnd as [Hk Ht].
  cbn. destruct Hin as [E|Hin].
  - injection E as -> ->. rewrite String.eqb_refl. reflexivity.
  - destruct (String.eqb_spec k k0) as [->|NE].
    + exfalso. apply Hk. apply in_map_iff. exists (k0, v). split; auto.
    + apply IH; assumption.
Qed.

Lemma see_inv (m : seen_t) (l : list candidate) (s : candidate) :
  seen_inv m l -> seen_inv (see m s) (l ++ [s]).
Proof.
  intros [Hnd Hinv]. unfold see.
  pose proof (Hinv (c_code s)) as Hs.
  destruct (seen_get (c_code s) m) as [old|] eqn:Eo.
  - destruct Hs as (Hco & Hin & Hmax).
    destruct (c_score old <? c_score s)%Z eqn:El;
      [apply Z.ltb_lt in El | apply Z.ltb_ge in El].
    + split; [apply keys_set_nodup, Hnd|].
      intro k. rewrite get_set.
      destruct (String.eqb_spec k (c_code s)) as [->|NE].
      * split; [reflexivity|]. split; [apply in_or_app; right; left; reflexivity|].
        intros y Hy Hc. apply in_app_or in Hy. destruct Hy as [Hy|[<-|[]]];
          [specialize (Hmax y Hy Hc); lia | lia].
      * specialize (Hinv k). destruct (seen_get k m) as [x|].
        -- destruct Hinv as (H1 & H2 & H3). split; [exact H1|].
           split; [apply in_or_app; left; exact H2|].
           intros y Hy Hc. apply in_app_or in Hy.
           destruct Hy as [Hy|[<-|[]]]; [apply H3; assumption | congruence].
        -- intros y Hy. apply in_app_or in Hy.
           destruct Hy as [Hy|[<-|[]]]; [apply Hinv, Hy | congruence].
    + split; [exact Hnd|].
      intro k. specialize (Hinv k).
      destruct (String.eqb_spec k (c_code s)) as [->|NE].
      * rewrite Eo in *. split; [exact Hco|].
        split; [apply in_or_app; left; exact Hin|].
        intros y Hy Hc. apply in_app_or in Hy. destruct Hy as [Hy|[<-|[]]];
          [apply Hmax; assumption | lia].
      * destruct (seen_get k m) as [x|].
        -- destruct Hinv as (H1 & H2 & H3). split; [exact H1|].
           split; [apply in_or_app; left; exact H2|].
           intros y Hy Hc. apply in_app_or in Hy.
           destruct Hy as [Hy|[<-|[]]]; [apply H3; assumption | congruence].
        -- intros y Hy. apply in_app_or in Hy.
           destruct Hy as [Hy|[<-|[]]]; [apply Hinv, Hy | congruence].
  - split; [apply keys_set_nodup, Hnd|].
    intro k. rewrite get_set.
    destruct (String.eqb_spec k (c_code s)) as [->|NE].
    + split; [reflexivity|]. split; [apply in_or_app; right; left; reflexivity|].
      intros y Hy Hc. apply in_app_or in Hy. destruct Hy as [Hy|[<-|[]]];
        [exfalso; exact (Hs y Hy Hc) | lia].
    + specialize (Hinv k). destruct (seen_get k m) as [x|].
      * destruct Hinv as (H1 & H2 & H3). split; [exact H1|].
        split; [apply in_or_app; left; exact H2|].
        intros y Hy Hc. apply in_app_or in Hy.
        destruct Hy as [Hy|[<-|[]]]; [apply H3; assumption | congruence].
      * intros y Hy. apply in_app_or in Hy.
        destruct Hy as [Hy|[<-|[]]]; [apply Hinv, Hy | congruence].
Qed.

Lemma fold_see_inv (l : list candidate) :
  forall m l0, seen_inv m l0 -> seen_inv (fold_left see l m) (l0 ++ l).
Proof.
  induction l as [|s l IH]; intros m l0 H; cbn.
  - rewrite app_nil_r. exact H.
  - replace (l0 ++ s :: l) with ((l0 ++ [s]) ++ l)
      by (rewrite <- app_assoc; reflexivity).
    apply IH, see_inv, H.
Qed.

Lemma dedupe_inv (l : list candidate) : seen_inv (dedupe l) l.
Proof.
  apply (fold_see_inv l [] []). split; [constructor|].
  intros k y [].
Qed.

Lemma in_seen_key (k : string) (x : candidate) (l : list candidate) :
  In (k, x) (dedupe l) -> c_code x = k.
Proof.
  intro Hin. destruct (dedupe_inv l) as [Hnd Hinv].
  specialize (Hinv k). rewrite (get_of_in k x _ Hnd Hin) in Hinv.
  apply Hinv.
Qed.

Lemma strongly_sorted_impl {A : Type} (R R' : A -> A -> Prop) (l : list A) :
  (forall x y, R x y -> R' x y) -> StronglySorted R l -> StronglySorted R' l.
Proof.
  intros Himp. induction 1 as [|a l Hl IH Ha]; constructor; [exact IH|].
  rewrite Forall_forall in *. intros x Hx. apply Himp, Ha, Hx.
Qed.

Lemma codes_of_seen (l : list candidate) :
  map c_code (map snd (dedupe l)) = map fst (dedupe l).
Proof.
  rewrite map_map. apply map_ext_in. intros [k x] Hin. cbn.
  apply (in_seen_key k x l Hin).
Qed.

Lemma codes_of_all_stocks (rv vl sh : list hit) :
  map c_code (all_stocks rv vl sh) = map code (rv ++ vl ++ sh).
Proof.
  unfold all_stocks. cbv zeta. rewrite !map_app, !map_map. reflexivity.
Qed.

Lemma multi_flag (hit_map : hit_map_t) (c : string) :
  NoDup (map fst hit_map) ->
  mem_key c (multi_hit hit_map) = true
  <-> (2 <= len (strat_of c hit_map))%Z.
Proof.
  intro Hnd. rewrite mem_key_in, in_map_iff. unfold multi_hit, strat_of.
  split.
  - intros [[c' e] [E Hin]]. cbn in E. subst c'.
    apply filter_In in Hin. destruct Hin as [Hin Hlen].
    rewrite (find_of_in c e _ Hnd Hin).
    apply Z.leb_le in Hlen. exact Hlen.
  - intro Hlen. destruct (find_entry c hit_map) as [e|] eqn:Ef.
    + exists (c, e). split; [reflexivity|]. apply filter_In.
      split; [apply in_of_find, Ef|]. apply Z.leb_le. exact Hlen.
    + cbn in Hlen. lia.
Qed.

(** X11. The ranking behind "Top 5": every symbol that some detector hit
    appears exactly once; the entry kept for a symbol is one of its result
    rows with the highest score among them; its hit count is the number of
    entries of the symbol's strategy list in the hit map and its resonance
    flag is set exactly when that count is at least 2; the entries are in
    descending order of (hit count, score); and the recommendation is the
    first five of them. *)
Theorem top_recommendations (rv vl sh : list hit) :
  let cs := all_stocks rv vl sh in
  let rk := ranked rv vl sh in
  let hit_map := build_hit_map rv vl sh in
  NoDup (map c_code rk)
  /\ (forall c, In c (map c_code rk) <-> In c (map code (rv ++ vl ++ sh)))
  /\ (forall x, In x rk ->
        In x cs
        /\ forall y, In y cs -> c_code y = c_code x ->
                     (c_score y <= c_score x)%Z)
  /\ (forall x, In x rk ->
        c_hit_count x = len (strat_of (c_code x) hit_map)
        /\ (c_multi_hit x = true <-> (2 <= c_hit_count x)%Z))
  /\ StronglySorted (fun a b => rank_le b a) rk
  /\ top5 rv vl sh = firstn 5 rk
  /\ (List.length (top5 rv vl sh) <= 5)%nat.
Proof.
  cbv zeta.
  destruct (dedupe_inv (all_stocks rv vl sh)) as [Hnd Hinv].
  assert (Hperm : Permutation (ranked rv vl sh)
                    (map snd (dedupe (all_stocks rv vl sh))))
    by apply sorted_desc2_perm.
  assert (Hget : forall x, In x (ranked rv vl sh) ->
             seen_get (c_code x) (dedupe (all_stocks rv vl sh)) = Some x).
  { intros x Hx. apply (Permutation_in _ Hperm) in Hx.
    apply in_map_iff in Hx. destruct Hx as [[k x'] [E Hin]]. cbn in E.
    subst x'. rewrite (in_seen_key k x _ Hin).
    apply get_of_in; assumption. }
  assert (Hmem : forall x, In x (ranked rv vl sh) ->
             In x (all_stocks rv vl sh)
             /\ forall y, In y (all_stocks rv vl sh) ->
                          c_code y = c_code x ->
                          (c_score y <= c_score x)%Z).
  { intros x Hx. specialize (Hinv (c_code x)). rewrite (Hget x Hx) in Hinv.
    destruct Hinv as (_ & H2 & H3). split; assumption. }
  split.
  { apply (Permutation_NoDup
             (l := map c_code (map snd (dedupe (all_stocks rv vl sh))))).
    - apply Permutation_map. symmetry. exact Hperm.
    - rewrite codes_of_seen. exact Hnd. }
  split.
  { intro c. rewrite <- codes_of_all_stocks. split.
    - intro Hc. apply in_map_iff in Hc. destruct Hc as [x [<- Hx]].
      apply in_map, (Hmem x Hx).
    - intro Hc. apply in_map_iff in Hc. destruct Hc as [y [<- Hy]].
      apply (Permutation_in (l := map c_code
               (map snd (dedupe (all_stocks rv vl sh))))).
      + apply Permutation_map. symmetry. exact Hperm.
      + rewrite codes_of_seen.
        destruct (in_dec string_dec (c_code y)
                    (map fst (dedupe (all_stocks rv vl sh)))) as [Hi|Hn];
          [exact Hi|].
        apply get_none_keys in Hn. specialize (Hinv (c_code y)).
        rewrite Hn in Hinv. exfalso. exact (Hinv y Hy eq_refl). }
  split; [exact Hmem|].
  split.
  { intros x Hx. destruct (Hmem x Hx) as [Hin _].
    assert (Hc : exists s r,
               x = candidate_of (build_hit_map rv vl sh) s r).
    { unfold all_stocks in Hin. cbv zeta in Hin.
      repeat (apply in_app_or in Hin; destruct Hin as [Hin|Hin]);
        apply in_map_iff in Hin; destruct Hin as [r [<- _]]; eauto. }
    destruct Hc as (s & r & ->). cbn [candidate_of c_hit_count c_code c_multi_hit].
    split; [reflexivity|].
    apply multi_flag, keys_build_nodup. }
  split.
  { unfold ranked.
    apply (strongly_sorted_impl
             (fun x y => pair_ltb (rank_key x) (rank_key y) = false));
      [|apply sorted_desc2_sorted].
    intros x y H. apply pair_ltb_false in H. exact H. }
  split; [reflexivity|].
  unfold top5. rewrite length_firstn. lia.
Qed.

End RecommendFacts.

(** ** Screening and collecting *)

Module OrchestratorFacts.
Import Orchestrator.

Lemma append_opt_list {A : Type} (l : list A) (o : option A) :
  append_opt l o = l ++ opt_list o.
Proof. destruct o; cbn; [reflexivity | rewrite app_nil_r; reflexivity]. Qed.

Lemma collect_step_adds (acc : collected) (input : stock * option DataFrame) :
  reversal_results (collect_step acc input)
  = reversal_results acc ++ adds_reversal input
  /\ volume_results (collect_step acc input)
     = volume_results acc ++ adds_volume input
  /\ shrink_results (collect_step acc input)
     = shrink_results acc ++ adds_shrink input.
Proof.
  destruct input as [st [df|]];
    unfold collect_step, screen_single_stock, adds_reversal, adds_volume,
      adds_shrink; cbn [fst snd].
  - destruct (guarded (Reversal.check_reversal_pattern (Some df)));
      destruct (guarded (VolumeBreakout.check_volume_breakout_pattern
                           (Some df) (code st)));
      destruct (guarded (ShrinkBreakout.check_shrink_breakout_pattern
                           (Some df) (code st)));
      cbn; rewrite ?app_nil_r; repeat split; reflexivity.
  - rewrite !app_nil_r. repeat split; reflexivity.
Qed.

Lemma collect_adds (inputs : list (stock * option DataFrame)) :
  forall acc,
    reversal_results (fold_left collect_step inputs acc)
    = reversal_results acc ++ flat_map adds_reversal inputs
    /\ volume_results (fold_left collect_step inputs acc)
       = volume_results acc ++ flat_map adds_volume inputs
    /\ shrink_results (fold_left collect_step inputs acc)
       = shrink_results acc ++ flat_map adds_shrink inputs.
Proof.
  induction inputs as [|i inputs IH]; intro acc; cbn [fold_left flat_map].
  - rewrite !app_nil_r. repeat split; reflexivity.
  - destruct (IH (collect_step acc i)) as (H1 & H2 & H3).
    destruct (collect_step_adds acc i) as (S1 & S2 & S3).
    rewrite H1, H2, H3, S1, S2, S3, <- !app_assoc.
    repeat split; reflexivity.
Qed.

Section PickedRows.

Context {D : Type}.
Variable adds : stock * option DataFrame -> list (row D).
Hypothesis adds_own : forall i r, In r (adds i) -> r_code r = code (fst i).
Hypothesis adds_one : forall i, (List.length (adds i) <= 1)%nat.

Lemma picked_codes_nodup (inputs : list (stock * option DataFrame)) :
  NoDup (map (fun i => code (fst i)) inputs) ->
  NoDup (map r_code (flat_map adds inputs)).
Proof.
  induction inputs as [|i inputs IH]; intro Hnd; [constructor|].
  cbn [map] in Hnd. apply NoDup_cons_iff in Hnd. destruct Hnd as [Hn Hnd].
  cbn [flat_map]. rewrite map_app.
  pose proof (adds_one i) as H1. pose proof (adds_own i) as Ho.
  destruct (adds i) as [|r [|r' rest]]; cbn in H1; [| |lia].
  - apply IH, Hnd.
  - cbn. constructor; [|apply IH, Hnd].
    intro Hin. apply Hn. apply in_map_iff in Hin.
    destruct Hin as [x [Ex Hx]]. apply in_flat_map in Hx.
    destruct Hx as [j [Hj Hxj]]. apply in_map_iff. exists j.
    split; [|exact Hj].
    rewrite <- (adds_own j x Hxj), Ex. apply Ho. left. reflexivity.
Qed.

End PickedRows.

Lemma refresh_code {D : Type} (name_map : string -> option string)
    (r : row D) : r_code (refresh name_map r) = r_code r.
Proof. unfold refresh. destruct (name_map (r_code r)); reflexivity. Qed.

Lemma refresh_detail {D : Type} (name_map : string -> option string)
    (r : row D) : r_detail (refresh name_map r) = r_detail r.
Proof. unfold refresh. destruct (name_map (r_code r)); reflexivity. Qed.

Lemma strongly_sorted_map {A B : Type} (R : B -> B -> Prop) (f : A -> B)
    (l : list A) :
  StronglySorted (fun x y => R (f x) (f y)) l -> StronglySorted R (map f l).
Proof.
  induction 1 as [|a l Hl IH Ha]; cbn; constructor; [exact IH|].
  rewrite Forall_forall in *. intros y Hy. apply in_map_iff in Hy.
  destruct Hy as [x [<- Hx]]. apply Ha, Hx.
Qed.

Section FinalList.

Context {D : Type}.
Variable score : D -> Z.
Variable to_hit : row D -> Aggregator.hit.
Hypothesis hit_code : forall r, Aggregator.code (to_hit r) = r_code r.
Hypothesis hit_score :
  forall r, Aggregator.score (to_hit r) = score (r_detail r).
Variable name_map : string -> option string.

Lemma final_codes_nodup (l : list (row D)) :
  NoDup (map r_code l) ->
  NoDup (map Aggregator.code (map to_hit (final score name_map l))).
Proof.
  intro H. unfold final. rewrite !map_map.
  rewrite (map_ext _ r_code)
    by (intro r; rewrite hit_code; apply refresh_code).
  apply (Permutation_NoDup (l := map r_code l)); [|exact H].
  apply Permutation_map. symmetry. apply AggregatorProps.sorted_desc_perm.
Qed.

Lemma final_sorted (l : list (row D)) :
  StronglySorted (Aggregator.desc Aggregator.score) (map to_hit (final score name_map l)).
Proof.
  unfold final. rewrite map_map. apply strongly_sorted_map.
  pose proof (AggregatorProps.sorted_desc_sorted
                (fun r => score (r_detail r)) l) as Hs.
  revert Hs. apply RecommendFacts.strongly_sorted_impl.
  intros x y Hxy. unfold Aggregator.desc in *.
  rewrite !hit_score, !refresh_detail. exact Hxy.
Qed.

Lemma final_in (l : list (row D)) (r : row D) :
  In r (final score name_map l) <-> exists r0, In r0 l /\ r = refresh name_map r0.
Proof.
  unfold final. rewrite in_map_iff. split.
  - intros [r0 [E Hin]]. apply AggregatorProps.in_sorted_desc in Hin. eauto.
  - intros [r0 [Hin E]]. exists r0. split; [symmetry; exact E|].
    apply AggregatorProps.in_sorted_desc, Hin.
Qed.

End FinalList.

(** X12. The three lists [run] hands to the report, for stocks with
    pairwise distinct codes.  Each list names a symbol at most once (so the
    resonance table counts distinct detectors) and is in descending order
    of score.  A stock whose history the detector matches is listed, with
    the stock's code, the detail of the match and the stock's name (its
    latest name when [name_map] has one); every listed row comes from such
    a stock with a history, never from one the detector rejected. *)
Theorem run_results_well_formed
    (inputs : list (stock * option DataFrame))
    (name_map : string -> option string) :
  NoDup (map (fun i => code (fst i)) inputs) ->
  let res := run_results inputs name_map in
  let latest st :=
    match name_map (code st) with Some n => n | None => name st end in
  (NoDup (map Aggregator.code (map reversal_hit (reversal_results res)))
   /\ NoDup (map Aggregator.code (map volume_hit (volume_results res)))
   /\ NoDup (map Aggregator.code (map shrink_hit (shrink_results res))))
  /\ (StronglySorted (Aggregator.desc Aggregator.score)
        (map reversal_hit (reversal_results res))
      /\ StronglySorted (Aggregator.desc Aggregator.score)
           (map volume_hit (volume_results res))
      /\ StronglySorted (Aggregator.desc Aggregator.score)
           (map shrink_hit (shrink_results res)))
  /\ (forall st df d,
        In (st, Some df) inputs ->
        Reversal.check_reversal_pattern (Some df) = Ok (Some d) ->
        In (mkRow (code st) (latest st) d) (reversal_results res))
  /\ (forall r, In r (reversal_results res) ->
        exists st df,
          In (st, Some df) inputs
          /\ r_code r = code st /\ r_name r = latest st
          /\ Reversal.check_reversal_pattern (Some df) <> Ok None
          /\ forall d, Reversal.check_reversal_pattern (Some df) = Ok (Some d) -> r_detail r = d)
  /\ (forall st df d,
        In (st, Some df) inputs ->
        VolumeBreakout.check_volume_breakout_pattern (Some df) (code st) = Ok (Some d) ->
        In (mkRow (code st) (latest st) d) (volume_results res))
  /\ (forall r, In r (volume_results res) ->
        exists st df,
          In (st, Some df) inputs
          /\ r_code r = code st /\ r_name r = latest st
          /\ VolumeBreakout.check_volume_breakout_pattern (Some df) (code st) <> Ok None
          /\ forall d, VolumeBreakout.check_volume_breakout_pattern (Some df) (code st) = Ok (Some d) -> r_detail r = d)
  /\ (forall st df d,
        In (st, Some df) inputs ->
        ShrinkBreakout.check_shrink_breakout_pattern (Some df) (code st) = Ok (Some d) ->
        In (mkRow (code st) (latest st) d) (shrink_results res))
  /\ (forall r, In r (shrink_results res) ->
        exists st df,
          In (st, Some df) inputs
          /\ r_code r = code st /\ r_name r = latest st
          /\ ShrinkBreakout.check_shrink_breakout_pattern (Some df) (code st) <> Ok None
          /\ forall d, ShrinkBreakout.check_shrink_breakout_pattern (Some df) (code st) = Ok (Some d) -> r_detail r = d).
Proof.
  intro Hnd. cbv zeta. unfold run_results. cbv zeta.
  destruct (collect_adds inputs (mkCollected [] [] [])) as (E1 & E2 & E3).
  cbn [reversal_results volume_results shrink_results app] in E1, E2, E3.
  cbn [reversal_results volume_results shrink_results].
  rewrite E1, E2, E3.
  assert (O1 : forall i r, In r (adds_reversal i) -> r_code r = code (fst i)).
  { intros [st [df|]] r; unfold adds_reversal; cbn [fst snd]; [|intros []].
    destruct (guarded _); cbn; [|intros []]. intros [<-|[]]. reflexivity. }
  assert (O2 : forall i r, In r (adds_volume i) -> r_code r = code (fst i)).
  { intros [st [df|]] r; unfold adds_volume; cbn [fst snd]; [|intros []].
    destruct (guarded _); cbn; [|intros []]. intros [<-|[]]. reflexivity. }
  assert (O3 : forall i r, In r (adds_shrink i) -> r_code r = code (fst i)).
  { intros [st [df|]] r; unfold adds_shrink; cbn [fst snd]; [|intros []].
    destruct (guarded _); cbn; [|intros []]. intros [<-|[]]. reflexivity. }
  assert (L1 : forall i, (List.length (adds_reversal i) <= 1)%nat).
  { intros [st [df|]]; unfold adds_reversal; cbn [fst snd]; [|cbn; lia].
    destruct (guarded _); cbn; lia. }
  assert (L2 : forall i, (List.length (adds_volume i) <= 1)%nat).
  { intros [st [df|]]; unfold adds_volume; cbn [fst snd]; [|cbn; lia].
    destruct (guarded _); cbn; lia. }
  assert (L3 : forall i, (List.length (adds_shrink i) <= 1)%nat).
  { intros [st [df|]]; unfold adds_shrink; cbn [fst snd]; [|cbn; lia].
    destruct (guarded _); cbn; lia. }
  assert (R : forall (D : Type) (st : stock) (d : D),
             refresh name_map (mkRow (code st) (name st) d)
             = mkRow (code st)
                 match name_map (code st) with
                 | Some n => n
                 | None => name st
                 end d).
  { intros D st d. unfold refresh. cbn.
    destruct (name_map (code st)); reflexivity. }
  split; [split; [|split]|].
  - apply (final_codes_nodup Reversal.score reversal_hit); [reflexivity|].
    apply picked_codes_nodup; assumption.
  - apply (final_codes_nodup VolumeBreakout.score volume_hit); [reflexivity|].
    apply picked_codes_nodup; assumption.
  - apply (final_codes_nodup ShrinkBreakout.score shrink_hit); [reflexivity|].
    apply picked_codes_nodup; assumption.
  - split; [split; [|split]|].
    + apply (final_sorted Reversal.score reversal_hit); reflexivity.
    + apply (final_sorted VolumeBreakout.score volume_hit); reflexivity.
    + apply (final_sorted ShrinkBreakout.score shrink_hit); reflexivity.
    + repeat apply conj.
      * intros st df d Hi Hc.
        apply (final_in Reversal.score name_map).
        exists (mkRow (code st) (name st) d). split; [|symmetry; apply R].
        apply in_flat_map. exists (st, Some df). split; [exact Hi|].
        unfold adds_reversal. cbn [fst snd]. rewrite Hc. left. reflexivity.
      * intros r Hr. apply (final_in Reversal.score name_map) in Hr.
        destruct Hr as [r0 [Hin ->]]. apply in_flat_map in Hin.
        destruct Hin as [[st [df|]] [Hi Hr]];
          unfold adds_reversal in Hr; cbn [fst snd] in Hr; [|contradiction].
        destruct (Reversal.check_reversal_pattern (Some df)) as [[d|]|] eqn:Ec; cbn in Hr; try contradiction.
        destruct Hr as [<-|[]]. exists st, df. rewrite R, Ec.
        split; [exact Hi|]. cbn [r_code r_name r_detail].
        split; [reflexivity|]. split; [reflexivity|].
        split; [discriminate|]. intros d' Hd. congruence.
      * intros st df d Hi Hc.
        apply (final_in VolumeBreakout.score name_map).
        exists (mkRow (code st) (name st) d). split; [|symmetry; apply R].
        apply in_flat_map. exists (st, Some df). split; [exact Hi|].
        unfold adds_volume. cbn [fst snd]. rewrite Hc. left. reflexivity.
      * intros r Hr. apply (final_in VolumeBreakout.score name_map) in Hr.
        destruct Hr as [r0 [Hin ->]]. apply in_flat_map in Hin.
        destruct Hin as [[st [df|]] [Hi Hr]];
          unfold adds_volume in Hr; cbn [fst snd] in Hr; [|contradiction].
        destruct (VolumeBreakout.check_volume_breakout_pattern (Some df) (code st)) as [[d|]|] eqn:Ec; cbn in Hr; try contradiction.
        destruct Hr as [<-|[]]. exists st, df. rewrite R, Ec.
        split; [exact Hi|]. cbn [r_code r_name r_detail].
        split; [reflexivity|]. split; [reflexivity|].
        split; [discriminate|]. intros d' Hd. congruence.
      * intros st df d Hi Hc.
        apply (final_in ShrinkBreakout.score name_map).
        exists (mkRow (code st) (name st) d). split; [|symmetry; apply R].
        apply in_flat_map. exists (st, Some df). split; [exact Hi|].
        unfold adds_shrink. cbn [fst snd]. rewrite Hc. left. reflexivity.
      * intros r Hr. apply (final_in ShrinkBreakout.score name_map) in Hr.
        destruct Hr as [r0 [Hin ->]]. apply in_flat_map in Hin.
        destruct Hin as [[st [df|]] [Hi Hr]];
          unfold adds_shrink in Hr; cbn [fst snd] in Hr; [|contradiction].
        destruct (ShrinkBreakout.check_shrink_breakout_pattern (Some df) (code st)) as [[d|]|] eqn:Ec; cbn in Hr; try contradiction.
        destruct Hr as [<-|[]]. exists st, df. rewrite R, Ec.
        split; [exact Hi|]. cbn [r_code r_name r_detail].
        split; [reflexivity|]. split; [reflexivity|].
        split; [discriminate|]. intros d' Hd. congruence.
Qed.

Lemma run_results_well_formed_witness :
  exists d,
    In (mkRow "600000" "NEW" d)
      (reversal_results
         (run_results
            [ (mkStock "sh.600000" "600000" "OLD", Some Reversal.scenario_a)
            ; (mkStock "sh.600001" "600001" "B", None)
            ; (mkStock "sz.000001" "000001" "C",
               Some VolumeBreakout.scenario_b) ]
            (fun c => if String.eqb c "600000" then Some "NEW"%string
                      else None))).
Proof.
  destruct (Reversal.check_reversal_pattern (Some Reversal.scenario_a))
    as [[d|]|] eqn:E;
    [| vm_compute in E; discriminate | vm_compute in E; discriminate].
  exists d.
  refine (proj1 (proj2 (proj2
            (run_results_well_formed
               [ (mkStock "sh.600000" "600000" "OLD",
                  Some Reversal.scenario_a)
               ; (mkStock "sh.600001" "600001" "B", None)
               ; (mkStock "sz.000001" "000001" "C",
                  Some VolumeBreakout.scenario_b) ]
               (fun c => if String.eqb c "600000" then Some "NEW"%string
                         else None) _)))
            (mkStock "sh.600000" "600000" "OLD") Reversal.scenario_a d _ E).
  - repeat constructor; cbn; intuition discriminate.
  - left. reflexivity.
Defined.

End OrchestratorFacts.

(** ** The stock universe *)

Module StockListFacts.
Import Orchestrator StockList LatestNames.

Local Open Scope string_scope.

Lemma prefix_nil (s : string) : String.prefix "" s = true.
Proof. destruct s; reflexivity. Qed.

Lemma prefix_spec (p s : string) :
  String.prefix p s = true <-> exists t, s = p ++ t.
Proof.
  revert s. induction p as [|a p IH]; intro s.
  - rewrite prefix_nil. split; [intros _; exists s; reflexivity | reflexivity].
  - destruct s as [|b s]; cbn;
      [split; [discriminate | intros [t E]; discriminate]|].
    destruct (ascii_dec a b) as [->|Hab].
    + rewrite IH. split; intros [t E]; exists t; cbn in *; congruence.
    + split; [discriminate | intros [t E]; cbn in E; congruence].
Qed.

Lemma startswith_app (p t : string) : startswith (p ++ t) p = true.
Proof. apply prefix_spec. exists t. reflexivity. Qed.

Lemma contains_char_cons (sep a : ascii) (s : string) :
  contains (String sep "") (String a s)
  = Ascii.eqb sep a || contains (String sep "") s.
Proof.
  cbn [contains String.prefix]. destruct (ascii_dec sep a) as [->|Hn].
  - rewrite prefix_nil, Ascii.eqb_refl. reflexivity.
  - destruct (Ascii.eqb sep a) eqn:E;
      [apply Ascii.eqb_eq in E; contradiction | reflexivity].
Qed.

Lemma contains_char_nil (sep : ascii) : contains (String sep "") "" = false.
Proof. reflexivity. Qed.

Lemma split_cons (sep : ascii) (s : string) :
  exists h tl, split sep s = h :: tl.
Proof.
  destruct s as [|c s]; cbn; [eauto|].
  destruct (Ascii.eqb c sep); [eauto|].
  destruct (split sep s); eauto.
Qed.

(** The first field of a split: the text in front of the first separator. *)
Lemma split_head (sep : ascii) (s h : string) (tl : list string) :
  split sep s = h :: tl ->
  contains (String sep "") h = false
  /\ ((tl = [] /\ s = h)
      \/ (tl <> [] /\ exists r, s = h ++ String sep r)).
Proof.
  revert h tl. induction s as [|c s IH]; intros h tl E; cbn [split] in E.
  - injection E as <- <-. split; [reflexivity | left; split; reflexivity].
  - destruct (Ascii.eqb c sep) eqn:Ec.
    + apply Ascii.eqb_eq in Ec. subst c. injection E as <- <-.
      split; [reflexivity|]. right. split.
      * destruct (split_cons sep s) as [h' [tl' ->]]. discriminate.
      * exists s. reflexivity.
    + destruct (split sep s) as [|h' tl'] eqn:Es;
        [destruct (split_cons sep s) as [? [? ?]]; congruence|].
      injection E as <- <-. destruct (IH h' tl' eq_refl) as [Hn Hs].
      split.
      * rewrite contains_char_cons, Hn, Ascii.eqb_sym, Ec. reflexivity.
      * destruct Hs as [[-> ->]|[Hne [r ->]]];
          [left; split; reflexivity | right; split; [exact Hne|]].
        exists r. reflexivity.
Qed.

(** The second field of [ex.ct], for an [ex] without a dot. *)
Lemma second_field (ex : string) (c : ascii) (t : string) :
  contains "." ex = false ->
  Ascii.eqb c "." = false ->
  exists h tl,
    split "." t = h :: tl
    /\ nth_error (split "." (ex ++ "." ++ String c t)) 1 = Some (String c h)
    /\ List.length (split "." (ex ++ "." ++ String c t))
       = S (S (List.length tl)).
Proof.
  intros Hex Hc. destruct (split_cons "." t) as [h [tl E]]. exists h, tl.
  split; [exact E|].
  induction ex as [|a ex IH].
  - cbn [append split]. rewrite Ascii.eqb_refl, Hc, E. split; reflexivity.
  - rewrite contains_char_cons in Hex. apply orb_false_iff in Hex.
    destruct Hex as [Ha Hex]. destruct (IH Hex) as [I1 I2].
    change (String a ex ++ "." ++ String c t)
      with (String a (ex ++ "." ++ String c t)).
    cbn [split]. rewrite Ascii.eqb_sym, Ha.
    destruct (split "." (ex ++ "." ++ String c t)) as [|x [|y l]] eqn:Es;
      try discriminate.
    split; [exact I1 | exact I2].
Qed.

Lemma append_nil_r (s : string) : s ++ "" = s.
Proof.
  induction s as [|c s IH]; cbn; [reflexivity | rewrite IH; reflexivity].
Qed.

Lemma append_assoc (a b c : string) : (a ++ b) ++ c = a ++ b ++ c.
Proof.
  induction a as [|x a IH]; cbn; [reflexivity | rewrite IH; reflexivity].
Qed.

(** A symbol [ex.ct] with a first digit [c]. *)
Lemma listed_field (row : basic_row) (ex : string) (c : ascii) (t : string) :
  row_code row = ex ++ "." ++ String c t ->
  contains "." ex = false ->
  Ascii.eqb c "." = false ->
  exists h rest,
    nth_error (split "." (row_code row)) 1 = Some (String c h)
    /\ contains "." (String c h) = false
    /\ t = h ++ rest
    /\ (rest = "" \/ startswith rest "." = true)
    /\ (two_fields row -> rest = "").
Proof.
  intros Ec Hex Hc. unfold two_fields. rewrite Ec.
  destruct (second_field ex c t Hex Hc) as (h & tl & Es & Hn & Hl).
  destruct (split_head "." t h tl Es) as [Hd Ht].
  destruct Ht as [[-> ->]|[Hne [r ->]]].
  - exists h, "". split; [exact Hn|].
    split; [rewrite contains_char_cons, Ascii.eqb_sym, Hc; exact Hd|].
    split; [symmetry; apply append_nil_r|].
    split; [left; reflexivity | reflexivity].
  - exists h, (String "." r). split; [exact Hn|].
    split; [rewrite contains_char_cons, Ascii.eqb_sym, Hc; exact Hd|].
    split; [reflexivity|].
    split; [right; apply prefix_spec; exists r; reflexivity|].
    intro H2. rewrite Hl in H2. destruct tl; [contradiction | discriminate].
Qed.

Lemma prefix_false_app (p s r : string) :
  startswith (s ++ r) p = false -> startswith s p = false.
Proof.
  unfold startswith. intro H.
  destruct (String.prefix p s) eqn:E; [|reflexivity].
  apply prefix_spec in E. destruct E as [u ->].
  rewrite append_assoc in H.
  assert (X : String.prefix p (p ++ u ++ r) = true)
    by (apply prefix_spec; eauto).
  congruence.
Qed.

Lemma exchange_6 (h : string) : exchange_prefix (String "6" h) = "sh".
Proof.
  unfold exchange_prefix.
  replace (startswith (String "6" h) "6") with true; [reflexivity|].
  symmetry. apply prefix_spec. exists h. reflexivity.
Qed.

Lemma exchange_0 (h : string) : exchange_prefix (String "0" h) = "sz".
Proof. reflexivity. Qed.

Lemma exchange_3 (h : string) : exchange_prefix (String "3" h) = "sz".
Proof. reflexivity. Qed.

(** The loop body never raises, and what it keeps is [kept]. *)
Lemma listed_cases (row : basic_row) :
  listed row = Ok None
  \/ exists st, listed row = Ok (Some st) /\ kept row st.
Proof.
  unfold listed. cbv zeta.
  destruct (String.eqb (row_status row) "1") eqn:Est; cbn [negb];
    [|left; reflexivity].
  apply String.eqb_eq in Est.
  destruct (contains "ST" (row_name row)) eqn:Est2; cbn [orb];
    [left; reflexivity|].
  destruct (contains delisting_mark (row_name row)) eqn:Edl;
    [left; reflexivity|].
  destruct (startswith (row_code row) "sh.688") eqn:E688; cbn [orb];
    [left; reflexivity|].
  destruct (startswith (row_code row) "sh.689") eqn:E689;
    [left; reflexivity|].
  destruct (startswith (row_code row) "bj.") eqn:Ebj; [left; reflexivity|].
  destruct (startswith (row_code row) "sh.6") eqn:Esh; cbn [orb].
  - right. apply prefix_spec in Esh. destruct Esh as [t Et].
    destruct (listed_field row "sh" "6" t Et eq_refl eq_refl)
      as (h & rest & Hn & Hd & -> & Hr & H2).
    rewrite Hn. eexists. split; [reflexivity|].
    rewrite Et in E688, E689.
    constructor; cbn [bs_code code name]; try assumption; try reflexivity.
    + left. apply prefix_spec. exists h. reflexivity.
    + apply (prefix_false_app "688" (String "6" h) rest).
      exact (E688 : startswith ("6" ++ h ++ rest) "688" = false).
    + apply (prefix_false_app "689" (String "6" h) rest).
      exact (E689 : startswith ("6" ++ h ++ rest) "689" = false).
    + rewrite exchange_6. exists rest. split; [exact Et | exact Hr].
    + intro Htf. rewrite (H2 Htf), append_nil_r in Et.
      rewrite exchange_6. exact Et.
  - destruct (startswith (row_code row) "sz.0") eqn:Es0; cbn [orb].
    + right. apply prefix_spec in Es0. destruct Es0 as [t Et].
      destruct (listed_field row "sz" "0" t Et eq_refl eq_refl)
        as (h & rest & Hn & Hd & -> & Hr & H2).
      rewrite Hn. eexists. split; [reflexivity|].
      constructor; cbn [bs_code code name]; try assumption; try reflexivity.
      * right. left. apply prefix_spec. exists h. reflexivity.
      * exists rest. split; [exact Et | exact Hr].
      * intro Htf. rewrite (H2 Htf), append_nil_r in Et. exact Et.
    + destruct (startswith (row_code row) "sz.3") eqn:Es3;
        [|left; reflexivity].
      right. apply prefix_spec in Es3. destruct Es3 as [t Et].
      destruct (listed_field row "sz" "3" t Et eq_refl eq_refl)
        as (h & rest & Hn & Hd & -> & Hr & H2).
      rewrite Hn. eexists. split; [reflexivity|].
      constructor; cbn [bs_code code name]; try assumption; try reflexivity.
      * right. right. apply prefix_spec. exists h. reflexivity.
      * exists rest. split; [exact Et | exact Hr].
      * intro Htf. rewrite (H2 Htf), append_nil_r in Et. exact Et.
Qed.

Lemma stock_loop_spec (rows : list basic_row) :
  forall stocks,
    stock_loop rows stocks = Ok (stocks ++ flat_map picked rows)%list.
Proof.
  induction rows as [|row rows IH]; intro stocks; cbn [stock_loop flat_map].
  - rewrite app_nil_r. reflexivity.
  - unfold picked at 1.
    destruct (listed_cases row) as [E|[st [E _]]]; rewrite E; cbn [bind];
      rewrite IH; [reflexivity|].
    rewrite <- app_assoc. reflexivity.
Qed.

Lemma get_stock_list_spec (rows : list basic_row) :
  get_stock_list rows = flat_map picked rows.
Proof. unfold get_stock_list. rewrite stock_loop_spec. reflexivity. Qed.

Lemma picked_kept (row : basic_row) (st : stock) :
  In st (picked row) -> listed row = Ok (Some st) /\ kept row st.
Proof.
  unfold picked. destruct (listed_cases row) as [E|[st' [E K]]]; rewrite E;
    [intros []|].
  intros [<-|[]]. split; [reflexivity | exact K].
Qed.

Lemma nodup_flat_map_pick {A B K : Type} (f : A -> list B)
    (ka : A -> K) (kb : B -> K) (l : list A) :
  (forall a b, In b (f a) -> kb b = ka a) ->
  (forall a, (List.length (f a) <= 1)%nat) ->
  NoDup (map ka l) -> NoDup (map kb (flat_map f l)).
Proof.
  intros Hk H1. induction l as [|a l IH]; intro Hnd; [constructor|].
  cbn [map] in Hnd. apply NoDup_cons_iff in Hnd. destruct Hnd as [Hn Hnd].
  cbn [flat_map]. rewrite map_app.
  pose proof (H1 a) as L. pose proof (Hk a) as Ho.
  destruct (f a) as [|b [|b' rest]]; cbn in L; [| |lia].
  - apply IH, Hnd.
  - cbn. constructor; [|apply IH, Hnd].
    intro Hin. apply Hn. apply in_map_iff in Hin.
    destruct Hin as [x [Ex Hx]]. apply in_flat_map in Hx.
    destruct Hx as [j [Hj Hxj]]. apply in_map_iff. exists j.
    split; [|exact Hj].
    rewrite <- (Hk j x Hxj), Ex. apply Ho. left. reflexivity.
Qed.

(** X13. Every stock [get_stock_list] returns comes from a listed row
    (status 1) whose name has neither ST nor the delisting mark; its code
    is the field behind the exchange, begins with 6, 0 or 3 but not with
    688 or 689, and the exchange [get_latest_names] derives from the first
    digit is the exchange of the BaoStock symbol. *)
Theorem stock_list_entries (rows : list basic_row) (st : stock) :
  In st (get_stock_list rows) ->
  exists row, In row rows /\ kept row st.
Proof.
  rewrite get_stock_list_spec. intro H. apply in_flat_map in H.
  destruct H as [row [Hr Hs]]. exists row. split; [exact Hr|].
  apply picked_kept, Hs.
Qed.

Lemma stock_list_entries_witness :
  exists row,
    In row [ mkBasicRow "sh.600000" "PF Bank" "1"
           ; mkBasicRow "sh.688001" "Star" "1"
           ; mkBasicRow "sz.000001" "ST Ping" "1" ]
    /\ kept row (mkStock "sh.600000" "600000" "PF Bank").
Proof.
  apply (stock_list_entries
           [ mkBasicRow "sh.600000" "PF Bank" "1"
           ; mkBasicRow "sh.688001" "Star" "1"
           ; mkBasicRow "sz.000001" "ST Ping" "1" ]
           (mkStock "sh.600000" "600000" "PF Bank")).
  vm_compute. left. reflexivity.
Defined.

(** X14. [code.split('.')[1]] never raises in [get_stock_list]: whatever
    the fields of the rows hold, the loop ends without an exception; the
    list holds exactly the stocks the loop body keeps, and is no longer
    than the rows. *)
Theorem stock_list_never_raises (rows : list basic_row) :
  stock_loop rows [] <> Fault
  /\ (forall row, listed row <> Fault)
  /\ (forall st,
        In st (get_stock_list rows) <->
        exists row, In row rows /\ listed row = Ok (Some st))
  /\ (List.length (get_stock_list rows) <= List.length rows)%nat.
Proof.
  split; [rewrite stock_loop_spec; discriminate|].
  split.
  { intro row. destruct (listed_cases row) as [E|[st [E _]]]; rewrite E;
      discriminate. }
  rewrite get_stock_list_spec. split.
  - intro st. rewrite in_flat_map. split.
    + intros [row [Hr Hs]]. exists row. split; [exact Hr|].
      apply picked_kept, Hs.
    + intros [row [Hr E]]. exists row. split; [exact Hr|].
      unfold picked. rewrite E. left. reflexivity.
  - induction rows as [|row rows IH]; cbn [flat_map]; [cbn; lia|].
    rewrite length_app. unfold picked at 1.
    destruct (listed row) as [[st|]|]; cbn [List.length] in *; lia.
Qed.

(** X15. Distinct BaoStock symbols of the form exchange.number give
    distinct codes: the stocks of [get_stock_list] can be told apart by
    [code], as cross-validation by code requires. *)
Theorem stock_list_codes_distinct (rows : list basic_row) :
  NoDup (map row_code rows) ->
  Forall two_fields rows ->
  NoDup (map code (get_stock_list rows)).
Proof.
  intros Hnd Htf.
  assert (Hbs : NoDup (map bs_code (get_stock_list rows))).
  { rewrite get_stock_list_spec.
    apply (nodup_flat_map_pick picked row_code bs_code); [| |exact Hnd].
    - intros row st Hs. apply picked_kept in Hs. apply kept_code, Hs.
    - intro row. unfold picked. destruct (listed row) as [[st|]|]; cbn; lia. }
  assert (E : map bs_code (get_stock_list rows)
              = map (fun c => exchange_prefix c ++ "." ++ c)
                  (map code (get_stock_list rows))).
  { rewrite map_map. apply map_ext_in. intros st Hs.
    rewrite get_stock_list_spec in Hs. apply in_flat_map in Hs.
    destruct Hs as [row [Hr Hs]]. apply picked_kept in Hs.
    apply (kept_two_fields row st (proj2 Hs)).
    rewrite Forall_forall in Htf. apply Htf, Hr. }
  rewrite E in Hbs. apply NoDup_map_inv in Hbs. exact Hbs.
Qed.

Lemma stock_list_codes_distinct_witness :
  NoDup (map code
           (get_stock_list
              [ mkBasicRow "sh.600000" "PF Bank" "1"
              ; mkBasicRow "sz.000001" "Ping An" "1"
              ; mkBasicRow "sz.300750" "CATL" "1" ])).
Proof.
  apply stock_list_codes_distinct.
  - repeat constructor; cbn; intuition discriminate.
  - repeat constructor.
Defined.

End StockListFacts.

(** ** The price histories *)

Module HistoryFacts.
Import History.

Lemma dropna_in (rows : list raw_bar) (b : bar) :
  In b (dropna rows) <-> exists r, In r rows /\ complete r = Some b.
Proof.
  induction rows as [|r rows IH]; cbn [dropna].
  - split; [intros [] | intros [r [[] _]]].
  - destruct (complete r) as [b'|] eqn:E.
    + cbn [In]. rewrite IH. split.
      * intros [<-|[r' [Hr Hc]]].
        -- exists r. split; [left; reflexivity | exact E].
        -- exists r'. split; [right; exact Hr | exact Hc].
      * intros [r' [[<-|Hr] Hc]]; [left; congruence | right; eauto].
    + rewrite IH. split.
      * intros [r' [Hr Hc]]. exists r'. split; [right; exact Hr | exact Hc].
      * intros [r' [[<-|Hr] Hc]]; [congruence | eauto].
Qed.

Lemma dropna_length (rows : list raw_bar) :
  (len (dropna rows) <= len rows)%Z.
Proof.
  unfold len. induction rows as [|r rows IH]; cbn [dropna List.length];
    [lia|].
  destruct (complete r); cbn [List.length]; lia.
Qed.

Lemma tail_spec (n : Z) (df : DataFrame) :
  (0 <= n)%Z ->
  len (tail n df) = Z.min n (len df)
  /\ exists older, df = older ++ tail n df.
Proof.
  intro Hn. unfold tail, len. split.
  - rewrite length_skipn. lia.
  - exists (firstn (Z.to_nat (Z.of_nat (List.length df) - n)) df).
    symmetry. apply firstn_skipn.
Qed.

(** X16. A frame [get_stock_history] returns has between 30 and 200 rows;
    they are the latest rows of the cleaned answer, in order, each a row of
    the answer in which every field is a number.  An answer with fewer than
    30 such rows gives no frame. *)
Theorem history_window (response : option (list raw_bar)) (df : DataFrame) :
  get_stock_history response = Some df ->
  exists data_list,
    response = Some data_list
    /\ (30 <= len df <= 200)%Z
    /\ len df = Z.min 200 (len (dropna data_list))
    /\ (exists older, dropna data_list = older ++ df)
    /\ (forall b, In b df -> exists r, In r data_list /\ complete r = Some b).
Proof.
  unfold get_stock_history. destruct response as [data_list|]; [|discriminate].
  destruct (len data_list <? 30)%Z; [discriminate|]. cbv zeta.
  destruct (len (dropna data_list) <? 30)%Z eqn:E; [discriminate|].
  apply Z.ltb_ge in E. intro H. injection H as <-.
  exists data_list. split; [reflexivity|].
  destruct (tail_spec history_days (dropna data_list)) as [L [older Ho]];
    [unfold history_days; lia|].
  unfold history_days in *.
  split; [lia|]. split; [exact L|]. split; [exists older; exact Ho|].
  intros b Hb. apply dropna_in. rewrite Ho. apply in_or_app. right. exact Hb.
Qed.

Lemma history_window_witness :
  exists data_list,
    Some (repeat (mkRaw "d" (Some 10) (Some 10) (Some 10) (Some 10) (Some 1))
            30) = Some data_list
    /\ (30 <= len (flat 30 10 1) <= 200)%Z
    /\ len (flat 30 10 1) = Z.min 200 (len (dropna data_list))
    /\ (exists older, dropna data_list = older ++ flat 30 10 1)
    /\ (forall b, In b (flat 30 10 1) ->
                  exists r, In r data_list /\ complete r = Some b).
Proof.
  apply (history_window
           (Some (repeat (mkRaw "d" (Some 10) (Some 10) (Some 10) (Some 10)
                            (Some 1)) 30)) (flat 30 10 1)).
  reflexivity.
Defined.

End HistoryFacts.

(** ** The requests for the latest names *)

Module LatestNamesFacts.
Import StockList LatestNames.

Lemma substring_all (s : string) : String.substring 0 (String.length s) s = s.
Proof.
  induction s as [|c s IH]; cbn; [reflexivity | rewrite IH; reflexivity].
Qed.

Lemma islice_nat {A : Type} (l : list A) (a b : nat) :
  (a <= b)%nat ->
  islice l (Z.of_nat a) (Z.of_nat b) = firstn (b - a) (skipn a l).
Proof.
  intro Hab. unfold islice, norm_idx, len. cbv zeta.
  destruct (Z.of_nat a <? 0)%Z eqn:Ea; [apply Z.ltb_lt in Ea; lia|].
  destruct (Z.of_nat b <? 0)%Z eqn:Eb; [apply Z.ltb_lt in Eb; lia|].
  destruct (Nat.le_gt_cases (List.length l) a) as [Hl|Hl].
  - rewrite !skipn_all2 by lia. rewrite !firstn_nil. reflexivity.
  - replace (Z.to_nat (Z.min (Z.of_nat a) (Z.of_nat (List.length l))))
      with a by lia.
    destruct (Nat.le_gt_cases (List.length l) b) as [Hb|Hb].
    + rewrite !firstn_all2; [reflexivity | |]; rewrite length_skipn; lia.
    + f_equal. lia.
Qed.

Lemma firstn_more {A : Type} (l : list A) (a c : nat) :
  firstn a l ++ firstn c (skipn a l) = firstn (a + c) l.
Proof.
  revert l. induction a as [|a IH]; intro l; [reflexivity|].
  destruct l as [|x l]; [cbn; rewrite firstn_nil; reflexivity|].
  cbn. rewrite IH. reflexivity.
Qed.

Lemma batches_upto {A : Type} (l : list A) (k : nat) :
  List.concat (map (fun i => islice l i (i + batch_size))
            (map (fun j => (Z.of_nat j * batch_size)%Z) (seq 0 k)))
  = firstn (k * 100) l.
Proof.
  induction k as [|k IH]; [reflexivity|].
  rewrite seq_S, !map_app, concat_app, IH.
  cbn [plus map List.concat]. rewrite app_nil_r. unfold batch_size.
  replace (Z.of_nat k * 100)%Z with (Z.of_nat (k * 100)) by lia.
  replace (Z.of_nat (k * 100) + 100)%Z with (Z.of_nat (k * 100 + 100)) by lia.
  rewrite islice_nat by lia.
  replace (k * 100 + 100 - k * 100)%nat with 100%nat by lia.
  rewrite firstn_more. f_equal. lia.
Qed.

(** X17. The requests of [get_latest_names]: the symbols go out in batches
    of at least one and at most 100, every symbol exactly once and in
    order; and the key under which an answer is stored, [sina_code[2:]], is
    the code the symbol was built from. *)
Theorem latest_names_requests :
  (forall (A : Type) (sina_codes : list A),
      List.concat (batches sina_codes) = sina_codes
      /\ Forall (fun b => (1 <= List.length b <= 100)%nat)
           (batches sina_codes)
      /\ (len (batches sina_codes) = (len sina_codes + 99) / 100)%Z)
  /\ (forall code, pure_code (sina_code code) = code).
Proof.
  split.
  - intros A l. unfold batches, range_step, batch_size.
    set (k := Z.to_nat ((len l + 100 - 1) / 100)).
    assert (Hk : (len l <= Z.of_nat k * 100 < len l + 100)%Z).
    { unfold k. unfold len.
      pose proof (Z.div_mod (Z.of_nat (List.length l) + 100 - 1) 100
                    ltac:(lia)) as D.
      pose proof (Z.mod_pos_bound (Z.of_nat (List.length l) + 100 - 1) 100
                    ltac:(lia)) as M.
      assert (0 <= (Z.of_nat (List.length l) + 100 - 1) / 100)%Z
        by (apply Z.div_pos; lia).
      lia. }
    unfold len in Hk.
    split; [|split].
    + pose proof (batches_upto l k) as B. unfold batch_size in B.
      rewrite B. apply firstn_all2. lia.
    + apply Forall_forall. intros b Hb. apply in_map_iff in Hb.
      destruct Hb as [i [<- Hi]]. apply in_map_iff in Hi.
      destruct Hi as [j [<- Hj]]. apply in_seq in Hj.
      replace (Z.of_nat j * 100)%Z with (Z.of_nat (j * 100)) by lia.
      replace (Z.of_nat (j * 100) + 100)%Z
        with (Z.of_nat (j * 100 + 100)) by lia.
      rewrite islice_nat by lia.
      rewrite length_firstn, length_skipn. lia.
    + unfold len. rewrite !length_map, length_seq. unfold k, len.
      rewrite Z2Nat.id by (apply Z.div_pos; lia).
      f_equal. lia.
  - intro code. unfold pure_code, sina_code, exchange_prefix.
    destruct (startswith code "6"); cbn; rewrite Nat.sub_0_r;
      apply substring_all.
Qed.

End LatestNamesFacts.

(** ** The agent runner *)

Module AgentRunnerFacts.
Import AgentRunner.

Lemma islice_to {A : Type} (s : list A) (b : nat) :
  slice_to s (Z.of_nat b) = firstn b s.
Proof.
  unfold slice_to, islice, norm_idx, len. cbv zeta. cbn [Z.ltb Z.compare].
  destruct (Z.of_nat b <? 0)%Z eqn:Eb; [apply Z.ltb_lt in Eb; lia|].
  replace (Z.to_nat (Z.min 0 (Z.of_nat (List.length s)))) with 0%nat by lia.
  cbn [skipn].
  destruct (Nat.le_gt_cases (List.length s) b).
  - rewrite !firstn_all2 by lia. reflexivity.
  - f_equal. lia.
Qed.

Lemma islice_from_end {A : Type} (s : list A) (k : nat) :
  (0 < k)%nat ->
  slice_from s (- Z.of_nat k) = skipn (List.length s - k) s.
Proof.
  intro Hk. unfold slice_from, islice, norm_idx, len. cbv zeta.
  destruct (- Z.of_nat k <? 0)%Z eqn:Ek; [|apply Z.ltb_ge in Ek; lia].
  destruct (Z.of_nat (List.length s) <? 0)%Z eqn:En;
    [apply Z.ltb_lt in En; lia|].
  replace (Z.to_nat (Z.max 0 (- Z.of_nat k + Z.of_nat (List.length s))))
    with (List.length s - k)%nat by lia.
  apply firstn_all2. rewrite length_skipn. lia.
Qed.

Lemma firstn_exact {A : Type} (p r : list A) (k : nat) :
  List.length p = k -> firstn k (p ++ r) = p.
Proof.
  intros <-. rewrite firstn_app, Nat.sub_diag, firstn_all. cbn [firstn].
  apply app_nil_r.
Qed.

Lemma skipn_exact {A : Type} (p r : list A) (k : nat) :
  List.length p = k -> skipn k (p ++ r) = r.
Proof.
  intros <-. rewrite skipn_app, Nat.sub_diag, skipn_all. reflexivity.
Qed.

(** The head-and-tail cut of a text longer than [h + k]. *)
Lemma cut_shape (raw middle : text) (h k : nat) :
  (0 < k)%nat ->
  (h + k <= List.length raw)%nat ->
  let out :=
    slice_to raw (Z.of_nat h) ++ middle ++ slice_from raw (- Z.of_nat k) in
  List.length out = (h + List.length middle + k)%nat
  /\ slice_to out (Z.of_nat h) = slice_to raw (Z.of_nat h)
  /\ slice_from out (- Z.of_nat k) = slice_from raw (- Z.of_nat k).
Proof.
  intros Hk Hl out. subst out.
  rewrite (islice_to raw h), (islice_from_end raw k Hk).
  assert (La : List.length (firstn h raw) = h)
    by (rewrite length_firstn; lia).
  assert (Lb : List.length (skipn (List.length raw - k) raw) = k)
    by (rewrite length_skipn; lia).
  assert (L : List.length
                (firstn h raw ++ middle ++ skipn (List.length raw - k) raw)
              = (h + List.length middle + k)%nat)
    by (rewrite !length_app, La, Lb; lia).
  split; [exact L|]. split.
  - rewrite islice_to. apply firstn_exact, La.
  - rewrite islice_from_end by exact Hk. rewrite L.
    replace (h + List.length middle + k - k)%nat
      with (h + List.length middle)%nat by lia.
    rewrite app_assoc. apply skipn_exact. rewrite length_app, La. reflexivity.
Qed.

(** X18. What [execute_tool] hands back is bounded.  A screener output of
    at most 10000 characters is returned as it is; a longer one becomes
    its first 2000 characters, a note, and its last 8000 characters,
    10014 characters in all.  Result data of at most 50000 characters is
    returned as it is; longer data is cut to its first 50000 characters
    with a note behind them, 50010 characters in all. *)
Theorem tool_output_bounded :
  (forall stdout stderr,
      (len (screener_output stdout stderr) <= 10014)%Z
      /\ ((len (screener_raw stdout stderr) <= 10000)%Z ->
          screener_output stdout stderr = screener_raw stdout stderr)
      /\ ((10000 < len (screener_raw stdout stderr))%Z ->
          len (screener_output stdout stderr) = 10014%Z
          /\ slice_to (screener_output stdout stderr) 2000
             = slice_to (screener_raw stdout stderr) 2000
          /\ slice_from (screener_output stdout stderr) (-8000)
             = slice_from (screener_raw stdout stderr) (-8000)))
  /\ (forall result_json,
        (len (results_output result_json) <= 50010)%Z
        /\ ((len result_json <= 50000)%Z ->
            results_output result_json = result_json)
        /\ ((50000 < len result_json)%Z ->
            len (results_output result_json) = 50010%Z
            /\ slice_to (results_output result_json) 50000
               = slice_to result_json 50000)).
Proof.
  split.
  - intros stdout stderr. unfold screener_output. cbv zeta.
    set (raw := screener_raw stdout stderr).
    destruct (10000 <? len raw)%Z eqn:E;
      [apply Z.ltb_lt in E | apply Z.ltb_ge in E].
    + remember (Z.to_nat 2000) as h eqn:Eh.
      remember (Z.to_nat 8000) as k eqn:Ek.
      assert (Hh : 2000%Z = Z.of_nat h) by lia.
      assert (Hk : (-8000)%Z = (- Z.of_nat k)%Z) by lia.
      rewrite Hh, Hk. unfold len in E.
      destruct (cut_shape raw omitted_middle h k) as (L & S1 & S2);
        [lia | lia |].
      change (List.length omitted_middle) with 14%nat in L.
      unfold len. rewrite L.
      split; [lia|]. split; [lia|]. intros _.
      split; [lia|]. split; [exact S1 | exact S2].
    + split; [lia|]. split; [reflexivity | lia].
  - intro result_json. unfold results_output.
    destruct (50000 <? len result_json)%Z eqn:E;
      [apply Z.ltb_lt in E | apply Z.ltb_ge in E].
    + remember (Z.to_nat 50000) as h eqn:Eh.
      assert (Hh : 50000%Z = Z.of_nat h) by lia.
      rewrite Hh. unfold len in *. rewrite !islice_to.
      assert (La : List.length (firstn h result_json) = h)
        by (rewrite length_firstn; lia).
      rewrite length_app, La.
      change (List.length data_cut) with 10%nat.
      split; [lia|]. split; [lia|]. intros _. split; [lia|].
      apply firstn_exact, La.
    + split; [lia|]. split; [reflexivity | lia].
Qed.

Section LoopFacts.

Variable World : Type.
Variable create : World -> list message -> response * World.
Variable execute_tool : World -> string -> text * World.

Lemma run_tools_ids (c : list block) :
  forall w acc,
    map tool_use_id (fst (run_tools World execute_tool w c acc))
    = map tool_use_id acc ++ tool_use_ids c.
Proof.
  induction c as [|b c IH]; intros w acc; cbn [run_tools tool_use_ids].
  - rewrite app_nil_r. reflexivity.
  - destruct b as [t|id name|]; [apply IH| |apply IH].
    destruct (execute_tool w name) as [result w'].
    rewrite IH, map_app, <- app_assoc. reflexivity.
Qed.

Lemma log_snoc (messages : list message) (log : list (list message)) :
  loop_inv messages log ->
  Forall conversation (log ++ [messages])
  /\ (forall k ms, nth_error (log ++ [messages]) k = Some ms ->
                   List.length ms = (2 * k + 1)%nat).
Proof.
  intros (Hc & Hl & Hn & Hk). split.
  - apply Forall_app. split; [exact Hl | constructor; [exact Hc | constructor]].
  - intros k ms E.
    destruct (Nat.lt_ge_cases k (List.length log)) as [Lt|Ge].
    + rewrite nth_error_app1 in E by exact Lt. apply Hk, E.
    + rewrite nth_error_app2 in E by exact Ge.
      destruct (k - List.length log)%nat as [|j] eqn:Ej; cbn in E.
      * injection E as <-. lia.
      * destruct j; discriminate.
Qed.

Lemma agent_loop_inv (iterations : nat) :
  forall w messages log,
    loop_inv messages log ->
    let r := agent_loop World create execute_tool iterations w messages log in
    (List.length (sent r) <= List.length log + iterations)%nat
    /\ Forall conversation (sent r)
    /\ conversation (final_messages r)
    /\ (forall k ms, nth_error (sent r) k = Some ms ->
                     List.length ms = (2 * k + 1)%nat)
    /\ (saved r <> None -> last (sent r) [] = final_messages r).
Proof.
  induction iterations as [|n IH]; intros w messages log Hinv;
    cbn [agent_loop]; cbv zeta.
  - destruct Hinv as (Hc & Hl & Hn & Hk). cbn [sent final_messages saved].
    split; [lia|]. split; [exact Hl|]. split; [exact Hc|].
    split; [exact Hk | intro H; contradiction].
  - destruct (log_snoc messages log Hinv) as [Hl' Hk'].
    destruct Hinv as (Hc & Hl & Hn & Hk).
    destruct (create w messages) as [resp w1].
    destruct (stop resp).
    + cbn [sent final_messages saved]. rewrite length_app. cbn [List.length].
      split; [lia|]. split; [exact Hl'|]. split; [exact Hc|].
      split; [exact Hk'|]. intros _. apply last_last.
    + pose proof (run_tools_ids (content resp) w1 []) as Hids.
      destruct (run_tools World execute_tool w1 (content resp) [])
        as [tool_results w2].
      cbn [fst map app] in Hids.
      assert (Hinv' : loop_inv
                        ((messages ++ [Assistant (content resp)])
                         ++ [UserResults tool_results])
                        (log ++ [messages])).
      { split; [|split; [exact Hl'|split; [|exact Hk']]].
        - rewrite <- app_assoc. cbn [app].
          apply conv_round; [exact Hc | exact Hids].
        - rewrite !length_app. cbn [List.length]. lia. }
      specialize (IH w2 _ _ Hinv'). cbv zeta in IH.
      destruct IH as (I1 & I2 & I3 & I4 & I5).
      rewrite length_app in I1. cbn [List.length] in I1.
      split; [lia|]. split; [exact I2|]. split; [exact I3|].
      split; [exact I4 | exact I5].
    + cbn [sent final_messages saved]. rewrite length_app. cbn [List.length].
      split; [lia|]. split; [exact Hl'|]. split; [exact Hc|].
      split; [exact Hk' | intro H; contradiction].
Qed.

End LoopFacts.

(** X19. The conversation of [run_agent], whatever the service answers and
    the tools return: at most 10 requests are made; the messages of every
    request open with the task and then alternate assistant and user
    turns, request number k (from 0) holding 2k+1 messages; every
    assistant turn is answered by one user turn with one result for each
    of its [tool_use] blocks, under the block's identifier and in the
    blocks' order; and when a report is saved, the conversation is still
    the one of the last request: the final answer is not appended. *)
Theorem agent_conversation_well_formed
    (World : Type)
    (create : World -> list message -> response * World)
    (execute_tool : World -> string -> text * World)
    (w : World) :
  (List.length (sent (run_agent World create execute_tool w)) <= 10)%nat
  /\ Forall conversation (sent (run_agent World create execute_tool w))
  /\ conversation (final_messages (run_agent World create execute_tool w))
  /\ (forall k ms,
        nth_error (sent (run_agent World create execute_tool w)) k = Some ms ->
        List.length ms = (2 * k + 1)%nat)
  /\ (saved (run_agent World create execute_tool w) <> None ->
      last (sent (run_agent World create execute_tool w)) []
      = final_messages (run_agent World create execute_tool w)).
Proof.
  unfold run_agent.
  apply (agent_loop_inv World create execute_tool max_iterations w
           [UserText] []).
  split; [constructor|]. split; [constructor|]. split; [reflexivity|].
  intros k ms E. destruct k; discriminate.
Qed.

End AgentRunnerFacts.

(** ** The detectors always answer

    Every index is inside the frame, every window that is averaged or
    searched for an extremum is non-empty, and every divisor is tested
    before a quotient is used.  Each detector has one divisor it does not
    test; the theorems say what the detector answers when it is zero. *)

Lemma fdiv_guarded (x y : Q) : Qeqb y 0 = false -> fdiv x y = Ok (x / y).
Proof. intro H. unfold fdiv. rewrite H. reflexivity. Qed.

Lemma fdiv_zero (x y : Q) : y == 0 -> fdiv x y = Fault.
Proof.
  intro H. unfold fdiv. apply Qeqb_iff in H. rewrite H. reflexivity.
Qed.

Module ReversalFaults.
Import Reversal.

(** A day that closes at zero after a non-zero open has changed by -100%:
    it is no small bearish day. *)
Lemma zero_close_not_small (o c : Q) :
  Qeqb o 0 = false -> c == 0 ->
  is_day1_small reversal_config ((c - o) / o * 100) = false.
Proof.
  intros Ho Hc. apply Qeqb_false in Ho.
  assert (E : (c - o) / o * 100 == - (100)) by (rewrite Hc; field; exact Ho).
  unfold is_day1_small. cbn [small_bear_min small_bear_max reversal_config].
  apply andb_false_iff. right. apply Qleb_false.
  rewrite E. reflexivity.
Qed.

(** X20. [check_reversal_pattern] answers on every frame: no index leaves
    the frame and no quotient by zero is used.  The one divisor the source
    does not test is the close of the first pattern day, in
    [day2_gap_down]; a frame in which it is zero is answered not-matched,
    the quotient being read only for a matched pattern. *)
Theorem reversal_always_answers :
  (forall df, check_reversal_pattern (Some df) <> Fault)
  /\ (forall df day1,
        iloc df (-3) = Ok day1 -> close day1 == 0 ->
        check_reversal_pattern (Some df) = Ok None).
Proof.
  assert (G : forall df,
             check_reversal_pattern (Some df) <> Fault
             /\ forall day1, iloc df (-3) = Ok day1 -> close day1 == 0 ->
                             check_reversal_pattern (Some df) = Ok None).
  { intro df.
    unfold check_reversal_pattern, check_reversal_pattern_cfg.
    cbn [prior_decline_days prior_decline_min reversal_config]. cbv zeta.
    change (3 + 22)%Z with 25%Z. change (-3 - 22)%Z with (-25)%Z.
    destruct (len df <? 25)%Z eqn:L;
      [split; [discriminate | reflexivity]|].
    apply Z.ltb_ge in L.
    destruct (iloc_ok df (-3)) as [day1 E1]; [lia|].
    destruct (iloc_ok df (-2)) as [day2 E2]; [lia|].
    destruct (iloc_ok df (-1)) as [day3 E3]; [lia|].
    destruct (iloc_ok df (-25)) as [prior_start E4]; [lia|].
    destruct (iloc_ok df (-4)) as [prior_end E5]; [lia|].
    rewrite E1, E2, E3. cbn [bind].
    destruct (Z.abs (-25) >? len df)%Z;
      [split; [discriminate | reflexivity]|].
    rewrite E4, E5. cbn [bind].
    destruct (Qeqb (close prior_start) 0) eqn:G0;
      [split; [discriminate | reflexivity]|].
    rewrite (fdiv_guarded _ _ G0). cbn [bind].
    match goal with
    | |- (if ?c then _ else _) <> _ /\ _ =>
        destruct c; [split; [discriminate | reflexivity]|]
    end.
    destruct (Qeqb (open day1) 0) eqn:G1; cbn [orb];
      [split; [discriminate | reflexivity]|].
    destruct (Qeqb (open day2) 0) eqn:G2; cbn [orb];
      [split; [discriminate | reflexivity]|].
    destruct (Qeqb (open day3) 0) eqn:G3;
      [split; [discriminate | reflexivity]|].
    destruct (Qeqb (close day2) 0) eqn:G4;
      [split; [discriminate | reflexivity]|].
    rewrite (fdiv_guarded _ _ G1), (fdiv_guarded _ _ G2),
      (fdiv_guarded _ _ G4), (fdiv_guarded _ _ G3). cbn [bind].
    destruct (Qeqb (close day1) 0) eqn:G5.
    - apply Qeqb_iff in G5.
      rewrite (zero_close_not_small (open day1) (close day1) G1 G5).
      rewrite andb_false_r. cbn [andb].
      split; [discriminate | reflexivity].
    - rewrite (fdiv_guarded _ _ G5). cbn [bind]. split.
      + match goal with
        | |- (if ?c then _ else _) <> _ => destruct c; discriminate
        end.
      + intros d1 Hd1 Hz. injection Hd1 as <-.
        apply Qeqb_iff in Hz. congruence. }
  split; [intro df; apply G | intro df; apply (proj2 (G df))].
Qed.

Lemma reversal_always_answers_witness :
  check_reversal_pattern (Some zero_close_frame) = Ok None.
Proof.
  apply (proj2 reversal_always_answers zero_close_frame
           (mkBar "d1" 100 100 0 0 1)); reflexivity.
Defined.

End ReversalFaults.

(** ** Counts of the result file *)

Module RunCounts.
Import Orchestrator OrchestratorFacts.

Lemma picked_length {A B : Type} (f : A -> list B) (l : list A) :
  (forall a, (List.length (f a) <= 1)%nat) ->
  (List.length (flat_map f l) <= List.length l)%nat.
Proof.
  intro H. induction l as [|a l IH]; cbn [flat_map List.length]; [lia|].
  rewrite length_app. specialize (H a). lia.
Qed.

Lemma final_length {D : Type} (score : D -> Z)
    (name_map : string -> option string) (l : list (row D)) :
  List.length (final score name_map l) = List.length l.
Proof.
  unfold final. rewrite length_map. apply Permutation_length.
  apply AggregatorProps.sorted_desc_perm.
Qed.

(** X21. No strategy reports more hits than stocks were scanned: each
    [count] of the result file is at most its [total_scanned]. *)
Theorem run_hit_counts_bounded
    (inputs : list (stock * option DataFrame))
    (name_map : string -> option string) :
  (len (reversal_results (run_results inputs name_map)) <= len inputs)%Z
  /\ (len (volume_results (run_results inputs name_map)) <= len inputs)%Z
  /\ (len (shrink_results (run_results inputs name_map)) <= len inputs)%Z.
Proof.
  unfold run_results. cbv zeta.
  destruct (collect_adds inputs (mkCollected [] [] [])) as (E1 & E2 & E3).
  cbn [reversal_results volume_results shrink_results app] in E1, E2, E3.
  cbn [reversal_results volume_results shrink_results].
  rewrite E1, E2, E3. unfold len.
  pose proof (final_length Reversal.score name_map
                (flat_map adds_reversal inputs)) as F1.
  pose proof (final_length VolumeBreakout.score name_map
                (flat_map adds_volume inputs)) as F2.
  pose proof (final_length ShrinkBreakout.score name_map
                (flat_map adds_shrink inputs)) as F3.
  unfold final in F1, F2, F3. rewrite F1, F2, F3.
  pose proof (picked_length adds_reversal inputs) as P1.
  pose proof (picked_length adds_volume inputs) as P2.
  pose proof (picked_length adds_shrink inputs) as P3.
  split; [|split].
  - apply Nat2Z.inj_le, P1. intros [st [df|]]; unfold adds_reversal;
      cbn [fst snd]; [|cbn; lia]. destruct (guarded _); cbn; lia.
  - apply Nat2Z.inj_le, P2. intros [st [df|]]; unfold adds_volume;
      cbn [fst snd]; [|cbn; lia]. destruct (guarded _); cbn; lia.
  - apply Nat2Z.inj_le, P3. intros [st [df|]]; unfold adds_shrink;
      cbn [fst snd]; [|cbn; lia]. destruct (guarded _); cbn; lia.
Qed.

End RunCounts.

(** ** The Volume-Breakout detector always answers *)

Module VolumeBreakoutFaults.
Import VolumeBreakout.

Lemma prior_decline_total (df : DataFrame) (consol_start : Z)
    (consol_mean : Q) :
  exists r,
    _vb_check_prior_decline volume_breakout_config df consol_start consol_mean
    = Ok r.
Proof.
  unfold _vb_check_prior_decline. cbv zeta.
  destruct (consol_start <=? _)%Z; [eauto|].
  destruct (len (islice df _ consol_start) =? 0)%Z eqn:E; [eauto|].
  apply Z.eqb_neq in E.
  destruct (smax_ok (closes (islice df
              (zmax 0 (consol_start
                       - prior_lookback_days volume_breakout_config))
              consol_start))) as [hi ->].
  { rewrite len_closes.
    pose proof (len_nonneg (islice df
      (zmax 0 (consol_start - prior_lookback_days volume_breakout_config))
      consol_start)). lia. }
  cbn [bind]. destruct (Qeqb consol_mean 0) eqn:G; [eauto|].
  rewrite (fdiv_guarded _ _ G). cbn [bind].
  destruct (Qltb _ _); eauto.
Qed.

Lemma vb_candidate_total (df : DataFrame) (code : string) (last prev : bar)
    (idx : Z) :
  (1 <= idx <= len df - 3)%Z ->
  exists r, vb_candidate volume_breakout_config df code last prev idx = Ok r.
Proof.
  intro Hidx. unfold vb_candidate. cbv zeta.
  destruct (iloc_ok df idx) as [candidate ->]; [lia|].
  destruct (iloc_ok df (idx - 1)) as [pc ->]; [lia|]. cbn [bind].
  destruct (_vb_is_limit_up volume_breakout_config candidate (close pc) code)
    eqn:Elu; cbn [negb]; [|eauto].
  pose proof (proj1 (VolumeBreakoutReport.vb_limit_up_inv
                       candidate (close pc) code Elu)) as Hpc.
  apply Qeqb_false in Hpc.
  cbn [post_consol_min_days volume_breakout_config].
  destruct (len df - 2 - (idx + 1) + 1 <? 5)%Z eqn:Epd; [eauto|].
  apply Z.ltb_ge in Epd.
  destruct (existsb _ _); [eauto|].
  destruct (Qleb (close last) (close candidate)); [eauto|].
  destruct (VolumeBreakoutProps.find_consolidation_total df idx) as [cr ->];
    [lia|].
  cbn [bind]. destruct cr as [[cs ce cm crange cd]|]; [|eauto].
  destruct (prior_decline_total df cs cm) as [dr ->]. cbn [bind].
  destruct dr as [[pdp ph]|]; [|eauto].
  rewrite (fdiv_guarded _ _ Hpc). cbn [bind].
  assert (Hpost : (0 < len (closes (islice df (idx + 1) (len df - 2 + 1))))%Z).
  { rewrite len_closes, len_islice; lia. }
  destruct (mean_ok _ Hpost) as [pm ->].
  destruct (smax_ok _ Hpost) as [phi ->].
  destruct (smin_ok _ Hpost) as [plo ->]. cbn [bind].
  assert (Hvol : (0 < len (volumes (islice df (zmax 0 (idx - 5)) idx)))%Z).
  { unfold volumes, len. rewrite length_map.
    fold (len (islice df (zmax 0 (idx - 5)) idx)). unfold zmax.
    destruct (0 <? idx - 5)%Z eqn:E5;
      [apply Z.ltb_lt in E5 | apply Z.ltb_ge in E5];
      rewrite len_islice; lia. }
  destruct (mean_ok _ Hvol) as [pv ->]. cbn [bind]. eauto.
Qed.

Lemma vb_scan_total (df : DataFrame) (code : string) (last prev : bar) :
  forall (scan : list Z) (found : bool) (best : option detail),
    (forall j, In j scan -> (2 <= j)%Z) ->
    exists r,
      vb_scan volume_breakout_config df code last prev scan found best = Ok r.
Proof.
  induction scan as [|j scan IH]; intros found best Hj; cbn [vb_scan];
    [eauto|]. cbv zeta.
  destruct (len df - 1 - j <? 1)%Z eqn:E; [eauto|].
  apply Z.ltb_ge in E.
  assert (H2 : (2 <= j)%Z) by (apply Hj; left; reflexivity).
  assert (Hj' : forall x, In x scan -> (2 <= x)%Z)
    by (intros x Hx; apply Hj; right; exact Hx).
  destruct (vb_candidate_total df code last prev (len df - 1 - j)) as [r ->];
    [lia|].
  cbn [bind]. destruct r; apply IH; exact Hj'.
Qed.

(** The break-out gain a candidate reports. *)
Lemma vb_candidate_break_change (df : DataFrame) (code : string)
    (last prev : bar) (idx : Z) (d : detail) :
  vb_candidate volume_breakout_config df code last prev idx = Ok (Some d) ->
  break_change d
  = reported (q <- fdiv (close last - close prev) (close prev) ;;
              Ok (py_round_n (q * 100) 2)).
Proof.
  unfold vb_candidate. intro H. bind_inv H.
  injection H as <-. reflexivity.
Qed.

(** X22. [check_volume_breakout_pattern] answers on every frame: no index
    leaves the frame, no empty window is averaged and no quotient by zero
    is used in a test or in the score.  The one divisor the source does
    not test is the close of the bar before the last, in [break_change],
    a figure that is only reported: a match on a frame in which that
    close is zero still stands, with a [break_change] that is no
    number. *)
Theorem volume_breakout_always_answers :
  (forall df code, check_volume_breakout_pattern (Some df) code <> Fault)
  /\ (forall df code d prev,
        check_volume_breakout_pattern (Some df) code = Ok (Some d) ->
        iloc df (-2) = Ok prev -> close prev == 0 ->
        break_change d = NonFinite).
Proof.
  split.
  - intros df code.
    unfold check_volume_breakout_pattern, check_volume_breakout_pattern_cfg.
    cbv zeta.
    destruct (len df <? 50)%Z eqn:L; [discriminate|]. apply Z.ltb_ge in L.
    destruct (iloc_ok df (-1)) as [last ->]; [lia|].
    destruct (iloc_ok df (-2)) as [prev ->]; [lia|]. cbn [bind].
    destruct (Qleb (close last) (open last)); [discriminate|].
    destruct (Qeqb (volume prev) 0 || Qleb (volume last) (volume prev));
      [discriminate|].
    destruct (vb_scan_total df code last prev
                (zrange 2
                   (zmin (post_consol_max_lookback volume_breakout_config)
                      (len df - 30) + 1)) false None) as [[found best] ->].
    { intros j Hj. apply in_zrange in Hj. lia. }
    cbn [bind]. destruct found; [destruct best|]; discriminate.
  - intros df code d prev H Hp Hz.
    destruct (VolumeBreakoutReport.vb_matched_inv df code d H)
      as (last & prev' & j & _ & _ & Hp' & _ & _ & _ & _ & _ & Hc).
    assert (prev' = prev) by congruence. subst prev'.
    rewrite (vb_candidate_break_change _ _ _ _ _ _ Hc).
    rewrite (fdiv_zero _ _ Hz). reflexivity.
Qed.

Lemma volume_breakout_always_answers_witness :
  exists d,
    check_volume_breakout_pattern (Some zero_close_frame) "600000"
    = Ok (Some d)
    /\ score d = 51%Z /\ break_change d = NonFinite.
Proof.
  eexists.
  assert (H : check_volume_breakout_pattern (Some zero_close_frame) "600000"
              = Ok (Some _)) by (vm_compute; reflexivity).
  split; [exact H|]. split; [reflexivity|].
  apply (proj2 volume_breakout_always_answers zero_close_frame
           "600000"%string _ (mkBar "q" 108 108 0 0 1) H);
    reflexivity.
Defined.

End VolumeBreakoutFaults.

(** ** The Shrink-Breakout detector always answers *)

Module ShrinkBreakoutFaults.
Import ShrinkBreakout ShrinkTerms ShrinkPhases.

Lemma in_zrange_down (a b k : Z) :
  In k (zrange_down a b) <-> (b < k <= a)%Z.
Proof.
  unfold zrange_down. rewrite in_map_iff. split.
  - intros [i [<- Hi]]. apply in_seq in Hi. lia.
  - intro H. exists (Z.to_nat (a - k)). split; [lia|].
    apply in_seq. lia.
Qed.

Lemma len_volumes (w : list bar) : len (volumes w) = len w.
Proof. unfold len, volumes. rewrite length_map. reflexivity. Qed.

Lemma signal_total (df : DataFrame) :
  (10 <= len df)%Z ->
  exists r, _sb_check_signal shrink_breakout_config df = Ok r.
Proof.
  intro Hn. unfold _sb_check_signal.
  cbn [vol_ma_short_cfg vol_ma_long_cfg shrink_breakout_config]. cbv zeta.
  destruct (iloc_ok df (len df - 1)) as [row ->]; [lia|]. cbn [bind].
  destruct (Qleb (close row) (open row)); [eauto|].
  destruct (len df <? 10)%Z; [eauto|].
  destruct (mean_ok (islice (volumes df) (len df - 5) (len df))) as [ms ->];
    [rewrite len_islice; rewrite ?len_volumes; lia|].
  destruct (mean_ok (islice (volumes df) (len df - 10) (len df))) as [ml ->];
    [rewrite len_islice; rewrite ?len_volumes; lia|].
  cbn [bind].
  destruct (Qeqb ml 0) eqn:G; [eauto|].
  destruct (Qleb ml ms); [eauto|].
  rewrite (fdiv_guarded _ _ G). cbn [bind]. eauto.
Qed.

(** The gain of the last bar that an accepted signal reports. *)
Lemma signal_change_reported (df : DataFrame) (sg : signal_detail)
    (last : bar) :
  _sb_check_signal shrink_breakout_config df = Ok (Some sg) ->
  iloc df (len df - 1) = Ok last ->
  sg_signal_change sg
  = reported (c <- (q <- fdiv (close last - open last) (open last) ;;
                    Ok (q * 100)) ;;
              Ok (py_round_n c 2)).
Proof.
  unfold _sb_check_signal. cbv zeta. intros H Hl. rewrite Hl in H.
  cbn [bind] in H. bind_inv H. injection H as <-. reflexivity.
Qed.

Lemma post_consolidation_total (df : DataFrame) (idx : Z) :
  (1 <= idx <= len df - 7)%Z ->
  exists r,
    _sb_check_post_consolidation shrink_breakout_config df idx = Ok r.
Proof.
  intro Hidx. unfold _sb_check_post_consolidation.
  cbn [consolidation2_min_days consolidation2_max_amplitude
       consolidation2_support_tolerance shrink_breakout_config]. cbv zeta.
  destruct (len df - 1 - (idx + 1) <? 5)%Z; [eauto|].
  destruct (iloc_ok df idx) as [lu ->]; [lia|]. cbn [bind].
  destruct (existsb _ _); [eauto|].
  assert (Hw : (0 < len (closes (islice df (idx + 1) (len df - 1))))%Z)
    by (rewrite len_closes, len_islice; lia).
  destruct (smax_ok _ Hw) as [hi ->].
  destruct (smin_ok _ Hw) as [lo ->].
  destruct (mean_ok _ Hw) as [avg ->]. cbn [bind].
  destruct (Qeqb avg 0) eqn:G; [eauto|].
  rewrite (fdiv_guarded _ _ G). cbn [bind].
  destruct (Qltb _ _); [eauto|].
  destruct (iloc_ok df (len df - 1)) as [sg ->]; [lia|]. cbn [bind].
  destruct (Qleb _ _); eauto.
Qed.

Lemma within_amplitude_total (max_amp : Q) (w : list Q) :
  (0 < len w)%Z -> exists t, within_amplitude max_amp w = Ok t.
Proof.
  intro Hw. unfold within_amplitude.
  destruct (smax_ok _ Hw) as [hi ->].
  destruct (smin_ok _ Hw) as [lo ->].
  destruct (mean_ok _ Hw) as [avg ->]. cbn [bind].
  destruct (Qeqb avg 0) eqn:G; [eauto|].
  rewrite (fdiv_guarded _ _ G). cbn [bind]. eauto.
Qed.

Lemma pre_consol_loop_total (df : DataFrame) (best_end : Z) :
  (best_end <= len df)%Z ->
  forall (starts : list Z) (best : option Z),
    (forall s, In s starts -> (0 <= s < best_end)%Z) ->
    exists r,
      pre_consol_loop shrink_breakout_config df best_end starts best = Ok r.
Proof.
  intro He. induction starts as [|s starts IH]; intros best Hs;
    [eexists; reflexivity|].
  rewrite pre_consol_loop_cons.
  destruct (within_amplitude_total
              (consolidation1_max_amplitude shrink_breakout_config)
              (closes (islice df s best_end))) as [t ->].
  { rewrite len_closes, len_islice;
      pose proof (Hs s (or_introl eq_refl)); lia. }
  cbn [bind]. destruct t; [|eauto].
  apply IH. intros x Hx. apply Hs. right. exact Hx.
Qed.

Lemma other_limit_up_total (df : DataFrame) (code : string) :
  forall idxs,
    (forall i, In i idxs -> (1 <= i < len df)%Z) ->
    exists b, other_limit_up shrink_breakout_config df code idxs = Ok b.
Proof.
  induction idxs as [|i idxs IH]; intro Hi; [eexists; reflexivity|].
  cbn [other_limit_up].
  pose proof (Hi i (or_introl eq_refl)) as Hb.
  destruct (iloc_ok df i) as [row ->]; [lia|].
  destruct (iloc_ok df (i - 1)) as [prev ->]; [lia|]. cbn [bind].
  destruct (_sb_is_limit_up _ _ _ _); [eauto|].
  apply IH. intros x Hx. apply Hi. right. exact Hx.
Qed.

(** [_sb_check_pre_consolidation] answers, and a window it reports starts
    inside the frame. *)
Lemma pre_consolidation_total (df : DataFrame) (idx : Z) (code : string) :
  (idx <= len df)%Z ->
  exists r,
    _sb_check_pre_consolidation shrink_breakout_config df idx code = Ok r
    /\ forall pre, r = Some pre ->
                   (0 <= pr_consolidation1_start pre <= idx - 22)%Z.
Proof.
  intro Hidx. unfold _sb_check_pre_consolidation.
  cbn [consolidation1_min_days shrink_breakout_config]. cbv zeta.
  destruct (idx <? 22)%Z eqn:E22;
    [eexists; split; [reflexivity | discriminate]|].
  apply Z.ltb_ge in E22.
  destruct (pre_consol_loop_total df idx Hidx
              (zrange_down (idx - 22) (-1)) None) as [r Er].
  { intros s Hs. apply in_zrange_down in Hs. lia. }
  rewrite Er. cbn [bind].
  destruct (pre_consol_loop_spec shrink_breakout_config df idx
              (Z.to_nat (idx - 22 + 1)) (idx - 22) None r eq_refl
              ltac:(lia) Er) as [[-> _]|(s & -> & Hs & Hw & _)];
    [eexists; split; [reflexivity | discriminate]|].
  destruct (idx - s <? 22)%Z;
    [eexists; split; [reflexivity | discriminate]|].
  destruct (other_limit_up_total df code (zrange (s + 1) idx)) as [b ->].
  { intros i Hi. apply in_zrange in Hi. lia. }
  cbn [bind]. destruct b; [eexists; split; [reflexivity | discriminate]|].
  specialize (Hw s ltac:(lia)).
  apply within_amplitude_true in Hw. destruct Hw as [amp [Ha _]].
  unfold amplitude in Ha.
  destruct (smax (closes (islice df s idx))) as [hi|]; [|discriminate Ha].
  destruct (smin (closes (islice df s idx))) as [lo|]; [|discriminate Ha].
  destruct (mean (closes (islice df s idx))) as [avg|]; [|discriminate Ha].
  cbn [bind] in Ha |- *.
  destruct (fdiv (hi - lo) avg) as [q|]; [|discriminate Ha].
  cbn [bind]. eexists. split; [reflexivity|].
  intros pre H. injection H as <-. cbn [pr_consolidation1_start]. lia.
Qed.

Lemma sb_prior_decline_total (df : DataFrame) (s : Z) :
  (0 <= s < len df)%Z ->
  exists r, _sb_check_prior_decline shrink_breakout_config df s = Ok r.
Proof.
  intro Hs. unfold _sb_check_prior_decline.
  cbn [min_decline_pct shrink_breakout_config]. cbv zeta.
  destruct (zmin s 60 <? 5)%Z eqn:E5; [eauto|]. apply Z.ltb_ge in E5.
  assert (Hl : (5 <= zmin s 60 <= s)%Z).
  { revert E5. unfold zmin. destruct (60 <? s)%Z eqn:E6;
      [apply Z.ltb_lt in E6 | apply Z.ltb_ge in E6]; lia. }
  destruct (smax_ok (closes (islice df (s - zmin s 60) s))) as [hi ->];
    [rewrite len_closes, len_islice; lia|].
  destruct (iloc_ok df s) as [row ->]; [lia|]. cbn [bind].
  destruct (Qeqb hi 0) eqn:G; [eauto|].
  rewrite (fdiv_guarded _ _ G). cbn [bind].
  destruct (Qltb _ _); eauto.
Qed.

(** X23. [check_shrink_breakout_pattern] answers on every frame: no index
    leaves the frame, no empty window is averaged and no quotient by zero
    is used in a test.  The one divisor the source does not test is the
    open of the last bar, in [signal_change]: on a frame in which it is
    zero the detector goes on as for any bullish last bar, and a match
    reports a [signal_change] that is no number. *)
Theorem shrink_breakout_always_answers :
  (forall df code, check_shrink_breakout_pattern (Some df) code <> Fault)
  /\ (forall df code d last,
        check_shrink_breakout_pattern (Some df) code = Ok (Some d) ->
        iloc df (len df - 1) = Ok last -> open last == 0 ->
        signal_change d = NonFinite).
Proof.
  split.
  - intros df code.
    unfold check_shrink_breakout_pattern, check_shrink_breakout_pattern_cfg.
    destruct (len df <? 60)%Z eqn:L; [discriminate|]. apply Z.ltb_ge in L.
    destruct (signal_total df) as [sg ->]; [lia|].
    cbn [bind]. destruct sg as [sg|]; [|discriminate].
    destruct (sb_find_limit_up_spec df code) as [lu [-> Hlu]]. cbn [bind].
    destruct lu as [idx|]; [|discriminate].
    destruct Hlu as (Hidx & Hat & _).
    destruct (post_consolidation_total df idx Hidx) as [post ->]. cbn [bind].
    destruct post as [post|]; [|discriminate].
    destruct (pre_consolidation_total df idx code) as [pre [-> Hpre]]; [lia|].
    cbn [bind]. destruct pre as [pre|]; [|discriminate].
    specialize (Hpre pre eq_refl).
    destruct (sb_prior_decline_total df (pr_consolidation1_start pre))
      as [dec ->]; [lia|].
    cbn [bind]. destruct dec as [dec|]; [|discriminate].
    unfold limit_up_at in Hat.
    destruct (iloc df idx) as [row|]; [|discriminate Hat].
    destruct (iloc df (idx - 1)) as [prev|]; [|discriminate Hat].
    cbn [bind] in Hat |- *. injection Hat as Hat.
    apply sb_is_limit_up_inv in Hat. destruct Hat as [Hpc _].
    apply Qeqb_false in Hpc. rewrite (fdiv_guarded _ _ Hpc). discriminate.
  - intros df code d last H Hl Hz.
    unfold check_shrink_breakout_pattern, check_shrink_breakout_pattern_cfg
      in H.
    destruct (len df <? 60)%Z; [discriminate H|].
    destruct (_sb_check_signal shrink_breakout_config df) as [[sg|]|] eqn:Es;
      try discriminate H.
    cbn [bind] in H. bind_inv H. injection H as <-.
    cbn [set_score signal_change].
    rewrite (signal_change_reported df sg last Es Hl).
    rewrite (fdiv_zero _ _ Hz). reflexivity.
Qed.

Lemma shrink_breakout_always_answers_witness :
  exists d,
    check_shrink_breakout_pattern (Some zero_open_frame) "600000"
    = Ok (Some d)
    /\ score d = 79%Z /\ signal_change d = NonFinite.
Proof.
  eexists.
  assert (H : check_shrink_breakout_pattern (Some zero_open_frame) "600000"
              = Ok (Some _)) by (vm_compute; reflexivity).
  split; [exact H|]. split; [reflexivity|].
  apply (proj2 shrink_breakout_always_answers zero_open_frame
           "600000"%string _ (mkBar "sig" 0 113 0 113 1) H);
    reflexivity.
Defined.

End ShrinkBreakoutFaults.

(** ** The Reversal thresholds in binary64 *)

Module ReversalBinary64Facts.
Import ReversalBinary64.
Local Open Scope float_scope.
Set Warnings "-inexact-float".

Lemma andb8 (a b c d e f g h : bool) :
  a && b && c && d && e && f && g && h = true <->
  a = true /\ b = true /\ c = true /\ d = true /\ e = true /\ f = true
  /\ g = true /\ h = true.
Proof.
  destruct a, b, c, d, e, f, g, h; cbn; intuition congruence.
Qed.

(** [pattern_match] is the shape of the three days together with the
    four threshold comparisons. *)
Lemma pattern_match_iff (day1 day2 day3 : row64) :
  pattern_match day1 day2 day3 = true <->
  shape_ok day1 day2 day3 = true
  /\ (small_bear_min <=? abs (change day1)) = true
  /\ (abs (change day1) <=? small_bear_max) = true
  /\ (big_bear_min <=? abs (change day2)) = true
  /\ (bull_close_min <=? change day3) = true.
Proof.
  unfold pattern_match, shape_ok. cbv zeta.
  rewrite andb8, !andb_true_iff. tauto.
Qed.

(** C8. The per-day thresholds are tested with non-strict comparisons on
    the changes the detector computes in binary64.  A matched frame has
    computed changes inside the closed bounds; a frame that passes the
    other tests is matched exactly when its computed changes are inside
    the closed bounds; so a computed magnitude of exactly 0.3 or 2.0 on
    day 1, of exactly 3.0 on day 2 and a computed change of exactly 1.0 on
    day 3 satisfy the tests, and the doubles next to each bound on its
    outer side fail them. *)
Theorem reversal_thresholds_inclusive_binary64 :
  (forall df,
      check_reversal_match df = Ok true ->
      exists day1 day2 day3,
        iloc64 df (-3) = Ok day1 /\ iloc64 df (-2) = Ok day2
        /\ iloc64 df (-1) = Ok day3
        /\ (small_bear_min <=? abs (change day1)) = true
        /\ (abs (change day1) <=? small_bear_max) = true
        /\ (big_bear_min <=? abs (change day2)) = true
        /\ (bull_close_min <=? change day3) = true)
  /\ (forall df day1 day2 day3 prior_start prior_end,
        (25 <= len df)%Z ->
        iloc64 df (-3) = Ok day1 -> iloc64 df (-2) = Ok day2 ->
        iloc64 df (-1) = Ok day3 ->
        iloc64 df (-25) = Ok prior_start -> iloc64 df (-4) = Ok prior_end ->
        (close64 prior_start =? 0) = false ->
        (0 <=? (close64 prior_end - close64 prior_start)
               / close64 prior_start * 100) = false ->
        (abs ((close64 prior_end - close64 prior_start)
              / close64 prior_start * 100) <? prior_decline_min) = false ->
        (open64 day1 =? 0) = false -> (open64 day2 =? 0) = false ->
        (open64 day3 =? 0) = false -> (close64 day2 =? 0) = false ->
        shape_ok day1 day2 day3 = true ->
        (check_reversal_match df = Ok true <->
         (small_bear_min <=? abs (change day1)) = true
         /\ (abs (change day1) <=? small_bear_max) = true
         /\ (big_bear_min <=? abs (change day2)) = true
         /\ (bull_close_min <=? change day3) = true))
  /\ ((small_bear_min <=? abs (- small_bear_min)) = true
      /\ (abs (- small_bear_max) <=? small_bear_max) = true
      /\ (big_bear_min <=? abs (- big_bear_min)) = true
      /\ (bull_close_min <=? bull_close_min) = true)
  /\ ((small_bear_min <=? next_down small_bear_min) = false
      /\ (next_up small_bear_max <=? small_bear_max) = false
      /\ (big_bear_min <=? next_down big_bear_min) = false
      /\ (bull_close_min <=? next_down bull_close_min) = false).
Proof.
  split; [|split; [|split]].
  - intros df H. unfold check_reversal_match in H. cbv zeta in H.
    destruct (len df <? 3 + prior_decline_days)%Z; [discriminate H|].
    destruct (iloc64 df (-3)) as [day1|]; [|discriminate H].
    destruct (iloc64 df (-2)) as [day2|]; [|discriminate H].
    destruct (iloc64 df (-1)) as [day3|]; [|discriminate H].
    cbn [bind] in H.
    destruct (Z.abs (-3 - prior_decline_days) >? len df)%Z;
      [discriminate H|].
    destruct (iloc64 df (-3 - prior_decline_days)) as [ps|];
      [|discriminate H].
    destruct (iloc64 df (-4)) as [pe|]; [|discriminate H].
    cbn [bind] in H.
    destruct (close64 ps =? 0); [discriminate H|].
    match type of H with
    | (if ?c then _ else _) = _ => destruct c; [discriminate H|]
    end.
    match type of H with
    | (if ?c then _ else _) = _ => destruct c; [discriminate H|]
    end.
    destruct (close64 day2 =? 0); [discriminate H|].
    injection H as H. apply pattern_match_iff in H.
    exists day1, day2, day3.
    split; [reflexivity|]. split; [reflexivity|]. split; [reflexivity|].
    tauto.
  - intros df day1 day2 day3 ps pe Hl E1 E2 E3 E4 E5 G0 Gd Ga O1 O2 O3 C2 Hs.
    unfold check_reversal_match. cbv zeta.
    change (3 + prior_decline_days)%Z with 25%Z.
    change (-3 - prior_decline_days)%Z with (-25)%Z.
    destruct (len df <? 25)%Z eqn:L; [apply Z.ltb_lt in L; lia|].
    rewrite E1, E2, E3. cbn [bind].
    destruct (Z.abs (-25) >? len df)%Z eqn:L2;
      [apply Z.gtb_lt in L2; cbn in L2; lia|].
    rewrite E4, E5. cbn [bind].
    rewrite G0, Gd, Ga, O1, O2, O3, C2. cbn [orb andb].
    rewrite andb_false_r.
    split.
    + intro H. injection H as H. apply pattern_match_iff in H. tauto.
    + intro H. f_equal. apply pattern_match_iff. tauto.
  - repeat split; reflexivity.
  - repeat split; reflexivity.
Qed.

Lemma reversal_thresholds_inclusive_binary64_witness :
  abs (change (row_of (mkBar "d1" 1000 1000 997 997 1))) = small_bear_min
  /\ check_reversal_match (frame_of edge_series_x10) = Ok true.
Proof.
  split; [reflexivity|].
  apply (proj1 (proj2 reversal_thresholds_inclusive_binary64)
           (frame_of edge_series_x10)
           (row_of (mkBar "d1" 1000 1000 997 997 1))
           (row_of (mkBar "d2" 1000 1000 960 960 1))
           (row_of (mkBar "d3" 900 918 900 918 1))
           (row_of (mkBar "p0" 1100 1100 1100 1100 1))
           (row_of (mkBar "d" 990 990 990 990 1)));
    try reflexivity; try (apply Z.leb_le; reflexivity).
  repeat split; reflexivity.
Defined.

(** The series 100 to 99.7 is on the lower edge of the first threshold
    and is matched in exact arithmetic; the detector computes a magnitude
    of 0.29999999999999716 for it, below 0.3, and rejects it. *)
Lemma reversal_decimal_edge_rejected :
  (Qabs (((997 # 10) - 100) / 100 * 100) == 3 # 10)%Q
  /\ (exists d,
        Reversal.check_reversal_pattern (Some edge_series) = Ok (Some d))
  /\ abs (change (row_of (mkBar "d1" 100 100 (997 # 10) (997 # 10) 1)))
     = 0.29999999999999716
  /\ (abs (change (row_of (mkBar "d1" 100 100 (997 # 10) (997 # 10) 1)))
      <? small_bear_min) = true
  /\ check_reversal_match (frame_of edge_series) = Ok false.
Proof.
  split; [reflexivity|].
  split; [eexists; vm_compute; reflexivity|].
  split; [reflexivity|]. split; reflexivity.
Qed.

End ReversalBinary64Facts.
